(** * RFM segmentation of the Olist dashboard ([dashboard.py])

    A shallow embedding of [perform_rfm_analysis] and of the fragment of
    pandas it calls.  DataFrames are mutable Python objects: they live in a
    heap of objects, a variable holds a reference, and the operations of the
    function either allocate a new frame ([groupby().agg()], [reset_index],
    [pd.merge]) or update one in place ([rename(inplace=True)],
    [df[col] = ...]).  Series are values.  Exceptions are results of the
    computation, named by their Python class.

    Idealisations: a float64 is an exact rational or NaN (bin edges may also
    be +inf), so that sums and quantile interpolation are exact.  The program
    rounds both, and takes the quantile positions from the float64 values of
    [np.linspace(0, 1, 6)]: an edge of the program may differ from the edge
    here in its last digits, and two edges that coincide here need not
    coincide there.  The properties of scores stated at the end (not the
    closed forms that lead to them) use of the edges only what the rounded
    edges share: equal values give equal edges, the lowest edge is the least
    value, the highest the greatest, and no edge lies beyond them.  What is
    stated of sums is stated of exact sums.  A Timestamp
    is its integer count of nanoseconds; a column of identifiers holds
    strings.  The pandas functions are modelled after their documented
    behaviour on the dtypes the analysis uses; other dtypes raise TypeError
    here.

    The other functions of the module that compute are embedded after the
    analysis: [preprocess_data], which works in place on the heap, and
    [get_top_customers] and [get_top_positive_reviewers], which only build
    new frames and are written on frame values.  What pandas leaves open or
    delegates is a parameter there: the parser of [pd.to_datetime] and the
    text of a month for [preprocess_data], and the order in which the
    unstable sort of [sort_values] leaves equal values for the two rankings.
    The plotting functions draw with matplotlib and are not embedded. *)

From Stdlib Require Import ZArith QArith String Lqa.
From stdpp Require Import base option list sorting strings gmap.

Local Open Scope string_scope.
Local Open Scope list_scope.
Local Open Scope Z_scope.

(** ** Exceptions and results *)

Record exn := Raise { exn_class : string; exn_msg : string }.

Inductive result (A : Type) : Type :=
| Ok (a : A)
| Err (e : exn).
Arguments Ok {A} a.
Arguments Err {A} e.

#[global] Instance result_ret : MRet result := λ A a, Ok a.
#[global] Instance result_bind : MBind result := λ A B f m,
  match m with
  | Ok a => f a
  | Err e => Err e
  end.

Definition KeyError (key : string) : exn := Raise "KeyError" key.
Definition TypeError (msg : string) : exn := Raise "TypeError" msg.
Definition ValueError (msg : string) : exn := Raise "ValueError" msg.

Fixpoint mapR {A B : Type} (f : A → result B) (l : list A) : result (list B) :=
  match l with
  | [] => Ok []
  | a :: l' => b ← f a; bs ← mapR f l'; Ok (b :: bs)
  end.

(** ** Values, columns and frames *)

(** A scalar as Python sees it once taken out of a column. *)
Inductive value :=
| VStr (s : string)
| VInt (z : Z)
| VFloat (q : Q)
| VTime (t : Z)
| VNaN
| VNaT.

(** A column, by dtype.  [None] is the missing value of the dtype (NaN, NaT). *)
Inductive Series :=
| Object (l : list string)
| Int64 (l : list Z)
| Float64 (l : list (option Q))
| Datetime64 (l : list (option Z))
| Category (l : list (option Z)).

Record DataFrame := {
  index : option (string * Series);   (* [None] is the default RangeIndex *)
  columns : list (string * Series)
}.

Definition series_len (s : Series) : nat :=
  match s with
  | Object l => length l
  | Int64 l => length l
  | Float64 l => length l
  | Datetime64 l => length l
  | Category l => length l
  end.

Definition series_get (s : Series) (i : nat) : value :=
  match s with
  | Object l => from_option VStr VNaN (l !! i)
  | Int64 l => from_option VInt VNaN (l !! i)
  | Float64 l => from_option VFloat VNaN (mjoin (l !! i))
  | Datetime64 l => from_option VTime VNaT (mjoin (l !! i))
  | Category l => from_option VInt VNaN (mjoin (l !! i))
  end.

(** Boolean-mask selection [s[mask]]. *)
Fixpoint select {A : Type} (mask : list bool) (l : list A) : list A :=
  match mask, l with
  | b :: mask', a :: l' => if b then a :: select mask' l' else select mask' l'
  | _, _ => []
  end.

Definition series_select (mask : list bool) (s : Series) : Series :=
  match s with
  | Object l => Object (select mask l)
  | Int64 l => Int64 (select mask l)
  | Float64 l => Float64 (select mask l)
  | Datetime64 l => Datetime64 (select mask l)
  | Category l => Category (select mask l)
  end.

(** Positional selection [s.take(idx)]. *)
Definition take_at {A : Type} (idx : list nat) (l : list A) : list A :=
  omap (λ i, l !! i) idx.

Definition series_take (idx : list nat) (s : Series) : Series :=
  match s with
  | Object l => Object (take_at idx l)
  | Int64 l => Int64 (take_at idx l)
  | Float64 l => Float64 (take_at idx l)
  | Datetime64 l => Datetime64 (take_at idx l)
  | Category l => Category (take_at idx l)
  end.

Fixpoint lookup_col (name : string) (cols : list (string * Series)) : option Series :=
  match cols with
  | [] => None
  | (n, s) :: cols' => if String.eqb n name then Some s else lookup_col name cols'
  end.

Definition getcol (df : DataFrame) (name : string) : result Series :=
  match lookup_col name (columns df) with
  | Some s => Ok s
  | None => Err (KeyError name)
  end.

(** [df[name] = s] on the column list: an existing column is replaced where
    it stands, a new one is appended. *)
Fixpoint assign_col (name : string) (s : Series) (cols : list (string * Series))
  : list (string * Series) :=
  match cols with
  | [] => [(name, s)]
  | (n, s') :: cols' =>
      if String.eqb n name then (n, s) :: cols' else (n, s') :: assign_col name s cols'
  end.

Definition rename_col (old new : string) (cols : list (string * Series))
  : list (string * Series) :=
  map (λ c, if String.eqb c.1 old then (new, c.2) else c) cols.

Definition nrows (df : DataFrame) : nat :=
  match index df, columns df with
  | Some (_, s), _ => series_len s
  | None, (_, s) :: _ => series_len s
  | None, [] => 0%nat
  end.

(** ** Numbers *)

Definition Qltb (a b : Q) : bool := negb (Qle_bool b a).

(** First occurrences, in order of appearance ([pd.unique]). *)
Fixpoint unique_by {A : Type} (eqb : A → A → bool) (l : list A) : list A :=
  match l with
  | [] => []
  | a :: l' => a :: List.filter (λ b, negb (eqb a b)) (unique_by eqb l')
  end.

(** ** Series methods used by the analysis *)

Definition dropna {A : Type} (l : list (option A)) : list A := omap id l.

(** [s.max()]: missing values are skipped; the maximum of nothing is missing. *)
Definition max_list_opt (l : list Z) : option Z :=
  match l with
  | [] => None
  | z :: l' => Some (foldr Z.max z l')
  end.

Definition series_max (s : Series) : result value :=
  match s with
  | Datetime64 l => Ok (from_option VTime VNaT (max_list_opt (dropna l)))
  | Int64 l => Ok (from_option VInt VNaN (max_list_opt l))
  | _ => Err (TypeError "max: dtype outside the modelled fragment")
  end.

Definition ns_per_day : Z := 86400 * 1000000000.

(** [(a - b).days] for two Timestamps: the Timedelta's whole days, rounded
    towards minus infinity; NaT propagates and [NaT.days] is NaN. *)
Definition timedelta_days (a b : value) : result value :=
  match a, b with
  | VTime ta, VTime tb => Ok (VInt ((ta - tb) `div` ns_per_day))
  | VTime _, VNaT | VNaT, VTime _ | VNaT, VNaT => Ok VNaN
  | _, _ => Err (TypeError "unsupported operand type(s) for -")
  end.

(** [s.nunique()]: number of distinct non-missing values. *)
Definition nunique (s : Series) : result value :=
  Ok (VInt (Z.of_nat
    match s with
    | Object l => length (unique_by String.eqb l)
    | Int64 l => length (unique_by Z.eqb l)
    | Float64 l => length (unique_by Qeq_bool (dropna l))
    | Datetime64 l => length (unique_by Z.eqb (dropna l))
    | Category l => length (unique_by Z.eqb (dropna l))
    end)).

(** [s.sum()]: missing values are skipped. *)
Definition series_sum (s : Series) : result value :=
  match s with
  | Float64 l => Ok (VFloat (foldr Qplus 0%Q (dropna l)))
  | Int64 l => Ok (VInt (foldr Z.add 0 l))
  | _ => Err (TypeError "sum: dtype outside the modelled fragment")
  end.

(** The column pandas builds from the scalars a function returned, one per
    group or per row: int64 when all are integers, object when all are
    strings, float64 as soon as one is a float or NaN. *)
Definition as_int (v : value) : option Z :=
  match v with VInt z => Some z | _ => None end.

Definition as_float (v : value) : result (option Q) :=
  match v with
  | VInt z => Ok (Some (inject_Z z))
  | VFloat q => Ok (Some q)
  | VNaN => Ok None
  | _ => Err (TypeError "aggregate: dtype outside the modelled fragment")
  end.

Definition as_str (v : value) : option string :=
  match v with VStr s => Some s | _ => None end.

Definition series_of_values (vs : list value) : result Series :=
  match mapM as_int vs with
  | Some zs => Ok (Int64 zs)
  | None =>
      match mapM as_str vs with
      | Some ss => Ok (Object ss)
      | None => qs ← mapR as_float vs; Ok (Float64 qs)
      end
  end.

(** The numbers a numeric column holds, as [pd.cut] and [pd.qcut] read them. *)
Definition to_numeric (s : Series) : result (list (option Q)) :=
  match s with
  | Int64 l => Ok (map (λ z, Some (inject_Z z)) l)
  | Float64 l => Ok l
  | Datetime64 l => Ok (map (fmap inject_Z) l)
  | _ => Err (TypeError "cut: dtype outside the modelled fragment")
  end.

(** [s.astype(int)] *)
Definition astype_int (s : Series) : result Series :=
  match s with
  | Int64 l => Ok (Int64 l)
  | Category l =>
      match mapM id l with
      | Some zs => Ok (Int64 zs)
      | None => Err (ValueError "Cannot convert float NaN to integer")
      end
  | _ => Err (TypeError "astype: dtype outside the modelled fragment")
  end.

(** [a + b] on two columns with the same index. *)
Definition series_add (a b : Series) : result Series :=
  match a, b with
  | Int64 x, Int64 y => Ok (Int64 (zip_with Z.add x y))
  | _, _ => Err (TypeError "+: dtype outside the modelled fragment")
  end.

(** ** Binning: [pd.cut], [pd.qcut] and their common [_bins_to_cuts] *)

(** A bin edge: a float that may be +inf ([float('inf')]) or NaN (a quantile
    of no data). *)
Inductive edge :=
| Fin (q : Q)
| Inf
| NaN.

Definition edge_eqb (a b : edge) : bool :=   (* as [pd.unique]: NaN is one value *)
  match a, b with
  | Fin x, Fin y => Qeq_bool x y
  | Inf, Inf => true
  | NaN, NaN => true
  | _, _ => false
  end.

Definition edge_leb (a b : edge) : bool :=
  match a, b with
  | Fin x, Fin y => Qle_bool x y
  | Fin _, Inf | Inf, Inf => true
  | _, _ => false
  end.

(** [edge < x] and [edge == x] for a datum [x]. *)
Definition edge_lt (b : edge) (x : Q) : bool :=
  match b with Fin q => Qltb q x | _ => false end.

Definition edge_is (b : edge) (x : Q) : bool :=
  match b with Fin q => Qeq_bool q x | _ => false end.

Fixpoint monotonic_increasing (bins : list edge) : bool :=
  match bins with
  | a :: (b :: _) as rest => edge_leb a b && monotonic_increasing rest
  | _ => true
  end.

(** [s.quantile(k/q)], linear interpolation between the two order statistics
    around position [(n-1)*k/q]. *)
Definition sort_values (l : list Q) : list Q := merge_sort (λ a b, Qle_bool a b) l.

Definition quantile (xs : list Q) (k q : nat) : edge :=
  let v := sort_values xs in
  match v with
  | [] => NaN
  | v0 :: _ =>
      let n := length v in
      let pos := ((n - 1) * k)%nat in
      let lo := (pos `div` q)%nat in
      let hi := ((lo + 1) `min` (n - 1))%nat in
      let a := nth lo v v0 in
      let b := nth hi v v0 in
      let gamma := Qmake (Z.of_nat (pos `mod` q)) (Pos.of_nat q) in
      Fin (a + (b - a) * gamma)%Q
  end.

(** [bins.searchsorted(x, side='left')]: the position of the first edge that
    is not strictly below [x]; on increasing [bins], the number of edges
    strictly below [x]. *)
Fixpoint searchsorted_left (bins : list edge) (x : Q) : nat :=
  match bins with
  | b :: bins' => if edge_lt b x then S (searchsorted_left bins' x) else 0%nat
  | [] => 0%nat
  end.

Inductive duplicates_policy := dup_raise | dup_drop.

Definition no_duplicates (labels : list Z) : bool :=
  (length (unique_by Z.eqb labels) =? length labels)%nat.

(** The bin number of one datum, [None] when it falls in no bin. *)
Definition bin_of (bins : list edge) (include_lowest : bool) (x : option Q) : option nat :=
  q ← x;
  let id := searchsorted_left bins q in
  let id := if include_lowest && from_option (λ b, edge_is b q) false (head bins)
            then 1%nat else id in
  if ((id =? length bins) || (id =? 0))%nat then None else Some (id - 1)%nat.

(** ** DataFrame operations *)

(** Group keys in sorted order ([groupby] sorts its keys). *)
Definition group_keys (ks : list string) : list string :=
  merge_sort (λ a b, String.leb a b) (unique_by String.eqb ks).

(** [df.groupby(key).agg({col: f})]: [f] receives, for each key, the values
    of [col] on the rows of that key; the keys become the index.  (With no
    group at all the aggregated column is empty and given dtype int64 here;
    pandas picks a dtype by aggregation, and [pd.qcut] treats all of them
    alike.  The index of [df] is not consulted: the frames grouped here have
    the default index, where a key names a column only.) *)
Definition groupby_agg (df : DataFrame) (key col : string) (f : Series → result value)
  : result DataFrame :=
  k ← getcol df key;
  match k with
  | Object ks =>
      s ← getcol df col;
      let keys := group_keys ks in
      vs ← mapR (λ c, f (series_select (map (String.eqb c) ks) s)) keys;
      agg ← series_of_values vs;
      Ok {| index := Some (key, Object keys); columns := [(col, agg)] |}
  | _ => Err (TypeError "groupby: key dtype outside the modelled fragment")
  end.

(** [df.reset_index()]: the index becomes the first column. *)
Definition reset_index (df : DataFrame) : result DataFrame :=
  let '(name, s) :=
    match index df with
    | Some ix => ix
    | None => ("index", Int64 (map Z.of_nat (seq 0 (nrows df))))
    end in
  match lookup_col name (columns df) with
  | Some _ => Err (ValueError (String.append "cannot insert " (String.append name ", already exists")))
  | None => Ok {| index := None; columns := (name, s) :: columns df |}
  end.

(** [df.rename(columns={old: new})] *)
Definition rename (df : DataFrame) (old new : string) : DataFrame :=
  {| index := index df; columns := rename_col old new (columns df) |}.

(** [df[name] = s] *)
Definition assign (df : DataFrame) (name : string) (s : Series) : DataFrame :=
  {| index := index df; columns := assign_col name s (columns df) |}.

(** The inner join of two frames on a column of strings, as [pd.merge]
    computes it: rows in the order of the left keys; a column name present on
    both sides gets the suffix [_x] or [_y]. *)
Definition join_pairs (lks rks : list string) : list (nat * nat) :=
  flat_map (λ '(i, a),
      omap (λ '(j, b), if String.eqb a b then Some (i, j) else None) (imap pair rks))
    (imap pair lks).

Definition other_cols (on : string) (cols : list (string * Series)) : list (string * Series) :=
  List.filter (λ c, negb (String.eqb c.1 on)) cols.

Definition suffixed (others : list (string * Series)) (sfx : string) (idx : list nat)
    (c : string * Series) : string * Series :=
  (if lookup_col c.1 others is Some _ then String.append c.1 sfx else c.1,
   series_take idx c.2).

Definition inner_join (l r : DataFrame) (on : string) : result DataFrame :=
  lk ← getcol l on;
  rk ← getcol r on;
  match lk, rk with
  | Object lks, Object rks =>
      let pairs := join_pairs lks rks in
      let lcols := other_cols on (columns l) in
      let rcols := other_cols on (columns r) in
      Ok {| index := None;
            columns := (on, Object (take_at pairs.*1 lks))
                       :: map (suffixed rcols "_x" pairs.*1) lcols
                       ++ map (suffixed lcols "_y" pairs.*2) rcols |}
  | _, _ => Err (TypeError "merge: key dtype outside the modelled fragment")
  end.

(** The rows of a frame, each a mapping from column name to value, as
    [df.apply(f, axis=1)] hands them to [f]. *)
Definition Row := list (string * value).

Definition iterrows (df : DataFrame) : list Row :=
  map (λ i, map (λ c, (c.1, series_get c.2 i)) (columns df)) (seq 0 (nrows df)).

Fixpoint row_get (row : Row) (name : string) : result value :=
  match row with
  | [] => Err (KeyError name)
  | (n, v) :: row' => if String.eqb n name then Ok v else row_get row' name
  end.

Definition apply_rows (df : DataFrame) (f : Row → result value) : result Series :=
  vs ← mapR f (iterrows df);
  series_of_values vs.

(** Comparisons of a cell with an integer literal. *)
Definition ge_int (v : value) (k : Z) : result bool :=
  match v with
  | VInt z => Ok (k <=? z)
  | VFloat q => Ok (Qle_bool (inject_Z k) q)
  | VNaN => Ok false
  | _ => Err (TypeError "'>=' not supported between these instances")
  end.

Definition lt_int (v : value) (k : Z) : result bool :=
  match v with
  | VInt z => Ok (z <? k)
  | VFloat q => Ok (Qltb q (inject_Z k))
  | VNaN => Ok false
  | _ => Err (TypeError "'<' not supported between these instances")
  end.

(** ** The heap of DataFrame objects *)

Abbreviation loc := nat (only parsing).
Abbreviation heap := (list DataFrame) (only parsing).

Definition M (A : Type) : Type := heap → result A * heap.

#[global] Instance M_ret : MRet M := λ A a h, (Ok a, h).
#[global] Instance M_bind : MBind M := λ A B f m h,
  match m h with
  | (Ok a, h') => f a h'
  | (Err e, h') => (Err e, h')
  end.

Definition lift {A : Type} (r : result A) : M A := λ h, (r, h).

Definition alloc (df : DataFrame) : M loc := λ h, (Ok (length h), h ++ [df]).

Definition dangling : exn := Raise "ReferenceError" "no such object".

Definition deref (l : loc) : M DataFrame := λ h,
  match h !! l with
  | Some df => (Ok df, h)
  | None => (Err dangling, h)
  end.

Definition update (l : loc) (f : DataFrame → DataFrame) : M () := λ h,
  match h !! l with
  | Some df => (Ok (), <[l := f df]> h)
  | None => (Err dangling, h)
  end.

Definition getitem (df : loc) (name : string) : M Series :=
  d ← deref df; lift (getcol d name).

Definition setitem (df : loc) (name : string) (s : Series) : M () :=
  update df (λ d, assign d name s).

Definition rename_inplace (df : loc) (old new : string) : M () :=
  update df (λ d, rename d old new).

Definition df_groupby_agg (df : loc) (key col : string) (f : Series → result value) : M loc :=
  d ← deref df; g ← lift (groupby_agg d key col f); alloc g.

Definition df_reset_index (df : loc) : M loc :=
  d ← deref df; r ← lift (reset_index d); alloc r.

Definition df_apply (df : loc) (f : Row → result value) : M Series :=
  d ← deref df; lift (apply_rows d f).

(** ** The functions of the pandas module ([import pandas as pd]) *)

Module pd.

Definition _bins_to_cuts (x : list (option Q)) (bins : list edge) (labels : list Z)
    (include_lowest : bool) (duplicates : duplicates_policy) : result (list (option Z)) :=
  let unique_bins := unique_by edge_eqb bins in
  bins ← (if (length unique_bins <? length bins)%nat && negb (length bins =? 2)%nat
          then match duplicates with
               | dup_raise => Err (ValueError "Bin edges must be unique")
               | dup_drop => Ok unique_bins
               end
          else Ok bins);
  let ids := map (bin_of bins include_lowest) x in
  if negb (no_duplicates labels)
  then Err (ValueError "labels must be unique if ordered=True")
  else if negb (length labels + 1 =? length bins)%nat
  then Err (ValueError "Bin labels must be one fewer than the number of bin edges")
  else Ok (map (λ id, i ← id; labels !! i) ids).

(** [pd.qcut(x, q, labels=labels, duplicates=duplicates)] *)
Definition qcut (x : Series) (q : nat) (labels : list Z) (duplicates : duplicates_policy)
  : result Series :=
  xs ← to_numeric x;
  let bins := map (λ k, quantile (dropna xs) k q) (seq 0 (S q)) in
  fac ← _bins_to_cuts xs bins labels true duplicates;
  Ok (Category fac).

(** [pd.cut(x, bins=bins, labels=labels)] with a list of edges *)
Definition cut (x : Series) (bins : list edge) (labels : list Z) : result Series :=
  xs ← to_numeric x;
  if monotonic_increasing bins
  then fac ← _bins_to_cuts xs bins labels false dup_raise; Ok (Category fac)
  else Err (ValueError "bins must increase monotonically.").

(** [pd.merge(l, r, on=on)]: the join is a new frame. *)
Definition merge (l r : loc) (on : string) : M loc :=
  a ← deref l; b ← deref r; m ← lift (inner_join a b on); alloc m.

End pd.

(** ** [perform_rfm_analysis] *)

Definition segment_customer (row : Row) : result value :=
  s ← row_get row "RFM_Score";
  c ← ge_int s 12;
  if (c : bool) then Ok (VStr "Champions") else
  s ← row_get row "RFM_Score";
  c1 ← ge_int s 9;
  c2 ← (if (c1 : bool) then lt_int s 12 else Ok false);
  if (c2 : bool) then Ok (VStr "Loyal Customers") else
  s ← row_get row "RFM_Score";
  c1 ← ge_int s 6;
  c2 ← (if (c1 : bool) then lt_int s 9 else Ok false);
  if (c2 : bool) then Ok (VStr "Potential Loyalists") else
  s ← row_get row "RFM_Score";
  c1 ← ge_int s 3;
  c2 ← (if (c1 : bool) then lt_int s 6 else Ok false);
  if (c2 : bool) then Ok (VStr "At Risk") else
  Ok (VStr "Lost Customers").

Definition perform_rfm_analysis (df : loc) : M loc :=
  (* Recency *)
  ts ← getitem df "order_purchase_timestamp";
  latest_date ← lift (series_max ts);
  g ← df_groupby_agg df "customer_id" "order_purchase_timestamp"
        (λ x, m ← series_max x; timedelta_days latest_date m);
  recency_df ← df_reset_index g;
  rename_inplace recency_df "order_purchase_timestamp" "Recency";;
  (* Frequency *)
  g ← df_groupby_agg df "customer_id" "order_id" nunique;
  frequency_df ← df_reset_index g;
  rename_inplace frequency_df "order_id" "Frequency";;
  (* Monetary *)
  g ← df_groupby_agg df "customer_id" "total_spent" series_sum;
  monetary_df ← df_reset_index g;
  rename_inplace monetary_df "total_spent" "Monetary";;
  (* Merge RFM dataframes *)
  rfm_df ← pd.merge recency_df frequency_df "customer_id";
  rfm_df ← pd.merge rfm_df monetary_df "customer_id";
  (* Score RFM *)
  recency ← getitem rfm_df "Recency";
  r ← lift (pd.qcut recency 5 [5; 4; 3; 2; 1] dup_drop);
  setitem rfm_df "R_Score" r;;
  let bins := [Fin 0; Fin 1; Fin 2; Fin 3; Fin 4; Inf] in
  let labels := [1; 2; 3; 4; 5] in
  frequency ← getitem rfm_df "Frequency";
  f ← lift (pd.cut frequency bins labels);
  setitem rfm_df "F_Score" f;;
  monetary ← getitem rfm_df "Monetary";
  m ← lift (pd.qcut monetary 5 [1; 2; 3; 4; 5] dup_drop);
  setitem rfm_df "M_Score" m;;
  (* Total RFM Score *)
  r ← getitem rfm_df "R_Score";
  r ← lift (astype_int r);
  f ← getitem rfm_df "F_Score";
  f ← lift (astype_int f);
  rf ← lift (series_add r f);
  m ← getitem rfm_df "M_Score";
  m ← lift (astype_int m);
  total ← lift (series_add rf m);
  setitem rfm_df "RFM_Score" total;;
  (* Segment Customers *)
  segment ← df_apply rfm_df segment_customer;
  setitem rfm_df "Segment" segment;;
  mret rfm_df.

(** ** Order tables *)

(** One row of the order table as the analysis receives it: already
    preprocessed ([total_spent] is [price + freight_value]) and filtered by
    date, so that every timestamp is a parsed one. *)
Record Order := {
  customer_id : string;
  order_id : string;
  order_purchase_timestamp : Z;
  price : Q;
  freight_value : Q
}.

Definition total_spent (o : Order) : Q := (price o + freight_value o)%Q.

Definition orders_frame (rows : list Order) : DataFrame :=
  {| index := None;
     columns :=
       [ ("customer_id", Object (map customer_id rows));
         ("order_id", Object (map order_id rows));
         ("order_purchase_timestamp", Datetime64 (map (λ o, Some (order_purchase_timestamp o)) rows));
         ("price", Float64 (map (λ o, Some (price o)) rows));
         ("freight_value", Float64 (map (λ o, Some (freight_value o)) rows));
         ("total_spent", Float64 (map (λ o, Some (total_spent o)) rows)) ] |}.

(** ** The table computed, as a function of the input table

    [perform_rfm_analysis] reads the frame its argument refers to and
    nothing else.  [rfm_table] is the same sequence of pandas calls on frame
    values, without the heap: [rfm_metrics] up to the two merges, [rfm_scores]
    from there.  [perform_rfm_analysis_run] relates it to the function. *)

Definition rfm_metrics (df : DataFrame) : result DataFrame :=
  ts ← getcol df "order_purchase_timestamp";
  latest_date ← series_max ts;
  g ← groupby_agg df "customer_id" "order_purchase_timestamp"
        (λ x, m ← series_max x; timedelta_days latest_date m);
  recency_df ← reset_index g;
  let recency_df := rename recency_df "order_purchase_timestamp" "Recency" in
  g ← groupby_agg df "customer_id" "order_id" nunique;
  frequency_df ← reset_index g;
  let frequency_df := rename frequency_df "order_id" "Frequency" in
  g ← groupby_agg df "customer_id" "total_spent" series_sum;
  monetary_df ← reset_index g;
  let monetary_df := rename monetary_df "total_spent" "Monetary" in
  rfm_df ← inner_join recency_df frequency_df "customer_id";
  inner_join rfm_df monetary_df "customer_id".

Definition rfm_scores (rfm_df : DataFrame) : result DataFrame :=
  recency ← getcol rfm_df "Recency";
  r ← pd.qcut recency 5 [5; 4; 3; 2; 1] dup_drop;
  let rfm_df := assign rfm_df "R_Score" r in
  frequency ← getcol rfm_df "Frequency";
  f ← pd.cut frequency [Fin 0; Fin 1; Fin 2; Fin 3; Fin 4; Inf] [1; 2; 3; 4; 5];
  let rfm_df := assign rfm_df "F_Score" f in
  monetary ← getcol rfm_df "Monetary";
  m ← pd.qcut monetary 5 [1; 2; 3; 4; 5] dup_drop;
  let rfm_df := assign rfm_df "M_Score" m in
  r ← getcol rfm_df "R_Score";
  r ← astype_int r;
  f ← getcol rfm_df "F_Score";
  f ← astype_int f;
  rf ← series_add r f;
  m ← getcol rfm_df "M_Score";
  m ← astype_int m;
  total ← series_add rf m;
  let rfm_df := assign rfm_df "RFM_Score" total in
  segment ← apply_rows rfm_df segment_customer;
  Ok (assign rfm_df "Segment" segment).

Definition rfm_table (df : DataFrame) : result DataFrame :=
  rfm_df ← rfm_metrics df; rfm_scores rfm_df.

(** What a call leaves to its caller: the table behind the returned
    reference, or the exception. *)
Definition outcome (run : result loc * heap) : result DataFrame :=
  match run with
  | (Ok l, h) => from_option Ok (Err dangling) (h !! l)
  | (Err e, _) => Err e
  end.

(** [run] is a run from heap [h] that computed [r]: it left [h] as it was,
    allocated new objects after it, and returned a reference to the eighth
    of them, which holds the table [r], or raised the exception [r]. *)
Definition run_as (r : result DataFrame) (h : heap) (run : result loc * heap) : Prop :=
  ∃ objs : list DataFrame,
    run.2 = h ++ objs ∧
    match r with
    | Ok t => run.1 = Ok (length h + 7)%nat ∧ objs !! 7%nat = Some t
    | Err e => run.1 = Err e
    end.

(** ** The metrics of an order table *)

Definition customers (rows : list Order) : list string :=
  group_keys (map customer_id rows).

Definition orders_of (c : string) (rows : list Order) : list Order :=
  filter (λ o, customer_id o = c) rows.

Definition latest (rows : list Order) : Z :=
  default 0 (max_list_opt (map order_purchase_timestamp rows)).

Definition recency (rows : list Order) (c : string) : Z :=
  (latest rows - latest (orders_of c rows)) `div` ns_per_day.

Definition frequency (rows : list Order) (c : string) : Z :=
  Z.of_nat (length (unique_by String.eqb (map order_id (orders_of c rows)))).

Definition monetary (rows : list Order) (c : string) : Q :=
  foldr Qplus 0%Q (map total_spent (orders_of c rows)).

(** The frame [rfm_df] after the two merges. *)
Definition metrics_frame (rows : list Order) : DataFrame :=
  let K := customers rows in
  {| index := None;
     columns :=
       [ ("customer_id", Object K);
         ("Recency", Int64 (map (recency rows) K));
         ("Frequency", Int64 (map (frequency rows) K));
         ("Monetary", Float64 (map (λ c, Some (monetary rows c)) K)) ] |}.

(** The segment table of the specification, first matching range wins. *)
Definition segment_of_score (rfm_score : Z) : string :=
  if 12 <=? rfm_score then "Champions"
  else if (9 <=? rfm_score) && (rfm_score <? 12) then "Loyal Customers"
  else if (6 <=? rfm_score) && (rfm_score <? 9) then "Potential Loyalists"
  else if (3 <=? rfm_score) && (rfm_score <? 6) then "At Risk"
  else "Lost Customers".

(** The frame [rfm_df] at the end, given the recency and monetary scores. *)
Definition scored_frame (rows : list Order) (rs ms : list Z) : DataFrame :=
  let K := customers rows in
  let fs := map (λ c, frequency rows c `min` 5) K in
  let total := zip_with Z.add (zip_with Z.add rs fs) ms in
  {| index := None;
     columns :=
       [ ("customer_id", Object K);
         ("Recency", Int64 (map (recency rows) K));
         ("Frequency", Int64 (map (frequency rows) K));
         ("Monetary", Float64 (map (λ c, Some (monetary rows c)) K));
         ("R_Score", Category (map Some rs));
         ("F_Score", Category (map Some fs));
         ("M_Score", Category (map Some ms));
         ("RFM_Score", Int64 total);
         ("Segment", Object (map segment_of_score total)) ] |}.

(** The row of customer [c] in that frame, with scores [r] and [m]. *)
Definition scored_row (rows : list Order) (c : string) (r m : Z) : Row :=
  let f := frequency rows c `min` 5 in
  [ ("customer_id", VStr c);
    ("Recency", VInt (recency rows c));
    ("Frequency", VInt (frequency rows c));
    ("Monetary", VFloat (monetary rows c));
    ("R_Score", VInt r);
    ("F_Score", VInt f);
    ("M_Score", VInt m);
    ("RFM_Score", VInt (r + f + m));
    ("Segment", VStr (segment_of_score (r + f + m))) ].

(** ** The words of the specification *)

(** Lost Customers < At Risk < Potential Loyalists < Loyal Customers < Champions *)
Definition segment_rank (segment : string) : option nat :=
  if String.eqb segment "Lost Customers" then Some 0%nat
  else if String.eqb segment "At Risk" then Some 1%nat
  else if String.eqb segment "Potential Loyalists" then Some 2%nat
  else if String.eqb segment "Loyal Customers" then Some 3%nat
  else if String.eqb segment "Champions" then Some 4%nat
  else None.

(** The fixed boundaries of the frequency score: exactly 1 gives 1, exactly
    2 gives 2, exactly 3 gives 3, exactly 4 gives 4, 5 or more gives 5. *)
Definition f_score_fixed (frequency : Z) : option Z :=
  if frequency =? 1 then Some 1
  else if frequency =? 2 then Some 2
  else if frequency =? 3 then Some 3
  else if frequency =? 4 then Some 4
  else if 5 <=? frequency then Some 5
  else None.

(** The distinct order identifiers of a customer. *)
Definition distinct_orders (rows : list Order) (c : string) : gset string :=
  list_to_set (map order_id (orders_of c rows)).

(** [t] is the latest purchase timestamp among [rows]. *)
Definition is_latest (t : Z) (rows : list Order) : Prop :=
  t ∈ map order_purchase_timestamp rows ∧
  ∀ o, o ∈ rows → order_purchase_timestamp o ≤ t.

(** ** Example tables *)

Definition day (d : Z) : Z := d * ns_per_day.

(** Three customers; customer b has two rows under one order identifier and
    placed the latest order. *)
Definition ex_orders : list Order :=
  [ Build_Order "b" "o1" (day 10) 10 5;
    Build_Order "a" "o2" (day 3) 20 1;
    Build_Order "b" "o1" (day 10) 7 2;
    Build_Order "c" "o3" (day 7) 1 1;
    Build_Order "a" "o4" (day 5) 100 1 ]%Q.

Definition ex_table : DataFrame :=
  {| index := None;
     columns :=
       [ ("customer_id", Object ["a"; "b"; "c"]);
         ("Recency", Int64 [5; 0; 3]);
         ("Frequency", Int64 [2; 1; 1]);
         ("Monetary", Float64 [Some 122; Some 24; Some 2]%Q);
         ("R_Score", Category [Some 1; Some 5; Some 3]);
         ("F_Score", Category [Some 2; Some 1; Some 1]);
         ("M_Score", Category [Some 5; Some 3; Some 1]);
         ("RFM_Score", Int64 [8; 9; 5]);
         ("Segment", Object ["Potential Loyalists"; "Loyal Customers"; "At Risk"]) ] |}.

Definition ex_row_b : Row :=
  [ ("customer_id", VStr "b");
    ("Recency", VInt 0);
    ("Frequency", VInt 1);
    ("Monetary", VFloat 24);
    ("R_Score", VInt 5);
    ("F_Score", VInt 1);
    ("M_Score", VInt 3);
    ("RFM_Score", VInt 9);
    ("Segment", VStr "Loyal Customers") ].

(** The scenario of the specification: A has 1 order of 100 and recency 0,
    B has 5 orders of 50 and recency 30, C has 2 orders of 10 and recency 60. *)
Definition ex_scenario : list Order :=
  [ Build_Order "A" "a1" (day 60) 90 10;
    Build_Order "B" "b1" (day 10) 45 5;
    Build_Order "B" "b2" (day 15) 45 5;
    Build_Order "B" "b3" (day 20) 45 5;
    Build_Order "B" "b4" (day 25) 45 5;
    Build_Order "B" "b5" (day 30) 45 5;
    Build_Order "C" "c1" (day 0) 8 2;
    Build_Order "C" "c2" (day 0) 8 2 ]%Q.

(** Two customers who ordered at the same instant: every recency is 0. *)
Definition ex_same_day : list Order :=
  [ Build_Order "a" "o1" (day 1) 10 1;
    Build_Order "b" "o2" (day 1) 20 2 ]%Q.

(** ** The scores of an order table

    What [pd.qcut] computes on the [Recency] and [Monetary] columns of
    [metrics_frame]: the six quantile edges, and the score of a customer. *)

(** The six quantile edges [pd.qcut(x, q=5)] computes. *)
Definition quantile_edges (xs : list Q) : list edge :=
  map (λ k, quantile xs k 5) (seq 0 6).

(** [pd.unique] leaves the edges as they are. *)
Definition distinct_edges (es : list edge) : bool :=
  (length (unique_by edge_eqb es) =? length es)%nat.

(** The score [pd.qcut] gives to a value [x] with edges [es]. *)
Definition score_in (es : list edge) (labels : list Z) (x : Q) : option Z :=
  i ← bin_of es true (Some x); labels !! i.

Definition recency_edges (rows : list Order) : list edge :=
  quantile_edges (map (λ c, inject_Z (recency rows c)) (customers rows)).

Definition monetary_edges (rows : list Order) : list edge :=
  quantile_edges (map (monetary rows) (customers rows)).

Definition r_score (rows : list Order) (c : string) : Z :=
  default 0 (score_in (recency_edges rows) [5; 4; 3; 2; 1] (inject_Z (recency rows c))).

Definition m_score (rows : list Order) (c : string) : Z :=
  default 0 (score_in (monetary_edges rows) [1; 2; 3; 4; 5] (monetary rows c)).

(** ** [preprocess_data] *)

Definition AttributeError (msg : string) : exn := Raise "AttributeError" msg.

(** [a + b] on two numeric columns of one frame: a missing value on either
    side gives a missing value. *)
Definition series_plus (a b : Series) : result Series :=
  let add (x y : option Q) : option Q := x ← x; y ← y; Some (x + y)%Q in
  match a, b with
  | Float64 x, Float64 y => Ok (Float64 (zip_with add x y))
  | Int64 x, Float64 y => Ok (Float64 (zip_with add (map (λ z, Some (inject_Z z)) x) y))
  | Float64 x, Int64 y => Ok (Float64 (zip_with add x (map (λ z, Some (inject_Z z)) y)))
  | _, _ => series_add a b
  end.

Section preprocess.
(** The two calendar functions of pandas are parameters: the parser of
    [pd.to_datetime] on one string ([None] when the string is no date, which
    [errors='coerce'] turns into NaT), and the text of the month of an instant
    ([str(t.to_period('M'))], as in 2018-01). *)
Variable parse_datetime : string → option Z.
Variable period_month : Z → string.

(** [pd.to_datetime(s, errors='coerce')] *)
Definition to_datetime (s : Series) : result Series :=
  match s with
  | Object l => Ok (Datetime64 (map parse_datetime l))
  | Datetime64 l => Ok (Datetime64 l)
  | Int64 l => Ok (Datetime64 (map Some l))
  | _ => Err (TypeError "to_datetime: dtype outside the modelled fragment")
  end.

(** [s.dt.to_period('M').astype(str)].  What stands for the month of a
    missing timestamp depends on the pandas installed (the text NaT, or a
    missing value in later versions); the text is taken here, and nothing
    below is stated of it. *)
Definition dt_month_str (s : Series) : result Series :=
  match s with
  | Datetime64 l => Ok (Object (map (from_option period_month "NaT") l))
  | _ => Err (AttributeError "Can only use .dt accessor with datetimelike values")
  end.

Definition preprocess_data (df : loc) : M loc :=
  ts ← getitem df "order_purchase_timestamp";
  ts ← lift (to_datetime ts);
  setitem df "order_purchase_timestamp" ts;;
  ts ← getitem df "order_purchase_timestamp";
  month ← lift (dt_month_str ts);
  setitem df "month" month;;
  price ← getitem df "price";
  freight_value ← getitem df "freight_value";
  total ← lift (series_plus price freight_value);
  setitem df "total_spent" total;;
  mret df.

(** The frame behind [df] as the statements of [preprocess_data] leave it:
    after the first assignment, after the second, at the end. *)
Definition parsed_frame (d : DataFrame) : result DataFrame :=
  ts ← getcol d "order_purchase_timestamp";
  ts ← to_datetime ts;
  Ok (assign d "order_purchase_timestamp" ts).

Definition month_frame (d1 : DataFrame) : result DataFrame :=
  ts ← getcol d1 "order_purchase_timestamp";
  month ← dt_month_str ts;
  Ok (assign d1 "month" month).

Definition total_frame (d2 : DataFrame) : result DataFrame :=
  price ← getcol d2 "price";
  freight_value ← getcol d2 "freight_value";
  total ← series_plus price freight_value;
  Ok (assign d2 "total_spent" total).

Definition preprocessed (d : DataFrame) : result DataFrame :=
  d1 ← parsed_frame d; d2 ← month_frame d1; total_frame d2.
End preprocess.

(** An order table as read from the file: the timestamps are still text,
    and there is no [total_spent] yet. *)
Definition raw_frame (stamps : list string) (rows : list Order) : DataFrame :=
  {| index := None;
     columns :=
       [ ("customer_id", Object (map customer_id rows));
         ("order_id", Object (map order_id rows));
         ("order_purchase_timestamp", Object stamps);
         ("price", Float64 (map (λ o, Some (price o)) rows));
         ("freight_value", Float64 (map (λ o, Some (freight_value o)) rows)) ] |}.

(** ** Sorting a frame and taking its first rows *)

(** [df.groupby(key).agg(out=(col, f))]: the aggregated column is named [out]. *)
Definition groupby_agg_named (df : DataFrame) (key out col : string)
    (f : Series → result value) : result DataFrame :=
  g ← groupby_agg df key col f;
  Ok (rename g col out).

(** The number of rows [head(n)] keeps of [len]: the first [n]; all but the
    last [-n] for a negative [n]. *)
Definition head_count (len : nat) (n : Z) : nat :=
  if 0 <=? n then (Z.to_nat n `min` len)%nat else (len - Z.to_nat (- n))%nat.

(** [df.head(n)] *)
Definition head_rows (df : DataFrame) (n : Z) : DataFrame :=
  let idx := seq 0 (head_count (nrows df) n) in
  {| index := (λ ix, (ix.1, series_take idx ix.2)) <$> index df;
     columns := map (λ c, (c.1, series_take idx c.2)) (columns df) |}.

Definition is_missing {A : Type} (xs : list (option A)) (i : nat) : bool :=
  if mjoin (xs !! i) is Some _ then false else true.

Section sorting.
(** [sort_values] sorts with numpy's quicksort, which is not stable: the order
    in which it leaves equal values is not specified.  The sort is a
    parameter: the positions of the values of a list in descending order. *)
Variable argsort_desc : list Q → list nat.

(** The positions of a column in descending order, missing values last. *)
Definition nargsort_desc (xs : list (option Q)) : list nat :=
  let idx := seq 0 (length xs) in
  let non_nan_idx := List.filter (λ i, negb (is_missing xs i)) idx in
  let nan_idx := List.filter (is_missing xs) idx in
  take_at (argsort_desc (dropna xs)) non_nan_idx ++ nan_idx.

(** [df.sort_values(by=col, ascending=False)] on a numeric column.  The rows
    keep their labels: the index of the result holds the positions the rows
    had (an index without a name, written with the empty name). *)
Definition sort_values_desc (df : DataFrame) (col : string) : result DataFrame :=
  s ← getcol df col;
  xs ← match s with
       | Int64 _ | Float64 _ | Datetime64 _ => to_numeric s
       | _ => Err (TypeError "sort_values: dtype outside the modelled fragment")
       end;
  let idx := nargsort_desc xs in
  Ok {| index := Some match index df with
                      | Some (name, ix) => (name, series_take idx ix)
                      | None => ("", Int64 (map Z.of_nat idx))
                      end;
        columns := map (λ c, (c.1, series_take idx c.2)) (columns df) |}.

(** The positions, in the table before sorting, of the rows that
    [sort_values(ascending=False).head(n)] keeps of a column [vals]. *)
Definition top_positions (vals : list Q) (n : Z) : list nat :=
  take (head_count (length vals) n) (argsort_desc vals).

(** ** [get_top_customers] *)

Definition get_top_customers (df : DataFrame) (n : Z) : result DataFrame :=
  g ← groupby_agg_named df "customer_id" "total_spent" "price" series_sum;
  top_customers ← reset_index g;
  top_customers ← sort_values_desc top_customers "total_spent";
  Ok (head_rows top_customers n).

(** ** [get_top_positive_reviewers] *)

(** [s >= k] *)
Definition series_ge (s : Series) (k : Z) : result (list bool) :=
  match s with
  | Int64 l => Ok (map (λ z, k <=? z) l)
  | Float64 l => Ok (map (λ x, if x is Some q then Qle_bool (inject_Z k) q else false) l)
  | _ => Err (TypeError "'>=' not supported between these instances")
  end.

(** [df[mask]]: the rows where the mask holds, under the labels they had. *)
Definition filter_rows (df : DataFrame) (mask : list bool) : DataFrame :=
  {| index := Some match index df with
                   | Some (name, ix) => (name, series_select mask ix)
                   | None => ("", Int64 (select mask (map Z.of_nat (seq 0 (nrows df)))))
                   end;
     columns := map (λ c, (c.1, series_select mask c.2)) (columns df) |}.

(** [df.groupby(key).size()], a column of counts indexed by the keys; it is
    written as a frame of one column, under the name that
    [reset_index(name=name)] gives it. *)
Definition groupby_size (df : DataFrame) (key name : string) : result DataFrame :=
  k ← getcol df key;
  match k with
  | Object ks =>
      let keys := group_keys ks in
      let sizes := map (λ c, Z.of_nat (length (select (map (String.eqb c) ks) ks))) keys in
      Ok {| index := Some (key, Object keys); columns := [(name, Int64 sizes)] |}
  | _ => Err (TypeError "groupby: key dtype outside the modelled fragment")
  end.

Definition get_top_positive_reviewers (df : DataFrame) (n : Z) : result DataFrame :=
  score ← getcol df "review_score";
  mask ← series_ge score 4;
  let positive_reviews := filter_rows df mask in
  by_customer ← groupby_size positive_reviews "customer_id" "positive_reviews_count";
  positive_reviews_by_customer ← reset_index by_customer;
  top_positive_customers ←
    sort_values_desc positive_reviews_by_customer "positive_reviews_count";
  Ok (head_rows top_positive_customers n).
End sorting.

(** What the sort behind [sort_values(ascending=False)] is known to do: it
    lists every position once, and the values at the positions listed do not
    increase. *)
Definition sorts_descending (argsort_desc : list Q → list nat) : Prop :=
  ∀ xs, argsort_desc xs ≡ₚ seq 0 (length xs) ∧
        ∀ i j a b x y, (i ≤ j)%nat →
          argsort_desc xs !! i = Some a → argsort_desc xs !! j = Some b →
          xs !! a = Some x → xs !! b = Some y → (y <= x)%Q.

(** A stable sort, one of the sorts [sort_values] may stand for. *)
Definition stable_argsort_desc (xs : list Q) : list nat :=
  (merge_sort (λ a b : nat * Q, Qle_bool b.2 a.2) (imap pair xs)).*1.

(** The prices a customer paid, freight left out. *)
Definition price_total (rows : list Order) (c : string) : Q :=
  foldr Qplus 0%Q (map price (orders_of c rows)).

(** The row of customer [c] in the table of [get_top_customers]. *)
Definition top_customers_row (rows : list Order) (c : string) : Row :=
  [ ("customer_id", VStr c); ("total_spent", VFloat (price_total rows c)) ].

(** A table of reviews: one customer and one score per row. *)
Definition reviews_frame (reviews : list (string * Z)) : DataFrame :=
  {| index := None;
     columns := [ ("customer_id", Object (map fst reviews));
                  ("review_score", Int64 (map snd reviews)) ] |}.

(** The reviews of customer [c] with a score of 4 or more, their number,
    and the customers who have one. *)
Definition positive_reviews (reviews : list (string * Z)) (c : string) : list (string * Z) :=
  filter (λ r, r.1 = c) (filter (λ r, 4 ≤ r.2) reviews).

Definition positive_count (reviews : list (string * Z)) (c : string) : Z :=
  Z.of_nat (length (positive_reviews reviews c)).

Definition positive_customers (reviews : list (string * Z)) : list string :=
  group_keys (map fst (filter (λ r, 4 ≤ r.2) reviews)).

(** The row of customer [c] in the table of [get_top_positive_reviewers]. *)
Definition top_reviewers_row (reviews : list (string * Z)) (c : string) : Row :=
  [ ("customer_id", VStr c); ("positive_reviews_count", VInt (positive_count reviews c)) ].

(** ** More example tables *)

Definition ex_row_a : Row :=
  [ ("customer_id", VStr "a");
    ("Recency", VInt 5);
    ("Frequency", VInt 2);
    ("Monetary", VFloat 122);
    ("R_Score", VInt 1);
    ("F_Score", VInt 2);
    ("M_Score", VInt 5);
    ("RFM_Score", VInt 8);
    ("Segment", VStr "Potential Loyalists") ].

Definition ex_row_c : Row :=
  [ ("customer_id", VStr "c");
    ("Recency", VInt 3);
    ("Frequency", VInt 1);
    ("Monetary", VFloat 2);
    ("R_Score", VInt 3);
    ("F_Score", VInt 1);
    ("M_Score", VInt 1);
    ("RFM_Score", VInt 5);
    ("Segment", VStr "At Risk") ].

(** The order table [ex_orders] with its rows in another order. *)
Definition ex_orders_shuffled : list Order := reverse ex_orders.



(** The timestamps of [ex_orders] as text, a parser that knows them, and the
    month of the instants of the example. *)
Definition ex_stamps : list string :=
  ["1970-01-11"; "1970-01-04"; "1970-01-11"; "1970-01-08"; "1970-01-06"].

Definition ex_parse (s : string) : option Z :=
  if String.eqb s "1970-01-11" then Some (day 10)
  else if String.eqb s "1970-01-04" then Some (day 3)
  else if String.eqb s "1970-01-08" then Some (day 7)
  else if String.eqb s "1970-01-06" then Some (day 5)
  else None.

Definition ex_month (t : Z) : string := "1970-01".


Definition ex_reviews : list (string * Z) :=
  [ ("a", 5); ("b", 3); ("a", 4); ("c", 5); ("b", 1); ("a", 2) ].

(** The two best customers of [ex_orders] by price, and its two most
    positive reviewers of [ex_reviews]. *)
Definition ex_top_customers : DataFrame :=
  {| index := Some ("", Int64 [0; 1]);
     columns := [ ("customer_id", Object ["a"; "b"]);
                  ("total_spent", Float64 [Some 120; Some 17]%Q) ] |}.

Definition ex_top_reviewers : DataFrame :=
  {| index := Some ("", Int64 [0; 1]);
     columns := [ ("customer_id", Object ["a"; "c"]);
                  ("positive_reviews_count", Int64 [2; 1]) ] |}.

(** * Lemmas *)

(** ** Running on the heap *)

Lemma bind_run {A B : Type} (m : M A) (f : A → M B) (h : heap) :
  (m ≫= f) h = match m h with
               | (Ok a, h') => f a h'
               | (Err e, h') => (Err e, h')
               end.
Proof. reflexivity. Qed.

Lemma ret_run {A : Type} (a : A) (h : heap) : (mret a : M A) h = (Ok a, h).
Proof. reflexivity. Qed.

Lemma lift_run {A : Type} (r : result A) (h : heap) : lift r h = (r, h).
Proof. reflexivity. Qed.

Section heap_steps.
Context (h : heap) (l : loc) (d : DataFrame) (Hl : h !! l = Some d).
Implicit Types (cur : list DataFrame) (k : nat).

Lemma lookup_new cur k : (h ++ cur) !! (length h + k)%nat = cur !! k.
Proof. rewrite lookup_app_r by lia. f_equal. lia. Qed.

Lemma deref_old cur : deref l (h ++ cur) = (Ok d, h ++ cur).
Proof using Hl. unfold deref. by rewrite (lookup_app_l_Some _ _ _ _ Hl). Qed.

Lemma deref_new cur k d' :
  cur !! k = Some d' → deref (length h + k)%nat (h ++ cur) = (Ok d', h ++ cur).
Proof. intros Hk. unfold deref. by rewrite lookup_new, Hk. Qed.

Lemma alloc_new cur g :
  alloc g (h ++ cur) = (Ok (length h + length cur)%nat, h ++ (cur ++ [g])).
Proof. unfold alloc. by rewrite length_app, app_assoc. Qed.

Lemma update_new cur k f d' :
  cur !! k = Some d' →
  update (length h + k)%nat f (h ++ cur) = (Ok (), h ++ <[k := f d']> cur).
Proof.
  intros Hk. unfold update. rewrite lookup_new, Hk.
  by rewrite insert_app_r.
Qed.
End heap_steps.

Section heap_ops.
Context (h : heap) (l : loc) (d : DataFrame) (Hl : h !! l = Some d).
Implicit Types (cur : list DataFrame) (k : nat).

Lemma getitem_old cur name : getitem l name (h ++ cur) = (getcol d name, h ++ cur).
Proof using Hl. unfold getitem. by rewrite bind_run, (deref_old _ _ _ Hl). Qed.

Lemma getitem_new cur k d' name :
  cur !! k = Some d' →
  getitem (length h + k)%nat name (h ++ cur) = (getcol d' name, h ++ cur).
Proof. intros Hk. unfold getitem. by rewrite bind_run, (deref_new _ _ _ _ Hk). Qed.

Lemma setitem_new cur k d' name s :
  cur !! k = Some d' →
  setitem (length h + k)%nat name s (h ++ cur) = (Ok (), h ++ <[k := assign d' name s]> cur).
Proof. intros Hk. unfold setitem. by rewrite (update_new _ _ _ _ _ Hk). Qed.

Lemma rename_inplace_new cur k d' old new :
  cur !! k = Some d' →
  rename_inplace (length h + k)%nat old new (h ++ cur)
  = (Ok (), h ++ <[k := rename d' old new]> cur).
Proof. intros Hk. unfold rename_inplace. by rewrite (update_new _ _ _ _ _ Hk). Qed.

Lemma df_groupby_agg_old cur key col f :
  df_groupby_agg l key col f (h ++ cur)
  = match groupby_agg d key col f with
    | Ok g => (Ok (length h + length cur)%nat, h ++ (cur ++ [g]))
    | Err e => (Err e, h ++ cur)
    end.
Proof using Hl.
  unfold df_groupby_agg. rewrite bind_run, (deref_old _ _ _ Hl), bind_run, lift_run.
  destruct (groupby_agg d key col f); [apply alloc_new | done].
Qed.

Lemma df_reset_index_new cur k d' :
  cur !! k = Some d' →
  df_reset_index (length h + k)%nat (h ++ cur)
  = match reset_index d' with
    | Ok r => (Ok (length h + length cur)%nat, h ++ (cur ++ [r]))
    | Err e => (Err e, h ++ cur)
    end.
Proof.
  intros Hk. unfold df_reset_index.
  rewrite bind_run, (deref_new _ _ _ _ Hk), bind_run, lift_run.
  destruct (reset_index d'); [apply alloc_new | done].
Qed.

Lemma pd_merge_new cur k1 k2 a b on :
  cur !! k1 = Some a → cur !! k2 = Some b →
  pd.merge (length h + k1)%nat (length h + k2)%nat on (h ++ cur)
  = match inner_join a b on with
    | Ok m => (Ok (length h + length cur)%nat, h ++ (cur ++ [m]))
    | Err e => (Err e, h ++ cur)
    end.
Proof.
  intros Hk1 Hk2. unfold pd.merge.
  rewrite bind_run, (deref_new _ _ _ _ Hk1), bind_run, (deref_new _ _ _ _ Hk2).
  rewrite bind_run, lift_run.
  destruct (inner_join a b on); [apply alloc_new | done].
Qed.

Lemma df_apply_new cur k d' f :
  cur !! k = Some d' →
  df_apply (length h + k)%nat f (h ++ cur) = (apply_rows d' f, h ++ cur).
Proof. intros Hk. unfold df_apply. by rewrite bind_run, (deref_new _ _ _ _ Hk). Qed.
End heap_ops.

Lemma bind_ok {A B : Type} (f : A → result B) (a : A) : (Ok a ≫= f) = f a.
Proof. reflexivity. Qed.

Lemma bind_err {A B : Type} (f : A → result B) (e : exn) : (Err e ≫= f) = Err e.
Proof. reflexivity. Qed.

(** One step of the function on a heap [h ++ cur], where [cur] lists the
    objects allocated so far. *)
Ltac heap_step Hl :=
  rewrite bind_run;
  first
    [ rewrite lift_run
    | rewrite (getitem_old _ _ _ Hl)
    | rewrite (df_groupby_agg_old _ _ _ Hl)
    | erewrite getitem_new by reflexivity
    | erewrite setitem_new by reflexivity
    | erewrite rename_inplace_new by reflexivity
    | erewrite df_reset_index_new by reflexivity
    | erewrite pd_merge_new by reflexivity
    | erewrite df_apply_new by reflexivity ];
  cbv beta iota zeta;
  cbn [length app insert list_insert];
  cbv beta iota zeta.

(** Case analysis on the pandas call the run has reached; an exception ends
    the run. *)
Ltac pure_split :=
  match goal with
  | |- context [@mbind result _ _ _ _ ?x] =>
      lazymatch x with
      | mbind _ _ => fail
      | _ => destruct x eqn:?; rewrite ?bind_ok, ?bind_err; cbv beta iota zeta;
             [| by eexists; split; [reflexivity | reflexivity] ]
      end
  end.

Lemma perform_rfm_analysis_run (h : heap) (l : loc) (d : DataFrame) :
  h !! l = Some d → run_as (rfm_table d) h (perform_rfm_analysis l h).
Proof.
  intros Hl.
  rewrite <- (app_nil_r h) at 2.
  unfold rfm_table, rfm_metrics, rfm_scores, perform_rfm_analysis.
  repeat first [heap_step Hl | pure_split].
  rewrite ret_run.
  eexists; split; [reflexivity | split; reflexivity].
Qed.

(** The table a call hands back is [rfm_table] of the input frame's contents. *)
Lemma outcome_perform_rfm_analysis (h : heap) (l : loc) (d : DataFrame) :
  h !! l = Some d → outcome (perform_rfm_analysis l h) = rfm_table d.
Proof.
  intros Hl. destruct (perform_rfm_analysis_run h l d Hl) as (objs & Hh & Hr).
  destruct (perform_rfm_analysis l h) as [r h']. simpl in *. subst h'.
  destruct (rfm_table d) as [t|e].
  - destruct Hr as [-> Ht]. by rewrite lookup_new, Ht.
  - by subst r.
Qed.

(** ** Lists *)

Lemma mapR_ok {A B : Type} (f : A → result B) (g : A → B) (l : list A) :
  (∀ a, a ∈ l → f a = Ok (g a)) → mapR f l = Ok (map g l).
Proof.
  induction l as [|a l IH]; intros Hf; [done|]. simpl.
  rewrite (Hf a) by left. rewrite bind_ok, IH; [done|].
  intros b Hb. apply Hf. by right.
Qed.

Lemma mapM_id_Some {A : Type} (l : list (option A)) (k : list A) :
  mapM id l = Some k → l = map Some k.
Proof.
  intros H. apply mapM_Some in H.
  induction H as [|x y l k Hxy _ IH]; [done|]. simpl in *. by subst.
Qed.

Lemma mapM_as_int_VInt {A : Type} (g : A → Z) (l : list A) :
  mapM as_int (map (λ a, VInt (g a)) l) = Some (map g l).
Proof.
  apply mapM_Some. induction l; constructor; auto.
Qed.

Lemma dropna_map_Some {A B : Type} (g : A → B) (l : list A) :
  dropna (map (λ a, Some (g a)) l) = map g l.
Proof. unfold dropna. induction l; simpl; [done|]. by f_equal. Qed.

Lemma select_orders_of {B : Type} (g : Order → B) (c : string) (rows : list Order) :
  select (map (String.eqb c) (map customer_id rows)) (map g rows)
  = map g (orders_of c rows).
Proof.
  unfold orders_of. induction rows as [|o rows IH]; [done|]. simpl.
  rewrite filter_cons. destruct (String.eqb_spec c (customer_id o)) as [->|Hne].
  - rewrite decide_True by done. simpl. by rewrite IH.
  - rewrite decide_False by congruence. done.
Qed.

Lemma take_at_seq {A : Type} (pre l : list A) :
  take_at (seq (length pre) (length l)) (pre ++ l) = l.
Proof.
  unfold take_at. revert pre. induction l as [|a l IH]; intros pre; [done|].
  simpl. rewrite lookup_app_r by lia. rewrite Nat.sub_diag. simpl. f_equal.
  specialize (IH (pre ++ [a])). rewrite length_app, <- app_assoc in IH. simpl in IH.
  by rewrite Nat.add_1_r in IH.
Qed.

Lemma take_at_all {A : Type} (l : list A) : take_at (seq 0 (length l)) l = l.
Proof. apply (take_at_seq [] l). Qed.

(** [unique_by] with an equality test that decides Leibniz equality. *)
Section unique.
Context {A : Type} (eqb : A → A → bool).
Context (eqb_eq : ∀ a b, eqb a b = true ↔ a = b).

Lemma elem_of_unique_by (l : list A) (a : A) : a ∈ unique_by eqb l ↔ a ∈ l.
Proof using eqb_eq.
  induction l as [|b l IH]; simpl; [done|].
  rewrite !elem_of_cons, list_elem_of_In, filter_In, <- list_elem_of_In, IH.
  split.
  - intros [->|[Ha _]]; [by left | by right].
  - intros [->|Ha]; [by left|].
    destruct (eqb b a) eqn:E; [left; symmetry; by apply eqb_eq|].
    right. by split.
Qed.

Lemma NoDup_unique_by (l : list A) : NoDup (unique_by eqb l).
Proof using eqb_eq.
  induction l as [|b l IH]; simpl; constructor.
  - rewrite list_elem_of_In, filter_In. intros [_ Hb].
    by rewrite (proj2 (eqb_eq b b) eq_refl) in Hb.
  - by apply NoDup_ListNoDup, List.NoDup_filter, NoDup_ListNoDup.
Qed.

End unique.

Lemma elem_of_group_keys (ks : list string) (c : string) : c ∈ group_keys ks ↔ c ∈ ks.
Proof.
  unfold group_keys. rewrite merge_sort_Permutation.
  apply elem_of_unique_by, String.eqb_eq.
Qed.

Lemma NoDup_group_keys (ks : list string) : NoDup (group_keys ks).
Proof.
  unfold group_keys. rewrite merge_sort_Permutation.
  apply NoDup_unique_by, String.eqb_eq.
Qed.

Lemma elem_of_customers (rows : list Order) (c : string) :
  c ∈ customers rows ↔ ∃ o, o ∈ rows ∧ customer_id o = c.
Proof.
  unfold customers. rewrite elem_of_group_keys, list_elem_of_fmap.
  split; intros (o & H1 & H2); exists o; by split.
Qed.

Lemma orders_of_customer (rows : list Order) (c : string) :
  c ∈ customers rows → ∃ o, o ∈ orders_of c rows.
Proof.
  rewrite elem_of_customers. intros (o & Ho & Hc). exists o.
  unfold orders_of. by rewrite list_elem_of_filter.
Qed.

Lemma customers_nil_inv (rows : list Order) : customers rows = [] → rows = [].
Proof.
  intros HK. destruct rows as [|o rows]; [done|].
  assert (customer_id o ∈ customers (o :: rows)) as Hin
    by (apply elem_of_customers; exists o; split; [left|done]).
  rewrite HK in Hin. by apply elem_of_nil in Hin.
Qed.

(** ** The metrics part on an order table *)

Lemma foldr_max_ge (z : Z) (l : list Z) (x : Z) :
  x = z ∨ x ∈ l → x ≤ foldr Z.max z l.
Proof.
  induction l as [|y l IH]; simpl.
  - intros [->|Hx]; [lia | by apply elem_of_nil in Hx].
  - rewrite elem_of_cons. intros [Hx|[->|Hx]].
    + specialize (IH (or_introl Hx)). lia.
    + lia.
    + specialize (IH (or_intror Hx)). lia.
Qed.

Lemma max_list_opt_ge (l : list Z) (t x : Z) :
  max_list_opt l = Some t → x ∈ l → x ≤ t.
Proof.
  destruct l as [|z l]; [done|]. simpl. intros [= <-] Hx.
  apply foldr_max_ge. by apply elem_of_cons in Hx.
Qed.

Lemma max_list_opt_elem (l : list Z) (t : Z) : max_list_opt l = Some t → t ∈ l.
Proof.
  destruct l as [|z l]; [done|]. simpl. intros [= <-].
  induction l as [|y l IH]; simpl; [left|].
  destruct (Z.max_spec y (foldr Z.max z l)) as [[_ ->]|[_ ->]].
  - apply elem_of_cons in IH as [IH|IH]; [rewrite IH; left | right; by right].
  - right; left.
Qed.

Lemma latest_Some (rows : list Order) :
  rows ≠ [] → max_list_opt (map order_purchase_timestamp rows) = Some (latest rows).
Proof. unfold latest. by destruct rows. Qed.

Lemma latest_is_latest (rows : list Order) : rows ≠ [] → is_latest (latest rows) rows.
Proof.
  intros Hne. pose proof (latest_Some rows Hne) as H. split.
  - by apply max_list_opt_elem.
  - intros o Ho. apply (max_list_opt_ge _ _ _ H).
    apply list_elem_of_fmap. by exists o.
Qed.

Lemma is_latest_unique (rows : list Order) (t t' : Z) :
  is_latest t rows → is_latest t' rows → t = t'.
Proof.
  intros [H1 H2] [H1' H2'].
  apply list_elem_of_fmap in H1 as (o & -> & Ho).
  apply list_elem_of_fmap in H1' as (o' & -> & Ho').
  specialize (H2 o' Ho'). specialize (H2' o Ho). lia.
Qed.

Lemma orders_of_subseteq (rows : list Order) (c : string) (o : Order) :
  o ∈ orders_of c rows → o ∈ rows.
Proof. unfold orders_of. rewrite list_elem_of_filter. tauto. Qed.

Lemma series_max_timestamps (rows : list Order) :
  series_max (Datetime64 (map (λ o, Some (order_purchase_timestamp o)) rows))
  = Ok (from_option VTime VNaT (max_list_opt (map order_purchase_timestamp rows))).
Proof. simpl. by rewrite dropna_map_Some. Qed.

Lemma getcol_customer_id (rows : list Order) :
  getcol (orders_frame rows) "customer_id" = Ok (Object (map customer_id rows)).
Proof. reflexivity. Qed.

Lemma getcol_order_id (rows : list Order) :
  getcol (orders_frame rows) "order_id" = Ok (Object (map order_id rows)).
Proof. reflexivity. Qed.

Lemma getcol_timestamp (rows : list Order) :
  getcol (orders_frame rows) "order_purchase_timestamp"
  = Ok (Datetime64 (map (λ o, Some (order_purchase_timestamp o)) rows)).
Proof. reflexivity. Qed.

Lemma getcol_total_spent (rows : list Order) :
  getcol (orders_frame rows) "total_spent"
  = Ok (Float64 (map (λ o, Some (total_spent o)) rows)).
Proof. reflexivity. Qed.

Lemma groupby_recency (rows : list Order) :
  groupby_agg (orders_frame rows) "customer_id" "order_purchase_timestamp"
    (λ x, m ← series_max x;
          timedelta_days
            (from_option VTime VNaT (max_list_opt (map order_purchase_timestamp rows))) m)
  = Ok {| index := Some ("customer_id", Object (customers rows));
          columns := [("order_purchase_timestamp", Int64 (map (recency rows) (customers rows)))] |}.
Proof.
  unfold groupby_agg. rewrite getcol_customer_id, bind_ok, getcol_timestamp, bind_ok.
  rewrite (mapR_ok _ (λ c, VInt (recency rows c))).
  - rewrite bind_ok. unfold series_of_values. by rewrite mapM_as_int_VInt.
  - intros c Hc. simpl series_select. rewrite select_orders_of, series_max_timestamps, bind_ok.
    destruct (orders_of_customer rows c Hc) as [o Ho].
    assert (orders_of c rows ≠ []) as Hne by (intros E; rewrite E in Ho; by apply elem_of_nil in Ho).
    assert (rows ≠ []) as Hne'
      by (intros E; apply orders_of_subseteq in Ho; rewrite E in Ho; by apply elem_of_nil in Ho).
    by rewrite (latest_Some _ Hne), (latest_Some _ Hne').
Qed.

Lemma groupby_frequency (rows : list Order) :
  groupby_agg (orders_frame rows) "customer_id" "order_id" nunique
  = Ok {| index := Some ("customer_id", Object (customers rows));
          columns := [("order_id", Int64 (map (frequency rows) (customers rows)))] |}.
Proof.
  unfold groupby_agg. rewrite getcol_customer_id, bind_ok, getcol_order_id, bind_ok.
  rewrite (mapR_ok _ (λ c, VInt (frequency rows c))).
  - rewrite bind_ok. unfold series_of_values. by rewrite mapM_as_int_VInt.
  - intros c _. simpl series_select. by rewrite select_orders_of.
Qed.

Lemma series_of_values_VFloat {A : Type} (g : A → Q) (l : list A) :
  l ≠ [] →
  series_of_values (map (λ a, VFloat (g a)) l) = Ok (Float64 (map (λ a, Some (g a)) l)).
Proof.
  intros Hne. destruct l as [|a l]; [done|]. unfold series_of_values.
  rewrite (mapR_ok _ (λ v, match v with VFloat q => Some q | _ => None end)).
  - simpl. by rewrite map_map.
  - intros v Hv. apply list_elem_of_fmap in Hv as (b & -> & _). done.
Qed.

Lemma groupby_monetary (rows : list Order) :
  rows ≠ [] →
  groupby_agg (orders_frame rows) "customer_id" "total_spent" series_sum
  = Ok {| index := Some ("customer_id", Object (customers rows));
          columns := [("total_spent",
                       Float64 (map (λ c, Some (monetary rows c)) (customers rows)))] |}.
Proof.
  intros Hne.
  unfold groupby_agg. rewrite getcol_customer_id, bind_ok, getcol_total_spent, bind_ok.
  rewrite (mapR_ok _ (λ c, VFloat (monetary rows c))).
  - rewrite bind_ok, series_of_values_VFloat; [done|].
    intros E. by apply customers_nil_inv in E.
  - intros c _. simpl series_select. rewrite select_orders_of. simpl.
    by rewrite dropna_map_Some.
Qed.

(** Joining a duplicate-free key column with itself pairs each row with
    itself. *)
Lemma join_row_absent (a : string) (i k : nat) (rks : list string) :
  a ∉ rks →
  omap (λ '(j, b), if String.eqb a b then Some (i, j) else None)
       (imap (λ j, pair (k + j)%nat) rks) = [].
Proof.
  revert k. induction rks as [|b rks IH]; intros k Ha; [done|].
  apply not_elem_of_cons in Ha as [Hab Ha]. simpl.
  destruct (String.eqb_spec a b) as [->|_]; [done|].
  rewrite <- (IH (S k) Ha). f_equal. apply imap_ext. intros j x _. simpl.
  f_equal. lia.
Qed.

Lemma join_row_present (a : string) (i j k : nat) (rks : list string) :
  NoDup rks → rks !! j = Some a →
  omap (λ '(j, b), if String.eqb a b then Some (i, j) else None)
       (imap (λ j, pair (k + j)%nat) rks) = [(i, (k + j)%nat)].
Proof.
  revert j k. induction rks as [|b rks IH]; intros j k Hnd Hj; [done|].
  apply NoDup_cons in Hnd as [Hb Hnd]. destruct j as [|j]; simpl in *.
  - injection Hj as ->. rewrite String.eqb_refl. f_equal.
    rewrite <- (join_row_absent a i (S k) rks Hb). f_equal. apply imap_ext.
    intros j x _. simpl. f_equal. lia.
  - destruct (String.eqb_spec a b) as [->|_].
    + exfalso. apply Hb. by eapply list_elem_of_lookup_2.
    + replace (k + S j)%nat with (S k + j)%nat by lia.
      rewrite <- (IH j (S k) Hnd Hj). f_equal. apply imap_ext.
      intros j' x _. simpl. f_equal. lia.
Qed.

Lemma join_pairs_self_aux (pre l : list string) :
  NoDup (pre ++ l) →
  flat_map (λ '(i, a),
      omap (λ '(j, b), if String.eqb a b then Some (i, j) else None)
           (imap pair (pre ++ l)))
    (imap (λ i, pair (length pre + i)%nat) l)
  = map (λ i, (i, i)) (seq (length pre) (length l)).
Proof.
  revert pre. induction l as [|a l IH]; intros pre Hnd; [done|]. simpl.
  rewrite (imap_ext pair (λ j, pair (0 + j)%nat) (pre ++ a :: l)) by done.
  rewrite (join_row_present a _ (length pre) 0 _ Hnd).
  2:{ rewrite lookup_app_r by lia. by rewrite Nat.sub_diag. }
  simpl. rewrite Nat.add_0_r. f_equal.
  specialize (IH (pre ++ [a])). rewrite <- app_assoc, length_app in IH. simpl in IH.
  rewrite Nat.add_1_r in IH. rewrite <- IH by done.
  f_equal. apply imap_ext. intros j' x _. simpl. f_equal. lia.
Qed.

Lemma join_pairs_self (K : list string) :
  NoDup K → join_pairs K K = map (λ i, (i, i)) (seq 0 (length K)).
Proof. intros Hnd. apply (join_pairs_self_aux [] K Hnd). Qed.

Lemma join_pairs_self_fst (K : list string) :
  NoDup K → (join_pairs K K).*1 = seq 0 (length K).
Proof.
  intros Hnd. rewrite (join_pairs_self K Hnd), <- list_fmap_compose. apply list_fmap_id.
Qed.

Lemma join_pairs_self_snd (K : list string) :
  NoDup K → (join_pairs K K).*2 = seq 0 (length K).
Proof.
  intros Hnd. rewrite (join_pairs_self K Hnd), <- list_fmap_compose. apply list_fmap_id.
Qed.

Lemma series_take_all (s : Series) (n : nat) :
  series_len s = n → series_take (seq 0 n) s = s.
Proof. intros <-. destruct s; simpl; by rewrite take_at_all. Qed.

Section merges.
Context (K : list string) (HK : NoDup K).
Context (rec frq mon : Series).
Context (Hrec : series_len rec = length K).
Context (Hfrq : series_len frq = length K).
Context (Hmon : series_len mon = length K).

Lemma merge_recency_frequency :
  inner_join {| index := None; columns := [("customer_id", Object K); ("Recency", rec)] |}
        {| index := None; columns := [("customer_id", Object K); ("Frequency", frq)] |}
        "customer_id"
  = Ok {| index := None;
          columns := [("customer_id", Object K); ("Recency", rec); ("Frequency", frq)] |}.
Proof using HK Hrec Hfrq.
  unfold inner_join. cbn.
  rewrite (join_pairs_self_fst K HK), (join_pairs_self_snd K HK).
  unfold suffixed. cbn.
  by rewrite take_at_all, (series_take_all rec), (series_take_all frq).
Qed.

Lemma merge_rfm_monetary :
  inner_join {| index := None;
           columns := [("customer_id", Object K); ("Recency", rec); ("Frequency", frq)] |}
        {| index := None; columns := [("customer_id", Object K); ("Monetary", mon)] |}
        "customer_id"
  = Ok {| index := None;
          columns := [("customer_id", Object K); ("Recency", rec); ("Frequency", frq);
                      ("Monetary", mon)] |}.
Proof using HK Hrec Hfrq Hmon.
  unfold inner_join. cbn.
  rewrite (join_pairs_self_fst K HK), (join_pairs_self_snd K HK).
  unfold suffixed. cbn.
  by rewrite take_at_all, (series_take_all rec), (series_take_all frq),
    (series_take_all mon).
Qed.
End merges.

(** On a non-empty order table the metrics part returns one row per
    customer, with the three metrics of the customer. *)
Lemma rfm_metrics_orders (rows : list Order) :
  rows ≠ [] → rfm_metrics (orders_frame rows) = Ok (metrics_frame rows).
Proof.
  intros Hne. unfold rfm_metrics.
  rewrite getcol_timestamp, bind_ok, series_max_timestamps, bind_ok.
  rewrite groupby_recency, bind_ok.
  rewrite groupby_frequency, groupby_monetary by done.
  cbn -[inner_join]. unfold rename. cbn -[inner_join].
  rewrite merge_recency_frequency, bind_ok, merge_rfm_monetary;
    simpl; rewrite ?length_map; try done; apply NoDup_group_keys.
Qed.

(** ** Binning *)

Lemma Qle_bool_inject_Z (a b : Z) : Qle_bool (inject_Z a) (inject_Z b) = (a <=? b).
Proof. unfold Qle_bool. simpl. by rewrite !Z.mul_1_r. Qed.

Lemma Qltb_inject_Z (a b : Z) : Qltb (inject_Z a) (inject_Z b) = (a <? b).
Proof. unfold Qltb. rewrite Qle_bool_inject_Z. by rewrite Z.ltb_antisym. Qed.

(** A binning that succeeds gives every datum a label of the list or NaN. *)
Lemma _bins_to_cuts_inv x bins labels include_lowest duplicates fac :
  pd._bins_to_cuts x bins labels include_lowest duplicates = Ok fac →
  length fac = length x ∧
  Forall (λ v, ∀ z, v = Some z → z ∈ labels) fac.
Proof.
  unfold pd._bins_to_cuts. intros H.
  destruct (if _ && _ then _ else _) as [bins'|e]; [|done].
  rewrite bind_ok in H.
  destruct (negb (no_duplicates labels)); [done|].
  destruct (negb _); [done|]. injection H as <-. split.
  - by rewrite !length_map.
  - apply Forall_forall. intros v Hv z ->.
    apply list_elem_of_fmap in Hv as (id & Hz & _).
    destruct id as [i|]; [|done]. simpl in Hz. symmetry in Hz.
    by eapply list_elem_of_lookup_2.
Qed.

Lemma qcut_inv (s : Series) (q : nat) (labels : list Z) duplicates (r : Series) :
  pd.qcut s q labels duplicates = Ok r →
  ∃ fac, r = Category fac ∧ length fac = series_len s ∧
         Forall (λ v, ∀ z, v = Some z → z ∈ labels) fac.
Proof.
  unfold pd.qcut. intros H.
  destruct (to_numeric s) as [xs|e] eqn:Hxs; [|done]. rewrite bind_ok in H.
  destruct (pd._bins_to_cuts _ _ _ _ _) as [fac|e] eqn:Hfac; [|done].
  injection H as <-. apply _bins_to_cuts_inv in Hfac as [Hlen Hall].
  exists fac. split_and!; [done| |done]. rewrite Hlen.
  destruct s; simpl in Hxs; try done; injection Hxs as <-; by rewrite ?length_map.
Qed.

(** The frequency score has the fixed boundaries. *)
Lemma cut_frequency_one (z : Z) :
  (i ← bin_of [Fin 0; Fin 1; Fin 2; Fin 3; Fin 4; Inf] false (Some (inject_Z z));
   [1; 2; 3; 4; 5] !! i) = f_score_fixed z.
Proof.
  unfold bin_of, f_score_fixed. cbn -[Qltb inject_Z Z.eqb Z.leb].
  change 0%Q with (inject_Z 0). change 1%Q with (inject_Z 1).
  change 2%Q with (inject_Z 2). change 3%Q with (inject_Z 3).
  change 4%Q with (inject_Z 4). rewrite !Qltb_inject_Z.
  destruct (Z.ltb_spec 0 z); [|repeat case_match; first [done | lia]].
  destruct (Z.ltb_spec 1 z); [|repeat case_match; first [done | lia]].
  destruct (Z.ltb_spec 2 z); [|repeat case_match; first [done | lia]].
  destruct (Z.ltb_spec 3 z); [|repeat case_match; first [done | lia]].
  destruct (Z.ltb_spec 4 z); repeat case_match; first [done | lia].
Qed.

Lemma cut_frequency (zs : list Z) :
  pd.cut (Int64 zs) [Fin 0; Fin 1; Fin 2; Fin 3; Fin 4; Inf] [1; 2; 3; 4; 5]
  = Ok (Category (map f_score_fixed zs)).
Proof.
  set (bins := [Fin 0; Fin 1; Fin 2; Fin 3; Fin 4; Inf]).
  set (labels := [1; 2; 3; 4; 5]).
  assert (monotonic_increasing bins = true) as Hmono by (vm_compute; reflexivity).
  assert (unique_by edge_eqb bins = bins) as Huniq by (vm_compute; reflexivity).
  assert (no_duplicates labels = true) as Hlab by (vm_compute; reflexivity).
  unfold pd.cut, pd._bins_to_cuts. cbn [to_numeric]. rewrite bind_ok, Hmono, Huniq, Hlab.
  cbn -[bin_of inject_Z].
  do 2 f_equal. rewrite !map_map. apply map_ext. intros z. apply cut_frequency_one.
Qed.

Lemma frequency_pos (rows : list Order) (c : string) :
  c ∈ customers rows → 1 ≤ frequency rows c.
Proof.
  intros Hc. destruct (orders_of_customer rows c Hc) as [o Ho].
  unfold frequency. destruct (orders_of c rows) as [|o' l]; [by apply elem_of_nil in Ho|].
  simpl. lia.
Qed.

Lemma f_score_fixed_pos (z : Z) : 1 ≤ z → f_score_fixed z = Some (z `min` 5).
Proof. intros Hz. unfold f_score_fixed. repeat case_match; f_equal; lia. Qed.

Lemma f_scores_customers (rows : list Order) :
  map f_score_fixed (map (frequency rows) (customers rows))
  = map Some (map (λ c, frequency rows c `min` 5) (customers rows)).
Proof.
  rewrite !map_map. apply map_ext_in. intros c Hc.
  apply f_score_fixed_pos, frequency_pos. by apply list_elem_of_In.
Qed.

Lemma astype_int_Some (zs : list Z) : astype_int (Category (map Some zs)) = Ok (Int64 zs).
Proof.
  simpl. assert (mapM id (map Some zs) = Some zs) as ->; [|done].
  apply mapM_Some. induction zs; constructor; auto.
Qed.

Lemma astype_int_inv (l : list (option Z)) (s : Series) :
  astype_int (Category l) = Ok s → ∃ zs, l = map Some zs ∧ s = Int64 zs.
Proof.
  simpl. destruct (mapM id l) as [zs|] eqn:H; [|done]. intros [= <-].
  exists zs. split; [by apply mapM_id_Some | done].
Qed.

(** ** Segments *)

Lemma segment_customer_score (row : Row) (z : Z) :
  row_get row "RFM_Score" = Ok (VInt z) →
  segment_customer row = Ok (VStr (segment_of_score z)).
Proof.
  intros H. unfold segment_customer, segment_of_score. rewrite H. simpl.
  destruct (12 <=? z); [done|]. simpl.
  destruct (9 <=? z), (z <? 12); simpl; try done;
    destruct (6 <=? z), (z <? 9); simpl; try done;
    destruct (3 <=? z), (z <? 6); simpl; done.
Qed.

(** ** Rows of a frame *)

Lemma map_seq_lookup {A B : Type} (h : nat → B) (k : A → B) (l : list A) :
  (∀ i x, l !! i = Some x → h i = k x) → map h (seq 0 (length l)) = map k l.
Proof.
  induction l as [|x l IH] using rev_ind; intros H; [done|].
  rewrite length_app, seq_app, !map_app. simpl. f_equal.
  - apply IH. intros i y Hi. apply H. by apply lookup_app_l_Some.
  - f_equal. apply H. rewrite lookup_app_r by lia. by rewrite Nat.sub_diag.
Qed.

Lemma elem_of_iterrows (d : DataFrame) (row : Row) :
  row ∈ iterrows d ↔
  ∃ i, (i < nrows d)%nat ∧ row = map (λ c, (c.1, series_get c.2 i)) (columns d).
Proof.
  unfold iterrows. rewrite list_elem_of_fmap. split.
  - intros (i & -> & Hi). exists i. split; [|done].
    apply elem_of_seq in Hi. lia.
  - intros (i & Hi & ->). exists i. split; [done|]. apply elem_of_seq. lia.
Qed.

Lemma series_get_Int64 (l : list Z) (i : nat) (z : Z) :
  l !! i = Some z → series_get (Int64 l) i = VInt z.
Proof. simpl. by intros ->. Qed.

Lemma series_get_Object (l : list string) (i : nat) (s : string) :
  l !! i = Some s → series_get (Object l) i = VStr s.
Proof. simpl. by intros ->. Qed.

Lemma series_get_Category (l : list Z) (i : nat) (z : Z) :
  l !! i = Some z → series_get (Category (map Some l)) i = VInt z.
Proof. simpl. intros H. change (map Some l) with (Some <$> l). by rewrite list_lookup_fmap, H. Qed.

Lemma series_get_Float64 (l : list Q) (i : nat) (q : Q) :
  l !! i = Some q → series_get (Float64 (map Some l)) i = VFloat q.
Proof. simpl. intros H. change (map Some l) with (Some <$> l). by rewrite list_lookup_fmap, H. Qed.

Lemma row_get_iterrows (cols : list (string * Series)) (i : nat) (name : string) :
  row_get (map (λ c, (c.1, series_get c.2 i)) cols) name
  = match lookup_col name cols with
    | Some s => Ok (series_get s i)
    | None => Err (KeyError name)
    end.
Proof.
  induction cols as [|[n s] cols IH]; [done|]. simpl.
  destruct (String.eqb n name); [done | apply IH].
Qed.

Lemma series_of_values_VStr (l : list string) :
  l ≠ [] → series_of_values (map VStr l) = Ok (Object l).
Proof.
  intros Hne. destruct l as [|s l]; [done|]. unfold series_of_values.
  assert (mapM as_str (map VStr (s :: l)) = Some (s :: l)) as ->.
  { apply mapM_Some. generalize (s :: l). intros l'. induction l'; constructor; auto. }
  done.
Qed.

(** Row by row, the segment is the one the table gives for the row's score. *)
Lemma apply_rows_segment (d : DataFrame) (total : list Z) :
  getcol d "RFM_Score" = Ok (Int64 total) → nrows d = length total → total ≠ [] →
  apply_rows d segment_customer = Ok (Object (map segment_of_score total)).
Proof.
  intros Hcol Hn Hne. unfold apply_rows.
  unfold getcol in Hcol. destruct (lookup_col "RFM_Score" (columns d)) as [s|] eqn:Hs; [|done].
  injection Hcol as ->.
  rewrite (mapR_ok _ (λ row, match row_get row "RFM_Score" with
                              | Ok (VInt z) => VStr (segment_of_score z)
                              | _ => VNaN
                              end)).
  - rewrite bind_ok. unfold iterrows. rewrite map_map, Hn.
    rewrite (map_seq_lookup _ (λ z, VStr (segment_of_score z)) total).
    + rewrite <- (map_map segment_of_score VStr). apply series_of_values_VStr.
      by destruct total.
    + intros i z Hi. by rewrite row_get_iterrows, Hs, (series_get_Int64 _ _ _ Hi).
  - intros row Hrow. apply elem_of_iterrows in Hrow as (i & Hi & ->).
    rewrite Hn in Hi. apply lookup_lt_is_Some_2 in Hi as [z Hz].
    rewrite (segment_customer_score _ z);
      by rewrite row_get_iterrows, Hs, (series_get_Int64 _ _ _ Hz).
Qed.

Ltac frame_simpl :=
  cbn [getcol assign columns index lookup_col assign_col String.eqb Ascii.eqb Bool.eqb];
  rewrite ?bind_ok.

(** The scoring part on the metrics of a non-empty order table: when it
    returns, it has scored every customer with labels of the two lists. *)
Lemma rfm_scores_metrics_inv (rows : list Order) (t : DataFrame) :
  rows ≠ [] → rfm_scores (metrics_frame rows) = Ok t →
  ∃ rs ms,
    length rs = length (customers rows) ∧ length ms = length (customers rows) ∧
    Forall (λ z, z ∈ [5; 4; 3; 2; 1]) rs ∧ Forall (λ z, z ∈ [1; 2; 3; 4; 5]) ms ∧
    t = scored_frame rows rs ms.
Proof.
  intros Hne. unfold rfm_scores, metrics_frame. frame_simpl.
  destruct (pd.qcut (Int64 _) _ _ _) as [r|] eqn:Hr; [|by rewrite bind_err].
  apply qcut_inv in Hr as (rc & -> & Hrlen & Hrall). frame_simpl.
  rewrite cut_frequency, f_scores_customers. frame_simpl.
  destruct (pd.qcut (Float64 _) _ _ _) as [m|] eqn:Hm; [|by rewrite bind_err].
  apply qcut_inv in Hm as (mc & -> & Hmlen & Hmall). frame_simpl.
  destruct (astype_int (Category rc)) as [r|] eqn:Hr; [|by rewrite bind_err].
  apply astype_int_inv in Hr as (rs & -> & ->). frame_simpl.
  rewrite astype_int_Some. frame_simpl. cbn [series_add]. frame_simpl.
  destruct (astype_int (Category mc)) as [m|] eqn:Hm; [|by rewrite bind_err].
  apply astype_int_inv in Hm as (ms & -> & ->).
  frame_simpl. cbn [series_add]. frame_simpl.
  simpl in Hrlen, Hmlen. rewrite !length_map in Hrlen, Hmlen.
  assert (customers rows ≠ []) as HK by (intros E; by apply customers_nil_inv in E).
  erewrite apply_rows_segment; [| reflexivity | |].
  - rewrite bind_ok. intros [= <-]. exists rs, ms. split_and!; try done.
    + apply Forall_forall. intros z Hz. rewrite Forall_forall in Hrall.
      apply (Hrall (Some z)); [|done]. apply list_elem_of_fmap. by exists z.
    + apply Forall_forall. intros z Hz. rewrite Forall_forall in Hmall.
      apply (Hmall (Some z)); [|done]. apply list_elem_of_fmap. by exists z.
  - unfold nrows. frame_simpl. cbn [series_len].
    rewrite !length_zip_with, !length_map. lia.
  - intros E. apply (f_equal length) in E. simpl in E.
    rewrite !length_zip_with, !length_map in E.
    destruct (customers rows); [done|]. simpl in *. lia.
Qed.

Lemma rfm_table_empty :
  rfm_table (orders_frame [])
  = Err (ValueError "Bin labels must be one fewer than the number of bin edges").
Proof. vm_compute. reflexivity. Qed.

Lemma rfm_table_orders (rows : list Order) :
  rows ≠ [] → rfm_table (orders_frame rows) = rfm_scores (metrics_frame rows).
Proof. intros Hne. unfold rfm_table. by rewrite rfm_metrics_orders, bind_ok. Qed.

Lemma scored_frame_row (rows : list Order) (rs ms : list Z) (i : nat) (c : string) (r m : Z) :
  customers rows !! i = Some c → rs !! i = Some r → ms !! i = Some m →
  map (λ col, (col.1, series_get col.2 i)) (columns (scored_frame rows rs ms))
  = scored_row rows c r m.
Proof.
  intros Hc Hr Hm. unfold scored_frame, scored_row. cbn [columns map fst snd].
  assert (∀ {A} (g : string → A), map g (customers rows) !! i = Some (g c)) as Hg.
  { intros A g. change (map g (customers rows)) with (g <$> customers rows).
    by rewrite list_lookup_fmap, Hc. }
  pose proof (Hg _ (λ c, frequency rows c `min` 5)) as Hf.
  assert (zip_with Z.add (zip_with Z.add rs (map (λ c, frequency rows c `min` 5)
            (customers rows))) ms !! i = Some (r + (frequency rows c `min` 5) + m)) as Ht.
  { apply lookup_zip_with_Some. eexists _, _. split_and!; [done| |done].
    apply lookup_zip_with_Some. eexists _, _. by split_and!. }
  rewrite (series_get_Object _ _ _ Hc).
  rewrite (series_get_Int64 _ _ _ (Hg _ (recency rows))).
  rewrite (series_get_Int64 _ _ _ (Hg _ (frequency rows))).
  rewrite <- (map_map (monetary rows) Some).
  rewrite (series_get_Float64 _ _ _ (Hg _ (monetary rows))).
  rewrite (series_get_Category _ _ _ Hr), (series_get_Category _ _ _ Hf).
  rewrite (series_get_Category _ _ _ Hm), (series_get_Int64 _ _ _ Ht).
  assert (map segment_of_score (zip_with Z.add (zip_with Z.add rs
            (map (λ c, frequency rows c `min` 5) (customers rows))) ms) !! i
          = Some (segment_of_score (r + (frequency rows c `min` 5) + m))) as Hs.
  { change (map segment_of_score ?l) with (segment_of_score <$> l).
    by rewrite list_lookup_fmap, Ht. }
  by rewrite (series_get_Object _ _ _ Hs).
Qed.

(** The rows of the table the analysis returns on an order table: one per
    customer, made of the customer's metrics and scores. *)
Lemma rfm_table_rows (rows : list Order) (t : DataFrame) :
  rfm_table (orders_frame rows) = Ok t →
  rows ≠ [] ∧
  (∀ row, row ∈ iterrows t →
     ∃ c r m, c ∈ customers rows ∧ r ∈ [5; 4; 3; 2; 1] ∧ m ∈ [1; 2; 3; 4; 5] ∧
              row = scored_row rows c r m) ∧
  (∀ c, c ∈ customers rows → ∃ r m, scored_row rows c r m ∈ iterrows t).
Proof.
  intros Ht.
  assert (rows ≠ []) as Hne by (intros ->; by rewrite rfm_table_empty in Ht).
  split; [done|]. rewrite (rfm_table_orders rows Hne) in Ht.
  apply rfm_scores_metrics_inv in Ht as (rs & ms & Hrs & Hms & Hrall & Hmall & ->); [|done].
  assert (nrows (scored_frame rows rs ms) = length (customers rows)) as Hn by done.
  split.
  - intros row Hrow. apply elem_of_iterrows in Hrow as (i & Hi & ->). rewrite Hn in Hi.
    destruct (lookup_lt_is_Some_2 (customers rows) i Hi) as [c Hc].
    destruct (lookup_lt_is_Some_2 rs i) as [r Hr]; [lia|].
    destruct (lookup_lt_is_Some_2 ms i) as [m Hm]; [lia|].
    exists c, r, m. split_and!.
    + by eapply list_elem_of_lookup_2.
    + rewrite Forall_forall in Hrall. apply Hrall. by eapply list_elem_of_lookup_2.
    + rewrite Forall_forall in Hmall. apply Hmall. by eapply list_elem_of_lookup_2.
    + by apply scored_frame_row.
  - intros c Hc. apply list_elem_of_lookup_1 in Hc as [i Hc].
    pose proof (lookup_lt_Some _ _ _ Hc) as Hi.
    destruct (lookup_lt_is_Some_2 rs i) as [r Hr]; [lia|].
    destruct (lookup_lt_is_Some_2 ms i) as [m Hm]; [lia|].
    exists r, m. apply elem_of_iterrows. exists i. split; [by rewrite Hn|].
    symmetry. by apply scored_frame_row.
Qed.

(** The same, for a call on the heap. *)
Lemma perform_rfm_analysis_rows (h : heap) (l : loc) (rows : list Order) (t : DataFrame) :
  h !! l = Some (orders_frame rows) →
  outcome (perform_rfm_analysis l h) = Ok t →
  rows ≠ [] ∧
  (∀ row, row ∈ iterrows t →
     ∃ c r m, c ∈ customers rows ∧ r ∈ [5; 4; 3; 2; 1] ∧ m ∈ [1; 2; 3; 4; 5] ∧
              row = scored_row rows c r m) ∧
  (∀ c, c ∈ customers rows → ∃ r m, scored_row rows c r m ∈ iterrows t).
Proof.
  intros Hl Ht. rewrite (outcome_perform_rfm_analysis h l _ Hl) in Ht.
  by apply rfm_table_rows.
Qed.

(** ** Recency and frequency of a customer *)

Lemma ns_per_day_pos : 0 < ns_per_day.
Proof. done. Qed.

Lemma orders_of_ne (rows : list Order) (c : string) :
  c ∈ customers rows → orders_of c rows ≠ [].
Proof.
  intros Hc E. destruct (orders_of_customer rows c Hc) as [o Ho].
  rewrite E in Ho. by apply elem_of_nil in Ho.
Qed.

Lemma latest_orders_of_le (rows : list Order) (c : string) :
  c ∈ customers rows → latest (orders_of c rows) ≤ latest rows.
Proof.
  intros Hc. pose proof (orders_of_ne rows c Hc) as Hne.
  destruct (latest_is_latest _ Hne) as [Hin _].
  apply list_elem_of_fmap in Hin as (o & -> & Ho).
  apply orders_of_subseteq in Ho.
  assert (rows ≠ []) as Hne' by (intros E; rewrite E in Ho; by apply elem_of_nil in Ho).
  by apply (latest_is_latest _ Hne').
Qed.

Lemma recency_nonneg (rows : list Order) (c : string) :
  c ∈ customers rows → 0 ≤ recency rows c.
Proof.
  intros Hc. unfold recency. apply Z.div_pos; [|apply ns_per_day_pos].
  pose proof (latest_orders_of_le rows c Hc). lia.
Qed.

Lemma nunique_size (l : list string) :
  length (unique_by String.eqb l) = size (list_to_set l : gset string).
Proof.
  rewrite <- (size_list_to_set (C:=gset string) (unique_by String.eqb l))
    by apply NoDup_unique_by, String.eqb_eq.
  f_equal. apply set_eq. intros x.
  by rewrite !elem_of_list_to_set, (elem_of_unique_by _ String.eqb_eq).
Qed.

Lemma frequency_distinct_orders (rows : list Order) (c : string) :
  frequency rows c = Z.of_nat (size (distinct_orders rows c)).
Proof. unfold frequency, distinct_orders. by rewrite nunique_size. Qed.

Lemma frequency_le_rows (rows : list Order) (c : string) :
  frequency rows c ≤ Z.of_nat (length (orders_of c rows)).
Proof.
  unfold frequency. apply inj_le. rewrite <- (length_map order_id).
  generalize (map order_id (orders_of c rows)). intros l.
  induction l as [|a l IH]; simpl; [lia|].
  pose proof (List.filter_length_le (λ b, negb (String.eqb a b)) (unique_by String.eqb l)).
  lia.
Qed.

(** ** Quantile bins of a column of equal values *)

Lemma filter_none {A : Type} (f : A → bool) (l : list A) :
  (∀ x, x ∈ l → f x = false) → List.filter f l = [].
Proof.
  induction l as [|a l IH]; intros H; [done|]. simpl.
  rewrite (H a) by left. apply IH. intros x Hx. apply H. by right.
Qed.

Lemma unique_by_subseteq {A : Type} (eqb : A → A → bool) (l : list A) (x : A) :
  x ∈ unique_by eqb l → x ∈ l.
Proof.
  revert x. induction l as [|a l IH]; intros x; simpl; [done|].
  rewrite !elem_of_cons, list_elem_of_In, filter_In, <- list_elem_of_In.
  intros [->|[Hx _]]; [by left | right; by apply IH].
Qed.

Lemma unique_by_all_eq {A : Type} (eqb : A → A → bool) (a : A) (l : list A) :
  (∀ b, b ∈ l → eqb a b = true) → unique_by eqb (a :: l) = [a].
Proof.
  intros H. simpl. f_equal. apply filter_none. intros x Hx.
  apply unique_by_subseteq in Hx. by rewrite (H x Hx).
Qed.

Lemma nth_elem_of {A : Type} (l : list A) (i : nat) (d : A) : d ∈ l → nth i l d ∈ l.
Proof.
  intros Hd. destruct (nth_in_or_default i l d) as [H| ->]; [|done].
  by apply list_elem_of_In.
Qed.

(** Every quantile of a column of equal values is that value. *)
Lemma quantile_equal_values (xs : list Q) (k n : nat) (q : Q) :
  xs ≠ [] → (∀ x, x ∈ xs → (x == q)%Q) →
  ∃ e, quantile xs k n = Fin e ∧ (e == q)%Q.
Proof.
  intros Hne Hall. unfold quantile.
  assert (sort_values xs ≡ₚ xs) as Hperm by apply merge_sort_Permutation.
  destruct (sort_values xs) as [|v0 v] eqn:Hv.
  { by apply Permutation_nil in Hperm. }
  assert (∀ i, (nth i (v0 :: v) v0 == q)%Q) as Hnth.
  { intros i. apply Hall. rewrite <- Hperm. apply nth_elem_of. left. }
  eexists. split; [reflexivity|]. rewrite !Hnth. ring.
Qed.

(** With equal values the quantile edges coincide, one edge is left after
    the duplicates are dropped, and five labels do not fit. *)
Lemma qcut_equal_values (s : Series) (xs : list (option Q)) (q : Q) (labels : list Z) :
  to_numeric s = Ok xs → dropna xs ≠ [] → (∀ x, x ∈ dropna xs → (x == q)%Q) →
  length labels = 5%nat → no_duplicates labels = true →
  pd.qcut s 5 labels dup_drop
  = Err (ValueError "Bin labels must be one fewer than the number of bin edges").
Proof.
  intros Hxs Hne Hall Hlen Hdup. unfold pd.qcut. rewrite Hxs, bind_ok.
  pose proof (λ k, quantile_equal_values (dropna xs) k 5 q Hne Hall) as Hq.
  cbn [seq map]. unfold pd._bins_to_cuts.
  rewrite unique_by_all_eq.
  - cbn [length Nat.ltb Nat.leb Nat.eqb andb negb]. rewrite bind_ok, Hdup, Hlen. done.
  - intros b Hb. destruct (Hq 0%nat) as (e0 & -> & He0).
    assert (∃ e, b = Fin e ∧ (e == q)%Q) as (e & -> & He).
    { repeat (apply elem_of_cons in Hb as [->|Hb]; [apply Hq|]). by apply elem_of_nil in Hb. }
    simpl. apply Qeq_bool_iff. by rewrite He0, He.
Qed.

(** [pd.qcut] with [duplicates='drop'] and distinct labels has one way to
    fail on a numeric column. *)
Lemma qcut_recency_err (zs : list Z) (e : exn) :
  pd.qcut (Int64 zs) 5 [5; 4; 3; 2; 1] dup_drop = Err e →
  e = ValueError "Bin labels must be one fewer than the number of bin edges".
Proof.
  unfold pd.qcut, pd._bins_to_cuts. cbn [to_numeric]. rewrite bind_ok.
  destruct (_ && _); rewrite bind_ok;
    change (no_duplicates [5; 4; 3; 2; 1]) with true; cbn [negb];
    (destruct (negb _); [by intros [= <-] | by rewrite bind_ok]).
Qed.

(** ** The scenario of the specification *)

Example scenario_table :
  outcome (perform_rfm_analysis 0%nat [orders_frame ex_scenario])
  = Ok {| index := None;
          columns :=
            [ ("customer_id", Object ["A"; "B"; "C"]);
              ("Recency", Int64 [0; 30; 60]);
              ("Frequency", Int64 [1; 5; 2]);
              ("Monetary", Float64 [Some 100; Some 250; Some 20]%Q);
              ("R_Score", Category [Some 5; Some 3; Some 1]);
              ("F_Score", Category [Some 1; Some 5; Some 2]);
              ("M_Score", Category [Some 3; Some 5; Some 1]);
              ("RFM_Score", Int64 [9; 13; 4]);
              ("Segment", Object ["Loyal Customers"; "Champions"; "At Risk"]) ] |}.
Proof. vm_compute. reflexivity. Qed.

(** A single customer is enough for the quantile edges to coincide. *)
Example single_customer_raises :
  outcome (perform_rfm_analysis 0%nat [orders_frame [Build_Order "a" "o1" (day 1) 10 1]])
  = Err (ValueError "Bin labels must be one fewer than the number of bin edges").
Proof. vm_compute. reflexivity. Qed.

(** * The properties of the specification *)

Lemma elem_of_labels_desc (z : Z) : z ∈ [5; 4; 3; 2; 1] → 1 ≤ z ≤ 5.
Proof. intros H. repeat (apply elem_of_cons in H as [->|H]; [lia|]). by apply elem_of_nil in H. Qed.

Lemma elem_of_labels_asc (z : Z) : z ∈ [1; 2; 3; 4; 5] → 1 ≤ z ≤ 5.
Proof. intros H. repeat (apply elem_of_cons in H as [->|H]; [lia|]). by apply elem_of_nil in H. Qed.

Lemma segment_of_score_table (s : Z) :
  (12 ≤ s → segment_of_score s = "Champions") ∧
  (9 ≤ s < 12 → segment_of_score s = "Loyal Customers") ∧
  (6 ≤ s < 9 → segment_of_score s = "Potential Loyalists") ∧
  (3 ≤ s < 6 → segment_of_score s = "At Risk") ∧
  (s < 3 → segment_of_score s = "Lost Customers").
Proof.
  unfold segment_of_score.
  destruct (Z.leb_spec 12 s), (Z.leb_spec 9 s), (Z.leb_spec 6 s), (Z.leb_spec 3 s),
    (Z.ltb_spec s 12), (Z.ltb_spec s 9), (Z.ltb_spec s 6);
    simpl; split_and!; intros; first [done | lia].
Qed.

(** C1: for every integer [rfm_score], [segment_customer] returns a label, and
    it is the one the ordered threshold table gives: Champions from 12,
    Loyal Customers on [9,12), Potential Loyalists on [6,9), At Risk on
    [3,6), Lost Customers below 3.  The classifier reads nothing but the
    score of the row and touches no heap. *)
Theorem segment_customer_threshold_table (row : Row) (rfm_score : Z) :
  row_get row "RFM_Score" = Ok (VInt rfm_score) →
  ∃ label,
    segment_customer row = Ok (VStr label) ∧
    (12 ≤ rfm_score → label = "Champions") ∧
    (9 ≤ rfm_score < 12 → label = "Loyal Customers") ∧
    (6 ≤ rfm_score < 9 → label = "Potential Loyalists") ∧
    (3 ≤ rfm_score < 6 → label = "At Risk") ∧
    (rfm_score < 3 → label = "Lost Customers").
Proof.
  intros H. exists (segment_of_score rfm_score). split.
  - by apply segment_customer_score.
  - apply segment_of_score_table.
Qed.

Lemma segment_customer_threshold_table_witness :
  row_get [("RFM_Score", VInt 12)] "RFM_Score" = Ok (VInt 12) ∧
  ∃ label,
    segment_customer [("RFM_Score", VInt 12)] = Ok (VStr label) ∧
    (12 ≤ 12 → label = "Champions") ∧
    (9 ≤ 12 < 12 → label = "Loyal Customers") ∧
    (6 ≤ 12 < 9 → label = "Potential Loyalists") ∧
    (3 ≤ 12 < 6 → label = "At Risk") ∧
    (12 < 3 → label = "Lost Customers").
Proof.
  split; [reflexivity|].
  apply (segment_customer_threshold_table [("RFM_Score", VInt 12)] 12). reflexivity.
Defined.

(** C2: on every row of a table the analysis returns, the three scores lie
    in [1,5], [RFM_Score] is their sum and lies in [3,15], and the segment is
    not Lost Customers. *)
Theorem rfm_score_range (h : heap) (l : loc) (rows : list Order) (t : DataFrame) (row : Row) :
  h !! l = Some (orders_frame rows) →
  outcome (perform_rfm_analysis l h) = Ok t →
  row ∈ iterrows t →
  ∃ r f m,
    row_get row "R_Score" = Ok (VInt r) ∧
    row_get row "F_Score" = Ok (VInt f) ∧
    row_get row "M_Score" = Ok (VInt m) ∧
    1 ≤ r ≤ 5 ∧ 1 ≤ f ≤ 5 ∧ 1 ≤ m ≤ 5 ∧
    row_get row "RFM_Score" = Ok (VInt (r + f + m)) ∧
    3 ≤ r + f + m ≤ 15 ∧
    row_get row "Segment" ≠ Ok (VStr "Lost Customers") ∧
    segment_customer row ≠ Ok (VStr "Lost Customers").
Proof.
  intros Hl Ht Hrow.
  destruct (perform_rfm_analysis_rows h l rows t Hl Ht) as (_ & Hrows & _).
  destruct (Hrows row Hrow) as (c & r & m & Hc & Hr & Hm & ->).
  apply elem_of_labels_desc in Hr. apply elem_of_labels_asc in Hm.
  pose proof (frequency_pos rows c Hc) as Hf.
  exists r, (frequency rows c `min` 5), m.
  assert (segment_of_score (r + frequency rows c `min` 5 + m) ≠ "Lost Customers") as Hseg.
  { unfold segment_of_score. repeat case_match; try done; lia. }
  split_and!; try done; try lia.
  - intros [= E]. done.
  - rewrite (segment_customer_score _ (r + frequency rows c `min` 5 + m)) by done.
    intros [= E]. done.
Qed.

Lemma rfm_score_range_witness :
  [orders_frame ex_orders] !! 0%nat = Some (orders_frame ex_orders) ∧
  outcome (perform_rfm_analysis 0%nat [orders_frame ex_orders]) = Ok ex_table ∧
  ex_row_b ∈ iterrows ex_table ∧
  ∃ r f m,
    row_get ex_row_b "R_Score" = Ok (VInt r) ∧
    row_get ex_row_b "F_Score" = Ok (VInt f) ∧
    row_get ex_row_b "M_Score" = Ok (VInt m) ∧
    1 ≤ r ≤ 5 ∧ 1 ≤ f ≤ 5 ∧ 1 ≤ m ≤ 5 ∧
    row_get ex_row_b "RFM_Score" = Ok (VInt (r + f + m)) ∧
    3 ≤ r + f + m ≤ 15 ∧
    row_get ex_row_b "Segment" ≠ Ok (VStr "Lost Customers") ∧
    segment_customer ex_row_b ≠ Ok (VStr "Lost Customers").
Proof.
  assert (outcome (perform_rfm_analysis 0%nat [orders_frame ex_orders]) = Ok ex_table)
    as Hout by (vm_compute; reflexivity).
  assert (ex_row_b ∈ iterrows ex_table) as Hin
    by (apply list_elem_of_In; vm_compute; right; left; reflexivity).
  split; [reflexivity|]. split; [exact Hout|]. split; [exact Hin|].
  exact (rfm_score_range [orders_frame ex_orders] 0%nat ex_orders ex_table ex_row_b
           eq_refl Hout Hin).
Defined.

(** C3: a degenerate distribution makes the analysis raise instead of
    returning a score table.  When all customers of a non-empty table have
    the same recency, or all have the same monetary value, the
    quantile edges of that column coincide, [duplicates='drop'] leaves one
    edge, and [pd.qcut] rejects the five labels it was given: the analysis
    raises ValueError and returns no table. *)
Theorem equal_metric_raises (h : heap) (l : loc) (rows : list Order) :
  h !! l = Some (orders_frame rows) →
  rows ≠ [] →
  (∀ c c', c ∈ customers rows → c' ∈ customers rows → recency rows c = recency rows c') ∨
  (∀ c c', c ∈ customers rows → c' ∈ customers rows →
           (monetary rows c == monetary rows c')%Q) →
  outcome (perform_rfm_analysis l h)
  = Err (ValueError "Bin labels must be one fewer than the number of bin edges").
Proof.
  intros Hl Hne Hsame.
  rewrite (outcome_perform_rfm_analysis h l _ Hl), (rfm_table_orders rows Hne).
  assert (∃ c0, c0 ∈ customers rows) as [c0 Hc0].
  { destruct rows as [|o rows]; [done|]. exists (customer_id o).
    apply elem_of_customers. exists o. split; [left | done]. }
  assert (∀ {A} (g : string → A), map g (customers rows) ≠ []) as HK.
  { intros A g E. apply (f_equal length) in E. rewrite length_map in E.
    apply length_zero_iff_nil in E. rewrite E in Hc0. by apply elem_of_nil in Hc0. }
  unfold rfm_scores, metrics_frame. frame_simpl.
  destruct Hsame as [Hsame|Hsame].
  - erewrite (qcut_equal_values _ _ (inject_Z (recency rows c0))); try reflexivity.
    + rewrite dropna_map_Some, map_map. apply HK.
    + intros x. rewrite dropna_map_Some. intros Hx.
      apply list_elem_of_fmap in Hx as (z & -> & Hz).
      apply list_elem_of_fmap in Hz as (c & -> & Hc). by rewrite (Hsame c c0 Hc Hc0).
  - destruct (pd.qcut (Int64 _) _ _ _) as [r|e] eqn:Hr.
    2:{ apply qcut_recency_err in Hr as ->. by rewrite bind_err. }
    frame_simpl. rewrite cut_frequency. frame_simpl.
    erewrite (qcut_equal_values _ _ (monetary rows c0)); try reflexivity.
    + rewrite dropna_map_Some. apply HK.
    + intros x. rewrite dropna_map_Some. intros Hx.
      apply list_elem_of_fmap in Hx as (c & -> & Hc). by apply Hsame.
Qed.

Lemma equal_metric_raises_witness :
  [orders_frame ex_same_day] !! 0%nat = Some (orders_frame ex_same_day) ∧
  ex_same_day ≠ [] ∧
  (∀ c c', c ∈ customers ex_same_day → c' ∈ customers ex_same_day →
           recency ex_same_day c = recency ex_same_day c') ∧
  outcome (perform_rfm_analysis 0%nat [orders_frame ex_same_day])
  = Err (ValueError "Bin labels must be one fewer than the number of bin edges").
Proof.
  assert (∀ c c', c ∈ customers ex_same_day → c' ∈ customers ex_same_day →
                  recency ex_same_day c = recency ex_same_day c') as Hsame.
  { assert (customers ex_same_day = ["a"; "b"]) as -> by (vm_compute; reflexivity).
    assert (∀ c, c ∈ ["a"; "b"] → recency ex_same_day c = 0) as H0.
    { intros c Hc.
      repeat (apply elem_of_cons in Hc as [->|Hc]; [vm_compute; reflexivity|]).
      by apply elem_of_nil in Hc. }
    intros c c' Hc Hc'. by rewrite (H0 c Hc), (H0 c' Hc'). }
  assert (ex_same_day ≠ []) as Hne by discriminate.
  split; [reflexivity|]. split; [exact Hne|]. split; [exact Hsame|].
  exact (equal_metric_raises [orders_frame ex_same_day] 0%nat ex_same_day eq_refl Hne
           (or_introl Hsame)).
Defined.

(** C4, as the specification states it, does not hold: on a table of zero
    rows the analysis does not raise an EmptyInputError. *)
Lemma empty_input_not_EmptyInputError :
  ¬ ∃ msg, outcome (perform_rfm_analysis 0%nat [orders_frame []])
           = Err (Raise "EmptyInputError" msg).
Proof. intros [msg H]. vm_compute in H. discriminate H. Qed.

(** The pandas call the run has reached is on known columns: it is evaluated. *)
Ltac eval_pure :=
  match goal with
  | |- context [match ?x with Ok _ => _ | Err _ => _ end] =>
      let y := eval vm_compute in x in change x with y; cbv beta iota zeta
  end.

(** A run on a table of zero rows: whatever becomes of the call, it is not
    an EmptyInputError, and the eighth frame allocated, the merged metric
    table, has zero rows. *)
Lemma perform_rfm_analysis_empty_run (h : heap) (l : loc) :
  h !! l = Some (orders_frame []) →
  ∃ r objs rfm_df,
    perform_rfm_analysis l h = (r, h ++ objs) ∧
    (∀ e, r = Err e → exn_class e ≠ "EmptyInputError") ∧
    objs !! 7%nat = Some rfm_df ∧
    nrows rfm_df = 0%nat ∧
    ∀ name, name ∈ ["customer_id"; "Recency"; "Frequency"; "Monetary"] →
            ∃ s, getcol rfm_df name = Ok s ∧ series_len s = 0%nat.
Proof.
  intros Hl.
  eexists _, _, _. split; [|split; [|split; [|split]]].
  - rewrite <- (app_nil_r h) at 1.
    unfold perform_rfm_analysis. repeat (heap_step Hl; try eval_pure).
    rewrite ?ret_run. reflexivity.
  - intros e He. by simplify_eq.
  - reflexivity.
  - reflexivity.
  - intros name Hn.
    repeat (apply elem_of_cons in Hn as [->|Hn]; [by eexists|]).
    by apply elem_of_nil in Hn.
Qed.

(** C4, amended: on a table of zero rows the analysis does not fail with
    an EmptyInputError, on any heap.  Deriving the reference date does not
    fail: the latest timestamp of no rows is the missing timestamp.  The
    metric extraction goes through without an exception: the eighth frame the
    call allocates, the merged metric table, is there and has zero rows, with
    its four columns empty. *)
Theorem empty_input_metric_table (h : heap) (l : loc) :
  h !! l = Some (orders_frame []) →
  (getcol (orders_frame []) "order_purchase_timestamp" ≫= series_max) = Ok VNaT ∧
  (∀ e, (perform_rfm_analysis l h).1 = Err e → exn_class e ≠ "EmptyInputError") ∧
  ∃ rfm_df,
    (perform_rfm_analysis l h).2 !! (length h + 7)%nat = Some rfm_df ∧
    nrows rfm_df = 0%nat ∧
    ∀ name, name ∈ ["customer_id"; "Recency"; "Frequency"; "Monetary"] →
            ∃ s, getcol rfm_df name = Ok s ∧ series_len s = 0%nat.
Proof.
  intros Hl. split; [reflexivity|].
  destruct (perform_rfm_analysis_empty_run h l Hl)
    as (r & objs & rfm_df & -> & He & Hobj & Hrows & Hcols).
  split; [exact He|].
  exists rfm_df. split; [cbn [snd]; by rewrite lookup_new|]. by split.
Qed.

Lemma empty_input_metric_table_witness :
  [orders_frame []] !! 0%nat = Some (orders_frame []) ∧
  (getcol (orders_frame []) "order_purchase_timestamp" ≫= series_max) = Ok VNaT ∧
  (∀ e, (perform_rfm_analysis 0%nat [orders_frame []]).1 = Err e →
        exn_class e ≠ "EmptyInputError") ∧
  ∃ rfm_df,
    (perform_rfm_analysis 0%nat [orders_frame []]).2 !! (length [orders_frame []] + 7)%nat
    = Some rfm_df ∧
    nrows rfm_df = 0%nat ∧
    ∀ name, name ∈ ["customer_id"; "Recency"; "Frequency"; "Monetary"] →
            ∃ s, getcol rfm_df name = Ok s ∧ series_len s = 0%nat.
Proof.
  split; [reflexivity|].
  exact (empty_input_metric_table [orders_frame []] 0%nat eq_refl).
Defined.

Lemma row_get_customer_id (rows : list Order) (c c' : string) (r m : Z) :
  row_get (scored_row rows c r m) "customer_id" = Ok (VStr c') → c = c'.
Proof. by intros [= ->]. Qed.

(** C5: for every customer of the input, a table the analysis returns has
    a row for the customer, and the [Frequency] of the customer's row is the
    number of distinct order identifiers among the customer's rows: at least
    1, and at most the number of those rows (2 rows under 1 order identifier
    give 1). *)
Theorem frequency_counts_distinct_orders
    (h : heap) (l : loc) (rows : list Order) (t : DataFrame) (o : Order) :
  h !! l = Some (orders_frame rows) →
  outcome (perform_rfm_analysis l h) = Ok t →
  o ∈ rows →
  let c := customer_id o in
  let n := Z.of_nat (size (distinct_orders rows c)) in
  1 ≤ n ≤ Z.of_nat (length (orders_of c rows)) ∧
  (∃ row, row ∈ iterrows t ∧ row_get row "customer_id" = Ok (VStr c)) ∧
  (∀ row, row ∈ iterrows t → row_get row "customer_id" = Ok (VStr c) →
          row_get row "Frequency" = Ok (VInt n)).
Proof.
  intros Hl Ht Ho c n.
  destruct (perform_rfm_analysis_rows h l rows t Hl Ht) as (_ & Hrows & Hcov).
  assert (c ∈ customers rows) as Hc by (apply elem_of_customers; by exists o).
  unfold n. rewrite <- frequency_distinct_orders. split_and!.
  - by apply frequency_pos.
  - apply frequency_le_rows.
  - destruct (Hcov c Hc) as (r & m & Hin). by exists (scored_row rows c r m).
  - intros row Hrow Hid. destruct (Hrows row Hrow) as (c' & r & m & _ & _ & _ & ->).
    apply row_get_customer_id in Hid as ->. done.
Qed.

Lemma frequency_counts_distinct_orders_witness :
  let o := Build_Order "b" "o1" (day 10) 10 5 in
  [orders_frame ex_orders] !! 0%nat = Some (orders_frame ex_orders) ∧
  outcome (perform_rfm_analysis 0%nat [orders_frame ex_orders]) = Ok ex_table ∧
  o ∈ ex_orders ∧
  length (orders_of "b" ex_orders) = 2%nat ∧
  row_get ex_row_b "Frequency" = Ok (VInt 1) ∧
  let c := customer_id o in
  let n := Z.of_nat (size (distinct_orders ex_orders c)) in
  1 ≤ n ≤ Z.of_nat (length (orders_of c ex_orders)) ∧
  (∃ row, row ∈ iterrows ex_table ∧ row_get row "customer_id" = Ok (VStr c)) ∧
  (∀ row, row ∈ iterrows ex_table → row_get row "customer_id" = Ok (VStr c) →
          row_get row "Frequency" = Ok (VInt n)).
Proof.
  intros o.
  assert (outcome (perform_rfm_analysis 0%nat [orders_frame ex_orders]) = Ok ex_table)
    as Hout by (vm_compute; reflexivity).
  assert (o ∈ ex_orders) as Hin by left.
  split; [reflexivity|]. split; [exact Hout|]. split; [exact Hin|].
  split; [vm_compute; reflexivity|]. split; [reflexivity|].
  exact (frequency_counts_distinct_orders [orders_frame ex_orders] 0%nat ex_orders ex_table o
           eq_refl Hout Hin).
Defined.

(** C6: for every customer of the input, the [Recency] of the customer's
    row in a table the analysis returns is the whole-day difference between
    the latest purchase timestamp [T] of the whole input and the latest
    purchase timestamp [tc] of the customer; it is never negative, and it is
    0 when the two coincide. *)
Theorem recency_whole_days
    (h : heap) (l : loc) (rows : list Order) (t : DataFrame) (o : Order) (T tc : Z) :
  h !! l = Some (orders_frame rows) →
  outcome (perform_rfm_analysis l h) = Ok t →
  o ∈ rows →
  let c := customer_id o in
  is_latest T rows →
  is_latest tc (orders_of c rows) →
  0 ≤ (T - tc) `div` ns_per_day ∧
  (tc = T → (T - tc) `div` ns_per_day = 0) ∧
  (∃ row, row ∈ iterrows t ∧ row_get row "customer_id" = Ok (VStr c)) ∧
  (∀ row, row ∈ iterrows t → row_get row "customer_id" = Ok (VStr c) →
          row_get row "Recency" = Ok (VInt ((T - tc) `div` ns_per_day))).
Proof.
  intros Hl Ht Ho c HT Htc.
  destruct (perform_rfm_analysis_rows h l rows t Hl Ht) as (Hne & Hrows & Hcov).
  assert (c ∈ customers rows) as Hc by (apply elem_of_customers; by exists o).
  rewrite (is_latest_unique _ _ _ HT (latest_is_latest rows Hne)).
  rewrite (is_latest_unique _ _ _ Htc (latest_is_latest _ (orders_of_ne rows c Hc))).
  split_and!.
  - by apply recency_nonneg.
  - intros ->. by rewrite Z.sub_diag.
  - destruct (Hcov c Hc) as (r & m & Hin). by exists (scored_row rows c r m).
  - intros row Hrow Hid. destruct (Hrows row Hrow) as (c' & r & m & _ & _ & _ & ->).
    apply row_get_customer_id in Hid as ->. done.
Qed.

Lemma recency_whole_days_witness :
  let o := Build_Order "b" "o1" (day 10) 10 5 in
  let c := customer_id o in
  [orders_frame ex_orders] !! 0%nat = Some (orders_frame ex_orders) ∧
  outcome (perform_rfm_analysis 0%nat [orders_frame ex_orders]) = Ok ex_table ∧
  o ∈ ex_orders ∧
  is_latest (day 10) ex_orders ∧
  is_latest (day 10) (orders_of c ex_orders) ∧
  0 ≤ (day 10 - day 10) `div` ns_per_day ∧
  (day 10 = day 10 → (day 10 - day 10) `div` ns_per_day = 0) ∧
  (∃ row, row ∈ iterrows ex_table ∧ row_get row "customer_id" = Ok (VStr c)) ∧
  (∀ row, row ∈ iterrows ex_table → row_get row "customer_id" = Ok (VStr c) →
          row_get row "Recency" = Ok (VInt ((day 10 - day 10) `div` ns_per_day))).
Proof.
  intros o c.
  assert (outcome (perform_rfm_analysis 0%nat [orders_frame ex_orders]) = Ok ex_table)
    as Hout by (vm_compute; reflexivity).
  assert (o ∈ ex_orders) as Hin by left.
  assert (∀ l : list Order, (∀ x, x ∈ l → x ∈ ex_orders) →
            day 10 ∈ map order_purchase_timestamp l → is_latest (day 10) l) as Hlatest.
  { intros l Hsub Hmem. split; [exact Hmem|]. intros x Hx. apply Hsub in Hx.
    unfold ex_orders in Hx.
    repeat (apply elem_of_cons in Hx as [->|Hx]; [vm_compute; discriminate|]).
    exfalso. exact (proj1 (elem_of_nil x) Hx). }
  assert (is_latest (day 10) ex_orders) as HT
    by (apply Hlatest; [done | apply list_elem_of_In; vm_compute; left; reflexivity]).
  assert (is_latest (day 10) (orders_of c ex_orders)) as Htc
    by (apply Hlatest;
        [apply orders_of_subseteq | apply list_elem_of_In; vm_compute; left; reflexivity]).
  split; [reflexivity|]. split; [exact Hout|]. split; [exact Hin|].
  split; [exact HT|]. split; [exact Htc|].
  exact (recency_whole_days [orders_frame ex_orders] 0%nat ex_orders ex_table o
           (day 10) (day 10) eq_refl Hout Hin HT Htc).
Defined.

(** C7: the frequency score has fixed boundaries, whatever the other values
    of the column are: [pd.cut] with the bins and labels of the analysis
    scores each frequency by [f_score_fixed], so 1,2,3,4,5,6 give
    1,2,3,4,5,5; and on every row of a table the analysis returns,
    [F_Score] is the score of the row's own [Frequency]. *)
Theorem f_score_fixed_boundaries
    (h : heap) (l : loc) (rows : list Order) (t : DataFrame) (row : Row) (zs : list Z) :
  h !! l = Some (orders_frame rows) →
  outcome (perform_rfm_analysis l h) = Ok t →
  row ∈ iterrows t →
  pd.cut (Int64 zs) [Fin 0; Fin 1; Fin 2; Fin 3; Fin 4; Inf] [1; 2; 3; 4; 5]
  = Ok (Category (map f_score_fixed zs)) ∧
  pd.cut (Int64 [1; 2; 3; 4; 5; 6]) [Fin 0; Fin 1; Fin 2; Fin 3; Fin 4; Inf] [1; 2; 3; 4; 5]
  = Ok (Category [Some 1; Some 2; Some 3; Some 4; Some 5; Some 5]) ∧
  ∃ f s,
    row_get row "Frequency" = Ok (VInt f) ∧
    row_get row "F_Score" = Ok (VInt s) ∧
    (f = 1 → s = 1) ∧ (f = 2 → s = 2) ∧ (f = 3 → s = 3) ∧ (f = 4 → s = 4) ∧
    (5 ≤ f → s = 5).
Proof.
  intros Hl Ht Hrow. split; [apply cut_frequency|]. split; [apply cut_frequency|].
  destruct (perform_rfm_analysis_rows h l rows t Hl Ht) as (_ & Hrows & _).
  destruct (Hrows row Hrow) as (c & r & m & Hc & _ & _ & ->).
  exists (frequency rows c), (frequency rows c `min` 5).
  split_and!; try done; lia.
Qed.

Lemma f_score_fixed_boundaries_witness :
  let zs := [1; 2; 3; 4; 5; 6] in
  [orders_frame ex_orders] !! 0%nat = Some (orders_frame ex_orders) ∧
  outcome (perform_rfm_analysis 0%nat [orders_frame ex_orders]) = Ok ex_table ∧
  ex_row_b ∈ iterrows ex_table ∧
  pd.cut (Int64 zs) [Fin 0; Fin 1; Fin 2; Fin 3; Fin 4; Inf] [1; 2; 3; 4; 5]
  = Ok (Category (map f_score_fixed zs)) ∧
  pd.cut (Int64 [1; 2; 3; 4; 5; 6]) [Fin 0; Fin 1; Fin 2; Fin 3; Fin 4; Inf] [1; 2; 3; 4; 5]
  = Ok (Category [Some 1; Some 2; Some 3; Some 4; Some 5; Some 5]) ∧
  ∃ f s,
    row_get ex_row_b "Frequency" = Ok (VInt f) ∧
    row_get ex_row_b "F_Score" = Ok (VInt s) ∧
    (f = 1 → s = 1) ∧ (f = 2 → s = 2) ∧ (f = 3 → s = 3) ∧ (f = 4 → s = 4) ∧
    (5 ≤ f → s = 5).
Proof.
  intros zs.
  assert (outcome (perform_rfm_analysis 0%nat [orders_frame ex_orders]) = Ok ex_table)
    as Hout by (vm_compute; reflexivity).
  assert (ex_row_b ∈ iterrows ex_table) as Hin
    by (apply list_elem_of_In; vm_compute; right; left; reflexivity).
  split; [reflexivity|]. split; [exact Hout|]. split; [exact Hin|].
  exact (f_score_fixed_boundaries [orders_frame ex_orders] 0%nat ex_orders ex_table ex_row_b zs
           eq_refl Hout Hin).
Defined.

Lemma segment_rank_mono (a b : Z) :
  a ≤ b →
  ∃ ra rb, segment_rank (segment_of_score a) = Some ra ∧
           segment_rank (segment_of_score b) = Some rb ∧ (ra ≤ rb)%nat.
Proof.
  intros Hab. unfold segment_of_score.
  destruct (Z.leb_spec 12 a), (Z.leb_spec 9 a), (Z.leb_spec 6 a), (Z.leb_spec 3 a),
    (Z.ltb_spec a 12), (Z.ltb_spec a 9), (Z.ltb_spec a 6); try lia;
    destruct (Z.leb_spec 12 b), (Z.leb_spec 9 b), (Z.leb_spec 6 b), (Z.leb_spec 3 b),
      (Z.ltb_spec b 12), (Z.ltb_spec b 9), (Z.ltb_spec b 6); try lia;
    simpl; eexists _, _; split_and!; try reflexivity; lia.
Qed.

(** C8: the segment of a row depends on its [RFM_Score] alone, and a row
    with a score at least as high never gets a lower-ranked segment, in the
    order Lost Customers < At Risk < Potential Loyalists < Loyal Customers <
    Champions. *)
Theorem segment_customer_monotone (row_a row_b : Row) (a b : Z) :
  row_get row_a "RFM_Score" = Ok (VInt a) →
  row_get row_b "RFM_Score" = Ok (VInt b) →
  a ≤ b →
  ∃ seg_a seg_b rank_a rank_b,
    segment_customer row_a = Ok (VStr seg_a) ∧
    segment_customer row_b = Ok (VStr seg_b) ∧
    segment_rank seg_a = Some rank_a ∧
    segment_rank seg_b = Some rank_b ∧
    (rank_a ≤ rank_b)%nat ∧
    (a = b → seg_a = seg_b).
Proof.
  intros Ha Hb Hab.
  destruct (segment_rank_mono a b Hab) as (ra & rb & Hra & Hrb & Hle).
  exists (segment_of_score a), (segment_of_score b), ra, rb.
  split_and!; try done; try by apply segment_customer_score.
  by intros ->.
Qed.

Lemma segment_customer_monotone_witness :
  let row_a := [("customer_id", VStr "c"); ("RFM_Score", VInt 5)] in
  let row_b := [("customer_id", VStr "b"); ("RFM_Score", VInt 9)] in
  row_get row_a "RFM_Score" = Ok (VInt 5) ∧
  row_get row_b "RFM_Score" = Ok (VInt 9) ∧
  5 ≤ 9 ∧
  ∃ seg_a seg_b rank_a rank_b,
    segment_customer row_a = Ok (VStr seg_a) ∧
    segment_customer row_b = Ok (VStr seg_b) ∧
    segment_rank seg_a = Some rank_a ∧
    segment_rank seg_b = Some rank_b ∧
    (rank_a ≤ rank_b)%nat ∧
    (5 = 9 → seg_a = seg_b).
Proof.
  intros row_a row_b.
  assert (5 ≤ 9) as Hle by lia.
  split; [reflexivity|]. split; [reflexivity|]. split; [exact Hle|].
  exact (segment_customer_monotone row_a row_b 5 9 eq_refl eq_refl Hle).
Defined.

(** C9: the outcome of a call is determined by the contents of the input
    table.  Two calls on tables with the same contents, from any two heaps,
    give the same table or the same exception; in particular a second call
    made after a first one, on the heap the first one left, gives what the
    first one gave. *)
Theorem perform_rfm_analysis_deterministic (h h' : heap) (l l' : loc) (d : DataFrame) :
  h !! l = Some d →
  h' !! l' = Some d →
  outcome (perform_rfm_analysis l h) = outcome (perform_rfm_analysis l' h') ∧
  outcome (perform_rfm_analysis l (perform_rfm_analysis l h).2)
  = outcome (perform_rfm_analysis l h).
Proof.
  intros Hl Hl'. split.
  - by rewrite (outcome_perform_rfm_analysis h l d Hl),
      (outcome_perform_rfm_analysis h' l' d Hl').
  - destruct (perform_rfm_analysis_run h l d Hl) as (objs & Hh & _).
    rewrite (outcome_perform_rfm_analysis h l d Hl).
    apply outcome_perform_rfm_analysis. rewrite Hh. by apply lookup_app_l_Some.
Qed.

Lemma perform_rfm_analysis_deterministic_witness :
  let h := [orders_frame ex_orders] in
  let h' := [orders_frame ex_same_day; orders_frame ex_orders] in
  h !! 0%nat = Some (orders_frame ex_orders) ∧
  h' !! 1%nat = Some (orders_frame ex_orders) ∧
  outcome (perform_rfm_analysis 0%nat h) = Ok ex_table ∧
  outcome (perform_rfm_analysis 0%nat h) = outcome (perform_rfm_analysis 1%nat h') ∧
  outcome (perform_rfm_analysis 0%nat (perform_rfm_analysis 0%nat h).2)
  = outcome (perform_rfm_analysis 0%nat h).
Proof.
  intros h h'.
  split; [reflexivity|]. split; [reflexivity|]. split; [vm_compute; reflexivity|].
  exact (perform_rfm_analysis_deterministic h h' 0%nat 1%nat (orders_frame ex_orders)
           eq_refl eq_refl).
Defined.

(** C10: a call leaves the input table, and every other frame that existed
    before it, as it was: the frames it creates and writes to are new
    objects, and the reference it returns is to one of them. *)
Theorem perform_rfm_analysis_preserves_input (h : heap) (l : loc) (d : DataFrame) :
  h !! l = Some d →
  let run := perform_rfm_analysis l h in
  run.2 !! l = Some d ∧
  (∀ l' d', h !! l' = Some d' → run.2 !! l' = Some d') ∧
  (∀ r, run.1 = Ok r → h !! r = None ∧ is_Some (run.2 !! r)).
Proof.
  intros Hl run. destruct (perform_rfm_analysis_run h l d Hl) as (objs & Hh & Hr).
  fold run in Hh, Hr. rewrite Hh. split_and!.
  - by apply lookup_app_l_Some.
  - intros l' d' Hl'. by apply lookup_app_l_Some.
  - intros r Hrun. destruct (rfm_table d) as [t|e].
    + destruct Hr as [Hr Ht]. rewrite Hrun in Hr. injection Hr as ->. split.
      * apply lookup_ge_None. lia.
      * rewrite lookup_new, Ht. by eexists.
    + rewrite Hrun in Hr. discriminate Hr.
Qed.

Lemma perform_rfm_analysis_preserves_input_witness :
  let h := [orders_frame ex_same_day; orders_frame ex_orders] in
  let run := perform_rfm_analysis 1%nat h in
  h !! 1%nat = Some (orders_frame ex_orders) ∧
  run.1 = Ok 9%nat ∧
  run.2 !! 1%nat = Some (orders_frame ex_orders) ∧
  (∀ l' d', h !! l' = Some d' → run.2 !! l' = Some d') ∧
  (∀ r, run.1 = Ok r → h !! r = None ∧ is_Some (run.2 !! r)).
Proof.
  intros h run.
  split; [reflexivity|]. split; [vm_compute; reflexivity|].
  exact (perform_rfm_analysis_preserves_input h 1%nat (orders_frame ex_orders) eq_refl).
Defined.

(** * The rest of the module: lemmas *)

(** ** The order of strings *)

Lemma ascii_compare_lt_trans (a b c : Ascii.ascii) :
  Ascii.compare a b = Lt → Ascii.compare b c = Lt → Ascii.compare a c = Lt.
Proof.
  unfold Ascii.compare. rewrite !N.compare_lt_iff. apply N.lt_trans.
Qed.

Lemma string_compare_lt_trans (a b c : string) :
  String.compare a b = Lt → String.compare b c = Lt → String.compare a c = Lt.
Proof.
  revert b c. induction a as [|x a IH]; intros [|y b] [|z c]; simpl; try done.
  destruct (Ascii.compare x y) eqn:Exy; try done;
    destruct (Ascii.compare y z) eqn:Eyz; try done.
  - apply Ascii.compare_eq_iff in Exy as ->. apply Ascii.compare_eq_iff in Eyz as ->.
    assert (Ascii.compare z z = Eq) as -> by apply N.compare_refl. apply IH.
  - apply Ascii.compare_eq_iff in Exy as ->. by rewrite Eyz.
  - apply Ascii.compare_eq_iff in Eyz as <-. by rewrite Exy.
  - by rewrite (ascii_compare_lt_trans _ _ _ Exy Eyz).
Qed.

Lemma string_leb_trans (a b c : string) :
  String.leb a b → String.leb b c → String.leb a c.
Proof.
  unfold String.leb.
  destruct (String.compare a b) eqn:Eab; try done;
    destruct (String.compare b c) eqn:Ebc; try done; intros _ _.
  - apply String.compare_eq_iff in Eab as ->. by rewrite Ebc.
  - apply String.compare_eq_iff in Eab as ->. by rewrite Ebc.
  - apply String.compare_eq_iff in Ebc as <-. by rewrite Eab.
  - by rewrite (string_compare_lt_trans _ _ _ Eab Ebc).
Qed.

Lemma string_leb_transitive : Transitive (λ a b : string, Is_true (String.leb a b)).
Proof. intros a b c. apply string_leb_trans. Qed.

Lemma string_leb_total : Total (λ a b : string, Is_true (String.leb a b)).
Proof. intros a b. destruct (String.leb_total a b) as [->| ->]; auto. Qed.

Lemma string_leb_antisymm : AntiSymm (=) (λ a b : string, Is_true (String.leb a b)).
Proof.
  intros a b Hab Hba. apply String.leb_antisym; by apply Is_true_eq_true.
Qed.

Lemma group_keys_sorted (ks : list string) :
  StronglySorted (λ a b : string, Is_true (String.leb a b)) (group_keys ks).
Proof.
  unfold group_keys.
  apply StronglySorted_merge_sort; [apply string_leb_transitive | apply string_leb_total].
Qed.

(** Group keys depend on the set of keys only. *)
Lemma group_keys_perm (ks ks' : list string) :
  (∀ k, k ∈ ks ↔ k ∈ ks') → group_keys ks = group_keys ks'.
Proof.
  intros H. pose proof string_leb_antisymm as Hanti.
  apply (StronglySorted_unique (λ a b : string, Is_true (String.leb a b)));
    try apply group_keys_sorted.
  apply NoDup_Permutation; try apply NoDup_group_keys.
  intros k. by rewrite !elem_of_group_keys.
Qed.

(** ** The order of rationals and the extreme quantiles *)

Lemma Qle_bool_transitive : Transitive (λ a b : Q, Is_true (Qle_bool a b)).
Proof.
  intros a b c Hab Hbc. apply Is_true_eq_true in Hab, Hbc. apply Is_true_eq_left.
  rewrite Qle_bool_iff in *. by eapply Qle_trans.
Qed.

Lemma Qle_bool_total : Total (λ a b : Q, Is_true (Qle_bool a b)).
Proof.
  intros a b. destruct (Qlt_le_dec a b) as [H|H].
  - left. apply Is_true_eq_left, Qle_bool_iff. by apply Qlt_le_weak.
  - right. by apply Is_true_eq_left, Qle_bool_iff.
Qed.

Lemma sort_values_sorted (xs : list Q) :
  StronglySorted (λ a b : Q, Is_true (Qle_bool a b)) (sort_values xs).
Proof.
  unfold sort_values.
  apply StronglySorted_merge_sort; [apply Qle_bool_transitive | apply Qle_bool_total].
Qed.

Lemma sort_values_perm (xs : list Q) : sort_values xs ≡ₚ xs.
Proof. apply merge_sort_Permutation. Qed.

Lemma lerp_left (a b : Q) (p : positive) : (a + (b - a) * (0 # p) == a)%Q.
Proof.
  assert (0 # p == 0)%Q as -> by reflexivity. ring.
Qed.

(** The lowest edge is the minimum of the values. *)
Lemma quantile_min (xs : list Q) :
  xs ≠ [] → ∃ e, quantile xs 0 5 = Fin e ∧ (∃ x, x ∈ xs ∧ (e == x)%Q) ∧
                 ∀ x, x ∈ xs → (e <= x)%Q.
Proof.
  intros Hne. unfold quantile.
  pose proof (sort_values_sorted xs) as Hs. pose proof (sort_values_perm xs) as Hp.
  destruct (sort_values xs) as [|v0 v]; [by apply Permutation_nil in Hp|].
  rewrite Nat.mul_0_r.
  change (0 `div` 5)%nat with 0%nat. change (0 `mod` 5)%nat with 0%nat.
  change (nth 0 (v0 :: v) v0) with v0. change (Z.of_nat 0) with 0.
  eexists. split; [reflexivity|]. split.
  - exists v0. split; [rewrite <- Hp; left | apply lerp_left].
  - intros x Hx. rewrite lerp_left. rewrite <- Hp in Hx.
    apply elem_of_cons in Hx as [->|Hx]; [apply Qle_refl|].
    apply StronglySorted_inv in Hs as [_ Hall]. rewrite Forall_forall in Hall.
    apply Qle_bool_iff, Is_true_eq_true. by apply Hall.
Qed.

(** The highest edge is the maximum of the values. *)
Lemma quantile_max (xs : list Q) :
  xs ≠ [] → ∃ e, quantile xs 5 5 = Fin e ∧ (∃ x, x ∈ xs ∧ (e == x)%Q) ∧
                 ∀ x, x ∈ xs → (x <= e)%Q.
Proof.
  intros Hne. unfold quantile.
  pose proof (sort_values_sorted xs) as Hs. pose proof (sort_values_perm xs) as Hp.
  destruct (sort_values xs) as [|v0 v] eqn:Hv; [by apply Permutation_nil in Hp|].
  rewrite Nat.div_mul by done. rewrite Nat.Div0.mod_mul. change (Z.of_nat 0) with 0.
  replace ((length (v0 :: v) - 1 + 1) `min` (length (v0 :: v) - 1))%nat
    with (length (v0 :: v) - 1)%nat by (simpl; lia).
  destruct (exists_last (l:=v0 :: v)) as (w & z & Hw); [done|].
  rewrite Hw in Hs, Hp |- *.
  assert (nth (length (w ++ [z]) - 1) (w ++ [z]) v0 = z) as ->.
  { rewrite length_app. simpl. rewrite Nat.add_sub, app_nth2 by lia.
    by rewrite Nat.sub_diag. }
  eexists. split; [reflexivity|]. split.
  - exists z. split; [rewrite <- Hp; apply elem_of_app; right; left | apply lerp_left].
  - intros x Hx. rewrite lerp_left. rewrite <- Hp in Hx.
    apply elem_of_app in Hx as [Hx|Hx].
    + apply StronglySorted_app in Hs as [Hall _].
      apply Qle_bool_iff, Is_true_eq_true. apply Hall; [done | left].
    + apply list_elem_of_singleton in Hx as ->. apply Qle_refl.
Qed.

(** ** Bins *)

Lemma length_unique_by {A : Type} (eqb : A → A → bool) (l : list A) :
  (length (unique_by eqb l) ≤ length l)%nat.
Proof.
  induction l as [|a l IH]; simpl; [lia|].
  pose proof (List.filter_length_le (λ b, negb (eqb a b)) (unique_by eqb l)). lia.
Qed.

Lemma length_quantile_edges (xs : list Q) : length (quantile_edges xs) = 6%nat.
Proof. reflexivity. Qed.

(** [pd.qcut] with five distinct labels: it succeeds exactly when the six
    quantile edges are distinct, and then scores each value by its bin. *)
Lemma qcut_five (s : Series) (xs : list (option Q)) (labels : list Z) :
  to_numeric s = Ok xs → length labels = 5%nat → no_duplicates labels = true →
  pd.qcut s 5 labels dup_drop
  = if distinct_edges (quantile_edges (dropna xs))
    then Ok (Category (map (λ v, x ← v; score_in (quantile_edges (dropna xs)) labels x) xs))
    else Err (ValueError "Bin labels must be one fewer than the number of bin edges").
Proof.
  intros Hxs Hlen Hdup. unfold pd.qcut. rewrite Hxs, bind_ok.
  change (map (λ k, quantile (dropna xs) k 5) (seq 0 6)) with (quantile_edges (dropna xs)).
  set (es := quantile_edges (dropna xs)).
  unfold pd._bins_to_cuts, distinct_edges.
  pose proof (length_unique_by edge_eqb es) as Hle.
  assert (length es = 6%nat) as Hes by done. clearbody es. rewrite Hdup, Hlen, Hes in *.
  change (negb (6 =? 2)%nat) with true. change (5 + 1)%nat with 6%nat.
  rewrite andb_true_r. cbn [negb].
  destruct (Nat.eqb_spec (length (unique_by edge_eqb es)) 6) as [E|E].
  - rewrite E, Nat.ltb_irrefl, bind_ok, Hes, Nat.eqb_refl. cbn [negb]. rewrite bind_ok.
    do 2 f_equal. rewrite map_map. apply map_ext. by intros [x|].
  - rewrite (proj2 (Nat.ltb_lt _ _)) by lia. rewrite bind_ok.
    rewrite (proj2 (Nat.eqb_neq 6 _)) by lia. done.
Qed.

Lemma searchsorted_left_le (bins : list edge) (x : Q) (i : nat) (b : edge) :
  bins !! i = Some b → edge_lt b x = false → (searchsorted_left bins x ≤ i)%nat.
Proof.
  revert i. induction bins as [|b' bins IH]; intros [|i] Hi Hb; simpl in *; try done.
  - injection Hi as ->. by rewrite Hb.
  - destruct (edge_lt b' x); [|lia]. specialize (IH i Hi Hb). lia.
Qed.

Lemma searchsorted_left_mono (bins : list edge) (x y : Q) :
  (x <= y)%Q → (searchsorted_left bins x ≤ searchsorted_left bins y)%nat.
Proof.
  intros Hxy. induction bins as [|b bins IH]; simpl; [lia|].
  destruct (edge_lt b x) eqn:Hx; [|lia].
  assert (edge_lt b y = true) as ->; [|lia].
  destruct b as [q| |]; simpl in *; try done. unfold Qltb in *.
  apply negb_true_iff in Hx. apply negb_true_iff.
  destruct (Qle_bool y q) eqn:Hy; [|done].
  apply Qle_bool_iff in Hy. assert (Qle_bool x q = true) as Hx'; [|congruence].
  apply Qle_bool_iff. by eapply Qle_trans.
Qed.

(** Every value of a column falls in one of the five bins between its
    quantile edges. *)
Lemma bin_of_quantile_edges (xs : list Q) (x : Q) :
  x ∈ xs → ∃ i, bin_of (quantile_edges xs) true (Some x) = Some i ∧ (i < 5)%nat.
Proof.
  intros Hx. assert (xs ≠ []) as Hne by (intros ->; by apply elem_of_nil in Hx).
  destruct (quantile_min xs Hne) as (e0 & He0 & _ & Hmin).
  destruct (quantile_max xs Hne) as (e5 & He5 & _ & Hmax).
  unfold bin_of. cbn [mbind option_bind].
  set (es := quantile_edges xs).
  assert (head es = Some (Fin e0)) as Hhd by (unfold es, quantile_edges; simpl; by rewrite He0).
  assert (es !! 5%nat = Some (Fin e5)) as Hlast
    by (unfold es, quantile_edges; simpl; by rewrite He5).
  assert (length es = 6%nat) as Hlen by done.
  assert (searchsorted_left es x ≤ 5)%nat as Hle.
  { apply (searchsorted_left_le _ _ _ _ Hlast). simpl. unfold Qltb.
    apply negb_false_iff, Qle_bool_iff, Hmax, Hx. }
  rewrite Hhd, Hlen. cbn [from_option edge_is andb].
  destruct (Qeq_bool e0 x) eqn:Heq.
  - exists 0%nat. split; [done | lia].
  - assert (1 ≤ searchsorted_left es x)%nat as Hge.
    { destruct es as [|b es']; [done|]. injection Hhd as ->. simpl.
      assert (Qltb e0 x = true) as ->; [|lia]. unfold Qltb. apply negb_true_iff.
      destruct (Qle_bool x e0) eqn:Hxe; [|done]. exfalso.
      apply Qle_bool_iff in Hxe. apply not_true_iff_false in Heq. apply Heq.
      apply Qeq_bool_iff, Qle_antisym; [by apply Hmin | done]. }
    exists (searchsorted_left es x - 1)%nat. split; [|lia].
    destruct (Nat.eqb_spec (searchsorted_left es x) 6); [lia|].
    destruct (Nat.eqb_spec (searchsorted_left es x) 0); [lia|]. done.
Qed.

Lemma score_in_quantile_edges (xs : list Q) (labels : list Z) (x : Q) :
  x ∈ xs → length labels = 5%nat →
  ∃ z, score_in (quantile_edges xs) labels x = Some z ∧ z ∈ labels.
Proof.
  intros Hx Hlen. destruct (bin_of_quantile_edges xs x Hx) as (i & Hi & Hlt).
  unfold score_in. rewrite Hi. cbn [mbind option_bind].
  destruct (lookup_lt_is_Some_2 labels i) as [z Hz]; [lia|].
  exists z. split; [done|]. by eapply list_elem_of_lookup_2.
Qed.

(** A higher value never falls in a lower bin. *)
Lemma bin_of_mono (es : list edge) (x y : Q) (i j : nat) :
  (x <= y)%Q →
  bin_of es true (Some x) = Some i → bin_of es true (Some y) = Some j → (i ≤ j)%nat.
Proof.
  intros Hxy. unfold bin_of. cbn [mbind option_bind].
  pose proof (searchsorted_left_mono es x y Hxy) as Hmono.
  destruct (head es) as [b|] eqn:Hhd; cbn [from_option andb].
  2:{ intros Hi Hj. repeat case_match; simplify_eq; lia. }
  destruct (edge_is b x) eqn:Hbx.
  { intros Hi Hj. repeat case_match; simplify_eq; lia. }
  destruct (edge_is b y) eqn:Hby.
  - (* y is the lowest edge and x is below it: x has no bin *)
    intros Hi _. exfalso. destruct b as [q| |]; simpl in Hby; try done.
    apply Qeq_bool_iff in Hby.
    assert (searchsorted_left es x = 0%nat) as Hs.
    { destruct es as [|b es']; [done|]. injection Hhd as ->. simpl. unfold Qltb.
      assert (Qle_bool x q = true) as ->; [|done].
      apply Qle_bool_iff. by rewrite Hby. }
    rewrite Hs in Hi. by rewrite orb_true_r in Hi.
  - intros Hi Hj. repeat case_match; simplify_eq; lia.
Qed.

(** ** The scoring part, in closed form *)

Lemma r_scores_customers (rows : list Order) :
  map (λ v, x ← v; score_in (recency_edges rows) [5; 4; 3; 2; 1] x)
      (map (λ z, Some (inject_Z z)) (map (recency rows) (customers rows)))
  = map Some (map (r_score rows) (customers rows)).
Proof.
  rewrite !map_map. apply map_ext_in. intros c Hc. cbn [mbind option_bind]. unfold r_score.
  destruct (score_in_quantile_edges
              (map (λ c, inject_Z (recency rows c)) (customers rows)) [5; 4; 3; 2; 1]
              (inject_Z (recency rows c))) as (z & Hz & _); [|done|].
  - apply list_elem_of_fmap. exists c. split; [done | by apply list_elem_of_In].
  - unfold recency_edges. by rewrite Hz.
Qed.

Lemma m_scores_customers (rows : list Order) :
  map (λ v, x ← v; score_in (monetary_edges rows) [1; 2; 3; 4; 5] x)
      (map (λ c, Some (monetary rows c)) (customers rows))
  = map Some (map (m_score rows) (customers rows)).
Proof.
  rewrite !map_map. apply map_ext_in. intros c Hc. cbn [mbind option_bind]. unfold m_score.
  destruct (score_in_quantile_edges
              (map (monetary rows) (customers rows)) [1; 2; 3; 4; 5]
              (monetary rows c)) as (z & Hz & _); [|done|].
  - apply list_elem_of_fmap. exists c. split; [done | by apply list_elem_of_In].
  - unfold monetary_edges. by rewrite Hz.
Qed.

Lemma rfm_scores_metrics (rows : list Order) :
  rows ≠ [] →
  rfm_scores (metrics_frame rows)
  = if distinct_edges (recency_edges rows) && distinct_edges (monetary_edges rows)
    then Ok (scored_frame rows (map (r_score rows) (customers rows))
                               (map (m_score rows) (customers rows)))
    else Err (ValueError "Bin labels must be one fewer than the number of bin edges").
Proof.
  intros Hne. unfold rfm_scores, metrics_frame. frame_simpl.
  assert (customers rows ≠ []) as HK by (intros E; by apply customers_nil_inv in E).
  rewrite (qcut_five _ (map (λ z, Some (inject_Z z)) (map (recency rows) (customers rows))))
    by done.
  rewrite dropna_map_Some, (map_map (recency rows) inject_Z). fold (recency_edges rows).
  destruct (distinct_edges (recency_edges rows)); [|by rewrite bind_err].
  rewrite bind_ok, andb_true_l. frame_simpl.
  rewrite cut_frequency, f_scores_customers. frame_simpl.
  rewrite (qcut_five _ (map (λ c, Some (monetary rows c)) (customers rows))) by done.
  rewrite dropna_map_Some. fold (monetary_edges rows).
  destruct (distinct_edges (monetary_edges rows)); [|by rewrite bind_err].
  rewrite bind_ok. frame_simpl.
  rewrite r_scores_customers, m_scores_customers.
  do 4 (rewrite ?astype_int_Some; frame_simpl; cbn [series_add]).
  erewrite apply_rows_segment; [| reflexivity | |].
  - by rewrite bind_ok.
  - unfold nrows. frame_simpl. cbn [series_len].
    rewrite !length_zip_with, !length_map. lia.
  - intros E. apply (f_equal length) in E. simpl in E.
    rewrite !length_zip_with, !length_map in E.
    destruct (customers rows); [done|]. simpl in *. lia.
Qed.

Lemma rfm_table_closed_form (rows : list Order) :
  rfm_table (orders_frame rows)
  = if distinct_edges (recency_edges rows) && distinct_edges (monetary_edges rows)
    then Ok (scored_frame rows (map (r_score rows) (customers rows))
                               (map (m_score rows) (customers rows)))
    else Err (ValueError "Bin labels must be one fewer than the number of bin edges").
Proof.
  destruct rows as [|o rows]; [by rewrite rfm_table_empty|].
  rewrite rfm_table_orders by done. by apply rfm_scores_metrics.
Qed.

(** The rows of a returned table, with the scores in closed form. *)
Lemma rfm_table_rows_scores (rows : list Order) (t : DataFrame) :
  rfm_table (orders_frame rows) = Ok t →
  ∀ row, row ∈ iterrows t ↔
         ∃ c, c ∈ customers rows ∧ row = scored_row rows c (r_score rows c) (m_score rows c).
Proof.
  rewrite rfm_table_closed_form. destruct (_ && _); [|done]. intros [= <-] row.
  set (rs := map (r_score rows) (customers rows)).
  set (ms := map (m_score rows) (customers rows)).
  assert (nrows (scored_frame rows rs ms) = length (customers rows)) as Hn by done.
  assert (∀ i c, customers rows !! i = Some c →
            map (λ col, (col.1, series_get col.2 i)) (columns (scored_frame rows rs ms))
            = scored_row rows c (r_score rows c) (m_score rows c)) as Hrow.
  { intros i c Hc. apply scored_frame_row; [done| |].
    - unfold rs. change (map ?f ?l) with (f <$> l). by rewrite list_lookup_fmap, Hc.
    - unfold ms. change (map ?f ?l) with (f <$> l). by rewrite list_lookup_fmap, Hc. }
  rewrite elem_of_iterrows, Hn. split.
  - intros (i & Hi & ->). destruct (lookup_lt_is_Some_2 (customers rows) i Hi) as [c Hc].
    exists c. split; [by eapply list_elem_of_lookup_2 | by apply Hrow].
  - intros (c & Hc & ->). apply list_elem_of_lookup_1 in Hc as [i Hc].
    exists i. split; [by eapply lookup_lt_Some | symmetry; by apply Hrow].
Qed.

Lemma labels_desc_lookup (i j : nat) (a b : Z) :
  (i ≤ j)%nat → [5; 4; 3; 2; 1] !! i = Some a → [5; 4; 3; 2; 1] !! j = Some b → b ≤ a.
Proof.
  intros Hij Ha Hb.
  do 5 (destruct i as [|i]; [do 5 (destruct j as [|j]; simplify_eq/=; try lia); done|]).
  done.
Qed.

Lemma labels_asc_lookup (i j : nat) (a b : Z) :
  (i ≤ j)%nat → [1; 2; 3; 4; 5] !! i = Some a → [1; 2; 3; 4; 5] !! j = Some b → a ≤ b.
Proof.
  intros Hij Ha Hb.
  do 5 (destruct i as [|i]; [do 5 (destruct j as [|j]; simplify_eq/=; try lia); done|]).
  done.
Qed.

Lemma r_score_antitone (rows : list Order) (c c' : string) :
  c ∈ customers rows → c' ∈ customers rows →
  recency rows c ≤ recency rows c' → r_score rows c' ≤ r_score rows c.
Proof.
  intros Hc Hc' Hle. unfold r_score.
  set (xs := map (λ c, inject_Z (recency rows c)) (customers rows)).
  assert (∀ c, c ∈ customers rows → inject_Z (recency rows c) ∈ xs) as Hin
    by (intros c0 H0; apply list_elem_of_fmap; by exists c0).
  destruct (bin_of_quantile_edges xs _ (Hin c Hc)) as (i & Hi & Hi5).
  destruct (bin_of_quantile_edges xs _ (Hin c' Hc')) as (j & Hj & Hj5).
  assert (i ≤ j)%nat as Hij.
  { eapply bin_of_mono; [|exact Hi|exact Hj]. by rewrite <- Zle_Qle. }
  unfold score_in, recency_edges. fold xs. rewrite Hi, Hj. cbn [mbind option_bind].
  destruct (lookup_lt_is_Some_2 [5; 4; 3; 2; 1] i) as [a Ha]; [simpl; lia|].
  destruct (lookup_lt_is_Some_2 [5; 4; 3; 2; 1] j) as [b Hb]; [simpl; lia|].
  rewrite Ha, Hb. simpl. by eapply labels_desc_lookup.
Qed.

Lemma m_score_monotone (rows : list Order) (c c' : string) :
  c ∈ customers rows → c' ∈ customers rows →
  (monetary rows c <= monetary rows c')%Q → m_score rows c ≤ m_score rows c'.
Proof.
  intros Hc Hc' Hle. unfold m_score.
  set (xs := map (monetary rows) (customers rows)).
  assert (∀ c, c ∈ customers rows → monetary rows c ∈ xs) as Hin
    by (intros c0 H0; apply list_elem_of_fmap; by exists c0).
  destruct (bin_of_quantile_edges xs _ (Hin c Hc)) as (i & Hi & Hi5).
  destruct (bin_of_quantile_edges xs _ (Hin c' Hc')) as (j & Hj & Hj5).
  assert (i ≤ j)%nat as Hij by (by eapply bin_of_mono).
  unfold score_in, monetary_edges. fold xs. rewrite Hi, Hj. cbn [mbind option_bind].
  destruct (lookup_lt_is_Some_2 [1; 2; 3; 4; 5] i) as [a Ha]; [simpl; lia|].
  destruct (lookup_lt_is_Some_2 [1; 2; 3; 4; 5] j) as [b Hb]; [simpl; lia|].
  rewrite Ha, Hb. simpl. by eapply labels_asc_lookup.
Qed.

(** ** Extreme customers *)

Lemma head_quantile_edges (xs : list Q) :
  head (quantile_edges xs) = Some (quantile xs 0 5).
Proof. reflexivity. Qed.

Lemma bin_of_lowest (xs : list Q) (x : Q) :
  x ∈ xs → (∀ y, y ∈ xs → (x <= y)%Q) →
  bin_of (quantile_edges xs) true (Some x) = Some 0%nat.
Proof.
  intros Hx Hmin. assert (xs ≠ []) as Hne by (intros ->; by apply elem_of_nil in Hx).
  destruct (quantile_min xs Hne) as (e & He & (y & Hy & Hey) & Hle).
  unfold bin_of. cbn [mbind option_bind].
  rewrite head_quantile_edges, He, length_quantile_edges. cbn [from_option edge_is].
  assert (Qeq_bool e x = true) as ->; [|done].
  apply Qeq_bool_iff, Qle_antisym; [by apply Hle|].
  rewrite Hey. by apply Hmin.
Qed.

Lemma r_score_latest (rows : list Order) (c : string) :
  c ∈ customers rows → recency rows c = 0 → r_score rows c = 5.
Proof.
  intros Hc H0. unfold r_score, score_in, recency_edges.
  rewrite bin_of_lowest; [done| |].
  - apply list_elem_of_fmap. by exists c.
  - intros y Hy. apply list_elem_of_fmap in Hy as (c' & -> & Hc').
    rewrite <- Zle_Qle, H0. by apply recency_nonneg.
Qed.

Lemma m_score_lowest (rows : list Order) (c : string) :
  c ∈ customers rows →
  (∀ c', c' ∈ customers rows → (monetary rows c <= monetary rows c')%Q) →
  m_score rows c = 1.
Proof.
  intros Hc Hmin. unfold m_score, score_in, monetary_edges.
  rewrite bin_of_lowest; [done| |].
  - apply list_elem_of_fmap. by exists c.
  - intros y Hy. apply list_elem_of_fmap in Hy as (c' & -> & Hc'). by apply Hmin.
Qed.

(** Some customer has recency 0: one who ordered at the latest instant. *)
Lemma recency_zero_exists (rows : list Order) :
  rows ≠ [] → ∃ c, c ∈ customers rows ∧ recency rows c = 0.
Proof.
  intros Hne. destruct (latest_is_latest rows Hne) as [Hin Hmax].
  apply list_elem_of_fmap in Hin as (o & Ho & Hin).
  exists (customer_id o). split; [apply elem_of_customers; by exists o|].
  assert (o ∈ orders_of (customer_id o) rows) as Ho'
    by (unfold orders_of; by apply list_elem_of_filter).
  assert (orders_of (customer_id o) rows ≠ []) as Hne'
    by (intros E; rewrite E in Ho'; by apply elem_of_nil in Ho').
  destruct (latest_is_latest _ Hne') as [_ Hmax'].
  pose proof (Hmax' o Ho').
  assert (latest (orders_of (customer_id o) rows) ≤ latest rows).
  { destruct (latest_is_latest _ Hne') as [Hin' _].
    apply list_elem_of_fmap in Hin' as (o' & -> & Ho'').
    apply Hmax. by apply orders_of_subseteq in Ho''. }
  unfold recency. replace (latest rows - _) with 0 by lia. done.
Qed.

Lemma filter_length_eq {A : Type} (p : A → bool) (l : list A) :
  length (List.filter p l) = length l → List.filter p l = l ∧ Forall (λ x, p x = true) l.
Proof.
  induction l as [|a l IH]; simpl; [done|].
  pose proof (List.filter_length_le p l) as Hle.
  destruct (p a) eqn:Hp; simpl; intros Hlen; [|lia].
  destruct IH as [-> Hall]; [lia|]. split; [done | by constructor].
Qed.

(** A list as long as its list of distinct values has no two equal values. *)
Lemma unique_by_full {A : Type} (eqb : A → A → bool) (l : list A) :
  length (unique_by eqb l) = length l →
  unique_by eqb l = l ∧
  ∀ i j a b, (i < j)%nat → l !! i = Some a → l !! j = Some b → eqb a b = false.
Proof.
  induction l as [|a0 l IH]; [done|]. simpl. intros Hlen.
  pose proof (List.filter_length_le (λ b, negb (eqb a0 b)) (unique_by eqb l)) as Hle.
  pose proof (length_unique_by eqb l) as Hle'.
  destruct IH as [Hu Hpair]; [lia|]. rewrite Hu in Hlen |- *.
  destruct (filter_length_eq (λ b, negb (eqb a0 b)) l) as [-> Hall]; [lia|].
  split; [done|]. intros [|i] [|j] a b Hij Ha Hb; try lia; simpl in *.
  - injection Ha as <-. rewrite Forall_forall in Hall.
    apply negb_true_iff, Hall. by eapply list_elem_of_lookup_2.
  - eapply (Hpair i j); [lia|done..].
Qed.

Lemma lerp_le (a b g m : Q) :
  (a <= m → b <= m → 0 <= g → g <= 1 → a + (b - a) * g <= m)%Q.
Proof. intros. nra. Qed.

(** No quantile exceeds a bound of the values. *)
Lemma quantile_le_bound (xs : list Q) (k : nat) (e m : Q) :
  quantile xs k 5 = Fin e → (∀ x, x ∈ xs → (x <= m)%Q) → (e <= m)%Q.
Proof.
  unfold quantile. pose proof (sort_values_perm xs) as Hp.
  destruct (sort_values xs) as [|v0 v]; [done|].
  set (n := length (v0 :: v)). set (pos := ((n - 1) * k)%nat).
  intros [= <-] Hm.
  assert (∀ i, (nth i (v0 :: v) v0 <= m)%Q) as Hnth.
  { intros i. apply Hm. rewrite <- Hp. apply nth_elem_of. left. }
  pose proof (Hnth (pos `div` 5)%nat) as Ha.
  pose proof (Hnth ((pos `div` 5 + 1) `min` (n - 1))%nat) as Hb.
  set (g := Z.of_nat (pos `mod` 5) # Pos.of_nat 5).
  assert (0 <= g)%Q as Hg0 by (unfold g, Qle; cbn [Qnum Qden]; lia).
  assert (g <= 1)%Q as Hg1.
  { unfold g, Qle. cbn [Qnum Qden]. change (Pos.of_nat 5) with 5%positive.
    pose proof (Nat.mod_upper_bound pos 5). lia. }
  by apply lerp_le.
Qed.

Lemma searchsorted_left_all (es : list edge) (x : Q) :
  Forall (λ b, edge_lt b x = true) es → searchsorted_left es x = length es.
Proof. induction 1 as [|b es Hb _ IH]; simpl; [done|]. by rewrite Hb, IH. Qed.

Lemma searchsorted_left_app (es es' : list edge) (x : Q) :
  Forall (λ b, edge_lt b x = true) es →
  searchsorted_left (es ++ es') x = (length es + searchsorted_left es' x)%nat.
Proof. induction 1 as [|b es Hb _ IH]; simpl; [done|]. by rewrite Hb, IH. Qed.

(** The greatest value falls in the last bin when the edges are distinct. *)
Lemma bin_of_highest (xs : list Q) (x : Q) :
  x ∈ xs → (∀ y, y ∈ xs → (y <= x)%Q) →
  distinct_edges (quantile_edges xs) = true →
  bin_of (quantile_edges xs) true (Some x) = Some 4%nat.
Proof.
  intros Hx Hmax Hd. assert (xs ≠ []) as Hne by (intros ->; by apply elem_of_nil in Hx).
  destruct (quantile_max xs Hne) as (e5 & He5 & (y & Hy & Hey) & Hle).
  assert (e5 == x)%Q as Hex by (apply Qle_antisym; [rewrite Hey; by apply Hmax | by apply Hle]).
  apply Nat.eqb_eq, unique_by_full in Hd as [_ Hd].
  set (es := quantile_edges xs) in *.
  assert (es = take 5 es ++ [Fin e5]) as Hes by (unfold es, quantile_edges; simpl; by rewrite He5).
  assert (Forall (λ b, edge_lt b x = true) (take 5 es)) as Hbelow.
  { apply Forall_lookup_2. intros i b Hb.
    apply lookup_take_Some in Hb as [Hb Hi].
    assert (edge_eqb b (Fin e5) = false) as Hne5.
    { apply (Hd i 5%nat); [lia|done|]. unfold es, quantile_edges. simpl. by rewrite He5. }
    unfold es, quantile_edges in Hb. change (map ?f ?l) with (f <$> l) in Hb.
    rewrite list_lookup_fmap in Hb.
    destruct (seq 0 6 !! i) as [k|] eqn:Hk; [|done]. simpl in Hb. injection Hb as <-.
    destruct (quantile xs k 5) as [e| |] eqn:Hq.
    - simpl in *. unfold Qltb. apply negb_true_iff.
      destruct (Qle_bool x e) eqn:Hxe; [|done]. exfalso.
      apply Qle_bool_iff in Hxe. apply not_true_iff_false in Hne5. apply Hne5.
      apply Qeq_bool_iff. rewrite Hex. apply Qle_antisym; [|done].
      by apply (quantile_le_bound xs k).
    - exfalso. unfold quantile in Hq. by destruct (sort_values xs).
    - exfalso. unfold quantile in Hq. pose proof (sort_values_perm xs) as Hp.
      destruct (sort_values xs); [by apply Permutation_nil in Hp | done]. }
  unfold bin_of. cbn [mbind option_bind].
  assert (searchsorted_left es x = 5%nat) as ->.
  { rewrite Hes, searchsorted_left_app by done. rewrite length_take.
    assert (length es = 6%nat) as -> by done. simpl. unfold Qltb.
    assert (Qle_bool x e5 = true) as ->; [|done]. apply Qle_bool_iff. rewrite Hex. apply Qle_refl. }
  assert (length es = 6%nat) as -> by done.
  destruct (head es) as [b|] eqn:Hhd; [|done]. cbn [from_option andb].
  destruct (edge_is b x) eqn:Hbx; [|done]. exfalso.
  (* the lowest edge is below the highest *)
  assert (edge_eqb b (Fin e5) = false) as Hne5.
  { apply (Hd 0%nat 5%nat); [lia| |].
    - by destruct es.
    - unfold es, quantile_edges. simpl. by rewrite He5. }
  destruct b as [q| |]; simpl in *; try done.
  apply Qeq_bool_iff in Hbx. apply not_true_iff_false in Hne5. apply Hne5.
  apply Qeq_bool_iff. by rewrite Hbx, Hex.
Qed.

Lemma r_score_oldest (rows : list Order) (c : string) :
  c ∈ customers rows →
  (∀ c', c' ∈ customers rows → recency rows c' ≤ recency rows c) →
  distinct_edges (recency_edges rows) = true →
  r_score rows c = 1.
Proof.
  intros Hc Hmax Hd. unfold r_score, score_in. unfold recency_edges in *.
  rewrite bin_of_highest; [done| | |done].
  - apply list_elem_of_fmap. by exists c.
  - intros y Hy. apply list_elem_of_fmap in Hy as (c' & -> & Hc').
    rewrite <- Zle_Qle. by apply Hmax.
Qed.

Lemma m_score_highest (rows : list Order) (c : string) :
  c ∈ customers rows →
  (∀ c', c' ∈ customers rows → (monetary rows c' <= monetary rows c)%Q) →
  distinct_edges (monetary_edges rows) = true →
  m_score rows c = 5.
Proof.
  intros Hc Hmax Hd. unfold m_score, score_in. unfold monetary_edges in *.
  rewrite bin_of_highest; [done| | |done].
  - apply list_elem_of_fmap. by exists c.
  - intros y Hy. apply list_elem_of_fmap in Hy as (c' & -> & Hc'). by apply Hmax.
Qed.

(** ** What the analysis reads *)

Lemma groupby_agg_ext (d d' : DataFrame) (key col : string) (f : Series → result value) :
  getcol d key = getcol d' key → getcol d col = getcol d' col →
  groupby_agg d key col f = groupby_agg d' key col f.
Proof. intros Hk Hc. unfold groupby_agg. by rewrite Hk, Hc. Qed.

Lemma rfm_metrics_ext (d d' : DataFrame) :
  getcol d "order_purchase_timestamp" = getcol d' "order_purchase_timestamp" →
  getcol d "customer_id" = getcol d' "customer_id" →
  getcol d "order_id" = getcol d' "order_id" →
  getcol d "total_spent" = getcol d' "total_spent" →
  rfm_metrics d = rfm_metrics d'.
Proof.
  intros Ht Hc Ho Hs. unfold rfm_metrics. rewrite Ht.
  rewrite (groupby_agg_ext d d' "customer_id" "order_id") by done.
  rewrite (groupby_agg_ext d d' "customer_id" "total_spent") by done.
  destruct (getcol d' "order_purchase_timestamp") as [ts|] eqn:Ht'; [|done]. rewrite !bind_ok.
  destruct (series_max ts) as [latest_date|]; [|done]. rewrite !bind_ok.
  rewrite (groupby_agg_ext d d' "customer_id" "order_purchase_timestamp") by congruence.
  reflexivity.
Qed.

Lemma getcol_missing (d : DataFrame) (name : string) :
  lookup_col name (columns d) = None → getcol d name = Err (KeyError name).
Proof. unfold getcol. by intros ->. Qed.


(** ** The order of the input rows *)

Lemma customers_perm (rows rows' : list Order) :
  rows ≡ₚ rows' → customers rows = customers rows'.
Proof.
  intros Hp. apply group_keys_perm. intros k. by rewrite Hp.
Qed.

Lemma latest_perm (rows rows' : list Order) : rows ≡ₚ rows' → latest rows = latest rows'.
Proof.
  intros Hp. destruct rows as [|o rows].
  { apply Permutation_nil_l in Hp. by subst. }
  assert (rows' ≠ []) as Hne' by (intros ->; by apply Permutation_nil_r in Hp).
  apply (is_latest_unique (o :: rows)); [by apply latest_is_latest|].
  destruct (latest_is_latest rows' Hne') as [Hin Hmax]. split.
  - by rewrite Hp.
  - intros o' Ho'. apply Hmax. by rewrite <- Hp.
Qed.

Lemma orders_of_perm (rows rows' : list Order) (c : string) :
  rows ≡ₚ rows' → orders_of c rows ≡ₚ orders_of c rows'.
Proof. intros Hp. unfold orders_of. by rewrite Hp. Qed.

Lemma recency_perm (rows rows' : list Order) (c : string) :
  rows ≡ₚ rows' → recency rows c = recency rows' c.
Proof.
  intros Hp. unfold recency.
  by rewrite (latest_perm rows rows' Hp), (latest_perm _ _ (orders_of_perm rows rows' c Hp)).
Qed.

Lemma frequency_perm (rows rows' : list Order) (c : string) :
  rows ≡ₚ rows' → frequency rows c = frequency rows' c.
Proof.
  intros Hp. rewrite !frequency_distinct_orders. unfold distinct_orders.
  do 2 f_equal. apply list_to_set_perm_L. by rewrite (orders_of_perm rows rows' c Hp).
Qed.

Lemma recency_edges_perm (rows rows' : list Order) :
  rows ≡ₚ rows' → recency_edges rows = recency_edges rows'.
Proof.
  intros Hp. unfold recency_edges. rewrite (customers_perm rows rows' Hp).
  f_equal. apply map_ext. intros c. by rewrite (recency_perm rows rows' c Hp).
Qed.

Lemma r_score_perm (rows rows' : list Order) (c : string) :
  rows ≡ₚ rows' → r_score rows c = r_score rows' c.
Proof.
  intros Hp. unfold r_score.
  by rewrite (recency_edges_perm rows rows' Hp), (recency_perm rows rows' c Hp).
Qed.

(** ** Sums *)

Lemma Qsum_add {A : Type} (f g : A → Q) (K : list A) :
  (foldr Qplus 0 (map (λ c, f c + g c) K)
   == foldr Qplus 0 (map f K) + foldr Qplus 0 (map g K))%Q.
Proof. induction K as [|c K IH]; simpl; [ring | rewrite IH; ring]. Qed.

Lemma Qsum_ext {A : Type} (f g : A → Q) (K : list A) :
  (∀ c, c ∈ K → (f c == g c)%Q) →
  (foldr Qplus 0 (map f K) == foldr Qplus 0 (map g K))%Q.
Proof.
  induction K as [|c K IH]; intros H; simpl; [reflexivity|].
  rewrite (H c) by left. rewrite IH; [reflexivity|]. intros c' Hc'. apply H. by right.
Qed.

Lemma Qsum_indicator (K : list string) (k : string) (v : Q) :
  NoDup K →
  (foldr Qplus 0 (map (λ c, if decide (k = c) then v else 0) K)
   == if decide (k ∈ K) then v else 0)%Q.
Proof.
  induction 1 as [|c K Hc _ IH]; simpl; [reflexivity|]. rewrite IH.
  destruct (decide (k = c)) as [->|Hne].
  - rewrite (decide_True (P := c ∈ c :: K)) by left.
    rewrite (decide_False (P := c ∈ K)) by done. ring.
  - destruct (decide (k ∈ K)) as [Hk|Hk].
    + rewrite (decide_True (P := k ∈ c :: K)) by (by right). ring.
    + rewrite (decide_False (P := k ∈ c :: K)); [ring|].
      intros [?|?]%elem_of_cons; by simplify_eq.
Qed.

Lemma monetary_cons (o : Order) (rows : list Order) (c : string) :
  (foldr Qplus 0 (map total_spent (orders_of c (o :: rows)))
   == (if decide (customer_id o = c) then total_spent o else 0)
      + foldr Qplus 0 (map total_spent (orders_of c rows)))%Q.
Proof.
  unfold orders_of. rewrite filter_cons.
  destruct (decide (customer_id o = c)); simpl; ring.
Qed.

(** Summing by customer counts every row once. *)
Lemma Qsum_by_customer (K : list string) (rows : list Order) :
  NoDup K → (∀ o, o ∈ rows → customer_id o ∈ K) →
  (foldr Qplus 0 (map (λ c, foldr Qplus 0 (map total_spent (orders_of c rows))) K)
   == foldr Qplus 0 (map total_spent rows))%Q.
Proof.
  intros HK. induction rows as [|o rows IH]; intros Hin.
  - simpl. clear HK Hin. induction K as [|c K IHK]; simpl; [reflexivity|].
    rewrite IHK. ring.
  - rewrite (Qsum_ext _ _ K (λ c _, monetary_cons o rows c)).
    rewrite (Qsum_add (λ c, if decide (customer_id o = c) then total_spent o else 0%Q)
                      (λ c, foldr Qplus 0%Q (map total_spent (orders_of c rows)))).
    rewrite Qsum_indicator by done. rewrite decide_True by (apply Hin; left).
    rewrite IH by (intros o' Ho'; apply Hin; by right). simpl. ring.
Qed.

Lemma monetary_total (rows : list Order) :
  (foldr Qplus 0 (map (monetary rows) (customers rows))
   == foldr Qplus 0 (map total_spent rows))%Q.
Proof.
  apply Qsum_by_customer.
  - apply NoDup_group_keys.
  - intros o Ho. apply elem_of_customers. by exists o.
Qed.

(** A customer's total is the prices plus the freight. *)
Lemma monetary_price_freight (rows : list Order) (c : string) :
  (monetary rows c
   == foldr Qplus 0 (map price (orders_of c rows))
      + foldr Qplus 0 (map freight_value (orders_of c rows)))%Q.
Proof.
  unfold monetary, total_spent. apply (Qsum_add price freight_value).
Qed.

(** ** [preprocess_data] on the heap *)

Lemma lookup_col_assign (name : string) (s : Series) (cols : list (string * Series)) :
  lookup_col name (assign_col name s cols) = Some s.
Proof.
  induction cols as [|[n s'] cols IH]; simpl; [by rewrite String.eqb_refl|].
  destruct (String.eqb n name) eqn:E; simpl; by rewrite E.
Qed.

Lemma lookup_col_assign_ne (name name' : string) (s : Series) (cols : list (string * Series)) :
  name ≠ name' → lookup_col name' (assign_col name s cols) = lookup_col name' cols.
Proof.
  intros Hne. induction cols as [|[n s'] cols IH]; simpl.
  - by rewrite (proj2 (String.eqb_neq _ _) Hne).
  - destruct (String.eqb n name) eqn:E; simpl; [|by rewrite IH].
    apply String.eqb_eq in E as ->.
    by rewrite (proj2 (String.eqb_neq _ _) Hne).
Qed.

Lemma assign_col_same (name : string) (s : Series) (cols : list (string * Series)) :
  lookup_col name cols = Some s → assign_col name s cols = cols.
Proof.
  induction cols as [|[n s'] cols IH]; simpl; [done|].
  destruct (String.eqb n name) eqn:E; [by intros [= ->] | intros H; by rewrite IH].
Qed.

Lemma getcol_assign (d : DataFrame) (name : string) (s : Series) :
  getcol (assign d name s) name = Ok s.
Proof. unfold getcol, assign. simpl. by rewrite lookup_col_assign. Qed.

Lemma getcol_assign_ne (d : DataFrame) (name name' : string) (s : Series) :
  name ≠ name' → getcol (assign d name s) name' = getcol d name'.
Proof. intros. unfold getcol, assign. simpl. by rewrite lookup_col_assign_ne. Qed.

Lemma assign_same (d : DataFrame) (name : string) (s : Series) :
  getcol d name = Ok s → assign d name s = d.
Proof.
  unfold getcol, assign. destruct (lookup_col name (columns d)) eqn:E; [|done].
  intros [= ->]. rewrite assign_col_same by done. by destruct d.
Qed.

Section heap_cell.
Context (h : heap) (l : loc) (d : DataFrame) (Hl : h !! l = Some d).

Lemma getitem_cell name : getitem l name h = (getcol d name, h).
Proof using Hl. unfold getitem, deref. by rewrite bind_run, Hl. Qed.

Lemma setitem_cell name s : setitem l name s h = (Ok (), <[l := assign d name s]> h).
Proof using Hl. unfold setitem, update. by rewrite Hl. Qed.

Lemma lookup_cell d' : <[l := d']> h !! l = Some d'.
Proof using Hl. apply list_lookup_insert_eq. by eapply lookup_lt_Some. Qed.
End heap_cell.

Section preprocess_lemmas.
Variable parse_datetime : string → option Z.
Variable period_month : Z → string.

(** A run of [preprocess_data], statement by statement: the object is
    overwritten as the assignments go, also when a later one raises. *)
Lemma preprocess_data_run (h : heap) (l : loc) (d : DataFrame) :
  h !! l = Some d →
  preprocess_data parse_datetime period_month l h
  = match parsed_frame parse_datetime d with
    | Err e => (Err e, h)
    | Ok d1 =>
        match month_frame period_month d1 with
        | Err e => (Err e, <[l := d1]> h)
        | Ok d2 =>
            match total_frame d2 with
            | Err e => (Err e, <[l := d2]> h)
            | Ok d3 => (Ok l, <[l := d3]> h)
            end
        end
    end.
Proof.
  intros Hl. unfold preprocess_data, parsed_frame, month_frame, total_frame.
  rewrite bind_run, (getitem_cell _ _ _ Hl).
  destruct (getcol d "order_purchase_timestamp") as [ts|]; [|done]. rewrite bind_ok.
  rewrite bind_run, lift_run.
  destruct (to_datetime parse_datetime ts) as [ts'|]; [|done]. rewrite bind_ok.
  rewrite bind_run, (setitem_cell _ _ _ Hl).
  set (d1 := assign d "order_purchase_timestamp" ts').
  pose proof (lookup_cell h l d Hl d1) as Hl1.
  rewrite bind_run, (getitem_cell _ _ _ Hl1).
  destruct (getcol d1 "order_purchase_timestamp") as [ts1|]; [|done]. rewrite bind_ok.
  rewrite bind_run, lift_run.
  destruct (dt_month_str period_month ts1) as [month|]; [|done]. rewrite bind_ok.
  rewrite bind_run, (setitem_cell _ _ _ Hl1), list_insert_insert_eq.
  set (d2 := assign d1 "month" month).
  pose proof (lookup_cell h l d Hl d2) as Hl2.
  rewrite bind_run, (getitem_cell _ _ _ Hl2).
  destruct (getcol d2 "price") as [price|]; [|done]. rewrite bind_ok.
  rewrite bind_run, (getitem_cell _ _ _ Hl2).
  destruct (getcol d2 "freight_value") as [freight|]; [|done]. rewrite bind_ok.
  rewrite bind_run, lift_run.
  destruct (series_plus price freight) as [total|]; [|done]. rewrite bind_ok.
  by rewrite bind_run, (setitem_cell _ _ _ Hl2), list_insert_insert_eq.
Qed.

Lemma to_datetime_inv (s s' : Series) :
  to_datetime parse_datetime s = Ok s' → ∃ l, s' = Datetime64 l.
Proof. destruct s; simpl; intros [= <-]; by eexists. Qed.

(** A frame that went through the three assignments goes through them
    again unchanged. *)
Lemma preprocessed_fixed (d d1 d2 d3 : DataFrame) :
  parsed_frame parse_datetime d = Ok d1 →
  month_frame period_month d1 = Ok d2 →
  total_frame d2 = Ok d3 →
  parsed_frame parse_datetime d3 = Ok d3 ∧
  month_frame period_month d3 = Ok d3 ∧
  total_frame d3 = Ok d3.
Proof.
  unfold parsed_frame, month_frame, total_frame. intros H1 H2 H3.
  destruct (getcol d "order_purchase_timestamp") as [ts|]; [|done]. rewrite bind_ok in H1.
  destruct (to_datetime parse_datetime ts) as [ts'|] eqn:Hts; [|done]. rewrite bind_ok in H1.
  injection H1 as <-. apply to_datetime_inv in Hts as [stamps ->].
  rewrite getcol_assign, bind_ok in H2.
  destruct (dt_month_str period_month (Datetime64 stamps)) as [month|] eqn:Hm; [|done].
  rewrite bind_ok in H2. injection H2 as <-.
  destruct (getcol _ "price") as [price|] eqn:Hp; [|done]. rewrite bind_ok in H3.
  destruct (getcol _ "freight_value") as [freight|] eqn:Hf; [|done]. rewrite bind_ok in H3.
  destruct (series_plus price freight) as [total|] eqn:Ht; [|done]. rewrite bind_ok in H3.
  injection H3 as <-.
  set (d1 := assign d "order_purchase_timestamp" (Datetime64 stamps)) in *.
  set (d2 := assign d1 "month" month) in *.
  set (d3 := assign d2 "total_spent" total).
  assert (getcol d3 "order_purchase_timestamp" = Ok (Datetime64 stamps)) as Hts3.
  { unfold d3, d2. rewrite !getcol_assign_ne by done. apply getcol_assign. }
  assert (getcol d3 "month" = Ok month) as Hm3.
  { unfold d3. rewrite getcol_assign_ne by done. apply getcol_assign. }
  assert (getcol d3 "price" = Ok price) as Hp3.
  { unfold d3. by rewrite getcol_assign_ne by done. }
  assert (getcol d3 "freight_value" = Ok freight) as Hf3.
  { unfold d3. by rewrite getcol_assign_ne by done. }
  assert (getcol d3 "total_spent" = Ok total) as Ht3 by apply getcol_assign.
  rewrite Hts3, Hp3, Hf3, !bind_ok. cbn [to_datetime]. rewrite !bind_ok, Hm, Ht, !bind_ok.
  by rewrite !assign_same.
Qed.

(** What [preprocess_data] makes of a table read from the file holds the four
    columns of the order table it describes. *)
Lemma total_spent_column (rows : list Order) :
  zip_with (λ x y : option Q, x ← x; y ← y; Some (x + y)%Q)
    (map (λ o, Some (price o)) rows) (map (λ o, Some (freight_value o)) rows)
  = map (λ o, Some (total_spent o)) rows.
Proof. induction rows as [|o rows IH]; simpl; [done | by rewrite IH]. Qed.

Lemma preprocessed_raw_frame (stamps : list string) (rows : list Order) :
  map parse_datetime stamps = map (λ o, Some (order_purchase_timestamp o)) rows →
  ∃ d3, preprocessed parse_datetime period_month (raw_frame stamps rows) = Ok d3 ∧
        getcol d3 "order_purchase_timestamp"
        = getcol (orders_frame rows) "order_purchase_timestamp" ∧
        getcol d3 "customer_id" = getcol (orders_frame rows) "customer_id" ∧
        getcol d3 "order_id" = getcol (orders_frame rows) "order_id" ∧
        getcol d3 "total_spent" = getcol (orders_frame rows) "total_spent".
Proof.
  intros Hs. eexists. split.
  - unfold preprocessed, parsed_frame, month_frame, total_frame.
    cbn. rewrite Hs, total_spent_column. reflexivity.
  - done.
Qed.

End preprocess_lemmas.

(** ** Positions *)

Lemma take_at_Forall2 {A : Type} (p : list nat) (l : list A) :
  Forall (λ i, (i < length l)%nat) p → Forall2 (λ i x, l !! i = Some x) p (take_at p l).
Proof.
  unfold take_at. induction 1 as [|i p Hi _ IH]; simpl; [constructor|].
  destruct (lookup_lt_is_Some_2 l i Hi) as [x Hx]. rewrite Hx. simpl. by constructor.
Qed.

Lemma take_at_lookup {A : Type} (p : list nat) (l : list A) (i j : nat) (x : A) :
  Forall (λ i, (i < length l)%nat) p →
  p !! i = Some j → l !! j = Some x → take_at p l !! i = Some x.
Proof.
  intros Hp Hi Hj. destruct (Forall2_lookup_l _ _ _ _ _ (take_at_Forall2 p l Hp) Hi) as (y & Hy & Hjy).
  congruence.
Qed.

Lemma take_at_lookup_inv {A : Type} (p : list nat) (l : list A) (i : nat) (x : A) :
  Forall (λ i, (i < length l)%nat) p →
  take_at p l !! i = Some x → ∃ j, p !! i = Some j ∧ l !! j = Some x.
Proof.
  intros Hp Hi. destruct (Forall2_lookup_r _ _ _ _ _ (take_at_Forall2 p l Hp) Hi) as (j & Hj & Hjx).
  by exists j.
Qed.

Lemma length_take_at {A : Type} (p : list nat) (l : list A) :
  Forall (λ i, (i < length l)%nat) p → length (take_at p l) = length p.
Proof. intros Hp. symmetry. by eapply Forall2_length, take_at_Forall2. Qed.

Lemma take_at_fmap {A B : Type} (f : A → B) (p : list nat) (l : list A) :
  take_at p (map f l) = map f (take_at p l).
Proof.
  unfold take_at. change (map f l) with (f <$> l).
  induction p as [|i p IH]; [done|]. cbn [omap list_omap].
  rewrite list_lookup_fmap. destruct (l !! i); cbn [fmap option_fmap option_map]; by rewrite IH.
Qed.

Lemma take_at_positions (p : list nat) (n : nat) :
  Forall (λ i, (i < n)%nat) p → take_at p (seq 0 n) = p.
Proof.
  unfold take_at. induction 1 as [|i p Hi _ IH]; [done|]. cbn [omap list_omap].
  rewrite (proj2 (lookup_seq 0 n i i)) by done. by rewrite IH.
Qed.

Lemma take_at_first {A : Type} (k : nat) (l : list A) : take_at (seq 0 k) l = take k l.
Proof.
  destruct (decide (k ≤ length l)%nat) as [Hk|Hk].
  - rewrite <- (take_drop k l) at 1.
    pose proof (take_at_Forall2 (seq 0 k) (take k l ++ drop k l)) as H.
    apply list_eq. intros i. destruct (decide (i < k)%nat) as [Hi|Hi].
    + destruct (lookup_lt_is_Some_2 (take k l) i) as [x Hx]; [rewrite length_take; lia|].
      rewrite Hx. eapply take_at_lookup.
      * apply Forall_forall. intros j Hj%elem_of_seq. rewrite take_drop. lia.
      * apply lookup_seq. split; [done | lia].
      * by apply lookup_app_l_Some.
    + rewrite !lookup_ge_None_2; [done| |].
      * rewrite length_take. lia.
      * rewrite length_take_at, length_seq; [lia|].
        apply Forall_forall. intros j Hj%elem_of_seq. rewrite take_drop. lia.
  - rewrite take_ge by lia. replace k with (length l + (k - length l))%nat by lia.
    rewrite seq_app. unfold take_at. rewrite omap_app. fold (take_at (seq 0 (length l)) l).
    rewrite take_at_all. simpl.
    assert (omap (λ i, l !! i) (seq (length l) (k - length l)) = []) as ->; [|by rewrite app_nil_r].
    generalize (k - length l)%nat. intros m.
    assert (∀ j, (length l ≤ j)%nat → omap (λ i, l !! i) (seq j m) = []) as H; [|by apply H].
    induction m as [|m IH]; intros j Hj; simpl; [done|].
    rewrite lookup_ge_None_2 by done. apply IH. lia.
Qed.

Lemma take_take_at {A : Type} (k : nat) (p : list nat) (l : list A) :
  Forall (λ i, (i < length l)%nat) p → take k (take_at p l) = take_at (take k p) l.
Proof.
  intros Hp. revert k. unfold take_at.
  induction Hp as [|i p Hi _ IH]; intros [|k]; simpl; try done.
  destruct (lookup_lt_is_Some_2 l i Hi) as [x Hx]. rewrite Hx. simpl. by rewrite IH.
Qed.

(** ** The stable sort sorts *)

Lemma pair_desc_transitive :
  Transitive (λ a b : nat * Q, Is_true (Qle_bool b.2 a.2)).
Proof.
  intros a b c Hab Hbc. apply Is_true_eq_left, Qle_bool_iff.
  apply Is_true_eq_true, Qle_bool_iff in Hab, Hbc. by eapply Qle_trans.
Qed.

Lemma pair_desc_total : Total (λ a b : nat * Q, Is_true (Qle_bool b.2 a.2)).
Proof.
  intros a b. destruct (Qlt_le_dec a.2 b.2) as [H|H].
  - right. by apply Is_true_eq_left, Qle_bool_iff, Qlt_le_weak.
  - left. by apply Is_true_eq_left, Qle_bool_iff.
Qed.

Lemma StronglySorted_lookup {A : Type} (R : A → A → Prop) (l : list A) (i j : nat) (a b : A) :
  StronglySorted R l → (i < j)%nat → l !! i = Some a → l !! j = Some b → R a b.
Proof.
  intros Hs. revert i j. induction Hs as [|x l _ IH Hall]; intros i j Hij Hi Hj; [done|].
  destruct i as [|i], j as [|j]; try lia; simpl in *.
  - injection Hi as <-. rewrite Forall_forall in Hall. apply Hall.
    by eapply list_elem_of_lookup_2.
  - apply (IH i j); [lia|done..].
Qed.

Lemma stable_argsort_desc_sorts : sorts_descending stable_argsort_desc.
Proof.
  intros xs. unfold stable_argsort_desc.
  set (s := merge_sort _ (imap pair xs)).
  assert (s ≡ₚ imap pair xs) as Hp by apply merge_sort_Permutation.
  assert (StronglySorted (λ a b : nat * Q, Is_true (Qle_bool b.2 a.2)) s) as Hs
    by (apply StronglySorted_merge_sort; [apply pair_desc_transitive | apply pair_desc_total]).
  assert (∀ i a x, s !! i = Some (a, x) → xs !! a = Some x) as Hel.
  { intros i a x Hi. apply list_elem_of_lookup_2 in Hi. rewrite Hp in Hi.
    apply list_elem_of_lookup_1 in Hi as [k Hk].
    rewrite list_lookup_imap in Hk. destruct (xs !! k) eqn:E; simplify_eq/=. done. }
  split.
  - rewrite Hp, fmap_imap. apply (reflexive_eq (R:=(≡ₚ))).
    rewrite <- (list_fmap_id (seq 0 (length xs))). apply (imap_seq_0 xs id).
  - intros i j a b x y Hij Ha Hb Hx Hy.
    rewrite list_lookup_fmap in Ha, Hb.
    destruct (s !! i) as [[a' x']|] eqn:Hi; simplify_eq/=.
    destruct (s !! j) as [[b' y']|] eqn:Hj; simplify_eq/=.
    pose proof (Hel _ _ _ Hi). pose proof (Hel _ _ _ Hj). simplify_eq.
    destruct (decide (i = j)) as [->|Hne]; [simplify_eq; apply Qle_refl|].
    apply Qle_bool_iff, Is_true_eq_true.
    apply (StronglySorted_lookup _ s i j (a, x) (b, y) Hs); [lia|done..].
Qed.

Section sort_lemmas.
Context (argsort_desc : list Q → list nat) (Hsort : sorts_descending argsort_desc).

Lemma argsort_desc_perm (xs : list Q) : argsort_desc xs ≡ₚ seq 0 (length xs).
Proof using Hsort. apply Hsort. Qed.

Lemma argsort_desc_valid (xs : list Q) :
  Forall (λ i, (i < length xs)%nat) (argsort_desc xs).
Proof using Hsort.
  apply Forall_forall. intros i Hi. rewrite argsort_desc_perm in Hi.
  apply elem_of_seq in Hi. lia.
Qed.

Lemma length_argsort_desc (xs : list Q) : length (argsort_desc xs) = length xs.
Proof using Hsort. by rewrite argsort_desc_perm, length_seq. Qed.

Lemma NoDup_argsort_desc (xs : list Q) : NoDup (argsort_desc xs).
Proof using Hsort. rewrite argsort_desc_perm. apply NoDup_seq. Qed.

Lemma take_at_argsort_perm {A : Type} (xs : list Q) (l : list A) :
  length l = length xs → take_at (argsort_desc xs) l ≡ₚ l.
Proof using Hsort.
  intros Hlen. unfold take_at. rewrite argsort_desc_perm, <- Hlen.
  fold (take_at (seq 0 (length l)) l). by rewrite take_at_all.
Qed.

(** With no missing value, the order is the order of the sort. *)
Lemma nargsort_desc_Some (vals : list Q) :
  nargsort_desc argsort_desc (map Some vals) = argsort_desc vals.
Proof using Hsort.
  unfold nargsort_desc. rewrite (dropna_map_Some id), map_id, length_map.
  assert (∀ i, i ∈ seq 0 (length vals) → is_missing (map Some vals) i = false) as Hm.
  { intros i Hi%elem_of_seq. unfold is_missing. change (map Some vals) with (Some <$> vals).
    rewrite list_lookup_fmap. destruct (lookup_lt_is_Some_2 vals i) as [x ->]; [lia | done]. }
  rewrite (filter_none (is_missing _)) by done. rewrite app_nil_r.
  assert (List.filter (λ i, negb (is_missing (map Some vals) i)) (seq 0 (length vals))
          = seq 0 (length vals)) as ->.
  { apply filter_length_eq. clear -Hm. induction (seq 0 (length vals)) as [|i l IH]; [done|].
    simpl. rewrite Hm by left. simpl. f_equal. apply IH. intros j Hj. apply Hm. by right. }
  apply take_at_positions, argsort_desc_valid.
Qed.

Lemma series_take_first (k : nat) (p : list nat) (s : Series) :
  Forall (λ i, (i < series_len s)%nat) p →
  series_take (seq 0 k) (series_take p s) = series_take (take k p) s.
Proof.
  intros Hp. destruct s; simpl in *; by rewrite take_at_first, take_take_at.
Qed.

(** Sorting a table of keys and values and keeping its first rows. *)
Lemma sort_head (vname : string) (K : list string) (s : Series) (vals : list Q) (n : Z) :
  String.eqb "customer_id" vname = false →
  s = Float64 (map Some vals) ∨ (∃ zs, s = Int64 zs ∧ vals = map inject_Z zs) →
  length K = length vals →
  (t ← sort_values_desc argsort_desc
         {| index := None; columns := [("customer_id", Object K); (vname, s)] |} vname;
   Ok (head_rows t n))
  = Ok {| index := Some ("", Int64 (map Z.of_nat (top_positions argsort_desc vals n)));
          columns := [("customer_id", Object (take_at (top_positions argsort_desc vals n) K));
                      (vname, series_take (top_positions argsort_desc vals n) s)] |}.
Proof using Hsort.
  intros Hne Hs Hlen. unfold sort_values_desc, getcol. cbn [columns lookup_col index].
  rewrite Hne, String.eqb_refl, bind_ok.
  assert (match s with
          | Int64 _ | Float64 _ | Datetime64 _ => to_numeric s
          | _ => Err (TypeError "sort_values: dtype outside the modelled fragment")
          end = Ok (map Some vals) ∧ series_len s = length vals) as [-> Hslen].
  { destruct Hs as [->|(zs & -> & ->)]; simpl; [by rewrite length_map|].
    by rewrite map_map, length_map. }
  rewrite !bind_ok, nargsort_desc_Some.
  pose proof (argsort_desc_valid vals) as Hv. pose proof (length_argsort_desc vals) as Hl.
  unfold head_rows, nrows. cbn [index columns series_len fmap option_fmap option_map map fst snd].
  rewrite length_map, Hl. cbn [series_take]. unfold top_positions.
  rewrite take_at_first, <- fmap_take.
  rewrite take_at_first, take_take_at by (by rewrite Hlen).
  rewrite series_take_first by (by rewrite Hslen). done.
Qed.

Lemma series_get_take (p : list nat) (s : Series) (i j : nat) :
  Forall (λ i, (i < series_len s)%nat) p → p !! i = Some j →
  series_get (series_take p s) i = series_get s j.
Proof.
  intros Hp Hi.
  assert (j < series_len s)%nat as Hj.
  { rewrite Forall_forall in Hp. apply Hp. by eapply list_elem_of_lookup_2. }
  destruct s as [l|l|l|l|l]; simpl in *;
    destruct (lookup_lt_is_Some_2 l j Hj) as [x Hx];
    by rewrite (take_at_lookup p l i j x Hp Hi Hx), Hx.
Qed.

(** The rows of a sorted table of keys and values, through the positions
    they had. *)
Lemma iterrows_top (vname : string) (K : list string) (s : Series) (p : list nat) :
  Forall (λ i, (i < length K)%nat) p → series_len s = length K →
  iterrows {| index := Some ("", Int64 (map Z.of_nat p));
              columns := [("customer_id", Object (take_at p K)); (vname, series_take p s)] |}
  = map (λ j, [("customer_id", series_get (Object K) j); (vname, series_get s j)]) p.
Proof.
  intros Hp Hlen. unfold iterrows, nrows. cbn [index columns series_len map fst snd].
  rewrite length_map. apply map_seq_lookup. intros i j Hi.
  change (Object (take_at p K)) with (series_take p (Object K)).
  rewrite !(series_get_take p _ i j); [done| |done..].
  by rewrite Hlen.
Qed.

Lemma top_positions_valid (vals : list Q) (n : Z) :
  Forall (λ i, (i < length vals)%nat) (top_positions argsort_desc vals n).
Proof using Hsort.
  unfold top_positions. apply Forall_take, argsort_desc_valid.
Qed.

Lemma getcol_price (rows : list Order) :
  getcol (orders_frame rows) "price" = Ok (Float64 (map (λ o, Some (price o)) rows)).
Proof. reflexivity. Qed.

Lemma groupby_price (rows : list Order) :
  ∃ s, groupby_agg (orders_frame rows) "customer_id" "price" series_sum
       = Ok {| index := Some ("customer_id", Object (customers rows));
               columns := [("price", s)] |} ∧
       (s = Float64 (map Some (map (price_total rows) (customers rows))) ∨
        ∃ zs, s = Int64 zs ∧ map (price_total rows) (customers rows) = map inject_Z zs) ∧
       ∀ j c, customers rows !! j = Some c → series_get s j = VFloat (price_total rows c).
Proof.
  unfold groupby_agg. rewrite getcol_customer_id, bind_ok, getcol_price, bind_ok.
  rewrite (mapR_ok _ (λ c, VFloat (price_total rows c))).
  2:{ intros c _. simpl series_select. rewrite select_orders_of. simpl.
      by rewrite dropna_map_Some. }
  rewrite bind_ok. fold (customers rows).
  destruct (customers rows) as [|c0 K] eqn:HK.
  - exists (Int64 []). split; [done|]. split; [right; by exists [] | done].
  - rewrite <- HK. rewrite series_of_values_VFloat by (by rewrite HK).
    eexists. split; [done|]. split; [left; by rewrite map_map|].
    intros j c Hj. rewrite <- map_map. apply series_get_Float64.
    change (map ?f ?l) with (f <$> l). by rewrite list_lookup_fmap, Hj.
Qed.

(** [get_top_customers] on an order table: the customers by descending
    total price, as many as [head] keeps. *)
Lemma get_top_customers_orders (rows : list Order) (n : Z) :
  ∃ t, get_top_customers argsort_desc (orders_frame rows) n = Ok t ∧
       iterrows t
       = map (top_customers_row rows)
           (take_at (top_positions argsort_desc (map (price_total rows) (customers rows)) n)
                    (customers rows)).
Proof using Hsort.
  unfold get_top_customers, groupby_agg_named.
  destruct (groupby_price rows) as (s & -> & Hs & Hget). rewrite !bind_ok.
  unfold rename, reset_index. cbn [index columns rename_col map fst snd String.eqb Ascii.eqb
    Bool.eqb lookup_col]. rewrite bind_ok.
  set (vals := map (price_total rows) (customers rows)) in *.
  assert (length (customers rows) = length vals) as Hlen by (unfold vals; by rewrite length_map).
  assert (series_len s = length (customers rows)) as Hslen.
  { destruct Hs as [->|(zs & -> & Hzs)]; simpl; [by rewrite !length_map|].
    by rewrite Hlen, Hzs, length_map. }
  rewrite (sort_head "total_spent" (customers rows) s vals n); [|done| |done].
  2:{ destruct Hs as [->|(zs & -> & Hzs)]; [by left | right; by exists zs]. }
  eexists. split; [done|].
  pose proof (top_positions_valid vals n) as Hv. rewrite <- Hlen in Hv.
  rewrite iterrows_top by done.
  pose proof (take_at_Forall2 _ _ Hv) as H2. clear Hv.
  induction H2 as [|j c p l Hj _ IH]; [done|]. simpl. f_equal; [|done].
  unfold top_customers_row. by rewrite Hj, (Hget j c Hj).
Qed.

(** The keys of a table in the order of the sort of its values. *)
Lemma ranked_keys {A : Type} (K : list A) (val : A → Q) :
  ∃ ranked, ranked = take_at (argsort_desc (map val K)) K ∧ ranked ≡ₚ K ∧
    ∀ i j c c', (i ≤ j)%nat → ranked !! i = Some c → ranked !! j = Some c' →
                (val c' <= val c)%Q.
Proof using Hsort.
  eexists. split; [done|]. split.
  - apply take_at_argsort_perm. by rewrite length_map.
  - intros i j c c' Hij Hi Hj.
    pose proof (argsort_desc_valid (map val K)) as Hv. rewrite length_map in Hv.
    apply take_at_lookup_inv in Hi as (a & Ha & Hca); [|done].
    apply take_at_lookup_inv in Hj as (b & Hb & Hcb); [|done].
    destruct (Hsort (map val K)) as [_ Hdesc].
    apply (Hdesc i j a b); [done..| |]; change (map val K) with (val <$> K);
      rewrite list_lookup_fmap; [by rewrite Hca | by rewrite Hcb].
Qed.

Lemma get_top_customers_ranked (rows : list Order) (n : Z) :
  ∃ t ranked,
    get_top_customers argsort_desc (orders_frame rows) n = Ok t ∧
    iterrows t
    = map (top_customers_row rows) (take (head_count (length (customers rows)) n) ranked) ∧
    ranked ≡ₚ customers rows ∧
    ∀ i j c c', (i ≤ j)%nat → ranked !! i = Some c → ranked !! j = Some c' →
                (price_total rows c' <= price_total rows c)%Q.
Proof using Hsort.
  destruct (get_top_customers_orders rows n) as (t & Ht & Hrows).
  destruct (ranked_keys (customers rows) (price_total rows)) as (ranked & Hr & Hp & Hd).
  exists t, ranked. split; [done|]. split; [|done].
  rewrite Hrows, Hr. unfold top_positions. rewrite length_map, take_take_at; [done|].
  pose proof (argsort_desc_valid (map (price_total rows) (customers rows))) as Hv.
  by rewrite length_map in Hv.
Qed.

End sort_lemmas.

Lemma top_customers_row_inj (rows : list Order) (c c' : string) :
  top_customers_row rows c = top_customers_row rows c' → c = c'.
Proof. by intros [= ->]. Qed.

Lemma length_iterrows (d : DataFrame) : length (iterrows d) = nrows d.
Proof. unfold iterrows. by rewrite length_map, length_seq. Qed.

(** ** [get_top_positive_reviewers] on a table of reviews *)

Lemma select_positive {B : Type} (g : string * Z → B) (reviews : list (string * Z)) :
  select (map (λ z, 4 <=? z) (map snd reviews)) (map g reviews)
  = map g (filter (λ r, 4 ≤ r.2) reviews).
Proof.
  induction reviews as [|r reviews IH]; [done|]. simpl. rewrite filter_cons.
  destruct (Z.leb_spec 4 r.2).
  - rewrite decide_True by done. simpl. by rewrite IH.
  - rewrite decide_False by lia. done.
Qed.

Lemma select_customer (c : string) (reviews : list (string * Z)) :
  select (map (String.eqb c) (map fst reviews)) (map fst reviews)
  = map fst (filter (λ r, r.1 = c) reviews).
Proof.
  induction reviews as [|r reviews IH]; [done|]. simpl. rewrite filter_cons.
  destruct (String.eqb_spec c r.1) as [->|Hne].
  - rewrite decide_True by done. simpl. by rewrite IH.
  - rewrite decide_False by congruence. done.
Qed.

Lemma positive_frame (reviews : list (string * Z)) :
  ∃ ix, filter_rows (reviews_frame reviews) (map (λ z, 4 <=? z) (map snd reviews))
        = {| index := Some ix;
             columns := [ ("customer_id", Object (map fst (filter (λ r, 4 ≤ r.2) reviews)));
                          ("review_score", Int64 (map snd (filter (λ r, 4 ≤ r.2) reviews))) ] |}.
Proof.
  eexists. unfold filter_rows, reviews_frame. cbn [index columns map fst snd series_select].
  by rewrite !(select_positive _ reviews).
Qed.

Section reviewers.
Context (argsort_desc : list Q → list nat) (Hsort : sorts_descending argsort_desc).

Lemma get_top_positive_reviewers_ranked (reviews : list (string * Z)) (n : Z) :
  ∃ t ranked,
    get_top_positive_reviewers argsort_desc (reviews_frame reviews) n = Ok t ∧
    iterrows t
    = map (top_reviewers_row reviews)
          (take (head_count (length (positive_customers reviews)) n) ranked) ∧
    ranked ≡ₚ positive_customers reviews ∧
    ∀ i j c c', (i ≤ j)%nat → ranked !! i = Some c → ranked !! j = Some c' →
                positive_count reviews c' ≤ positive_count reviews c.
Proof using Hsort.
  unfold get_top_positive_reviewers.
  assert (getcol (reviews_frame reviews) "review_score" = Ok (Int64 (map snd reviews))) as ->
    by done.
  rewrite bind_ok. cbn [series_ge]. rewrite bind_ok.
  destruct (positive_frame reviews) as [ix ->].
  set (pos := filter (λ r, 4 ≤ r.2) reviews).
  unfold groupby_size, getcol. cbn [columns lookup_col String.eqb Ascii.eqb Bool.eqb].
  rewrite !bind_ok. change (group_keys (map fst pos)) with (positive_customers reviews).
  set (K := positive_customers reviews).
  assert (map (λ c, Z.of_nat (length (select (map (String.eqb c) (map fst pos)) (map fst pos)))) K
          = map (positive_count reviews) K) as ->.
  { apply map_ext. intros c. unfold positive_count, positive_reviews. fold pos.
    by rewrite select_customer, length_map. }
  unfold reset_index. cbn [index columns lookup_col String.eqb Ascii.eqb Bool.eqb].
  rewrite bind_ok.
  set (counts := map (positive_count reviews) K).
  rewrite (sort_head argsort_desc Hsort "positive_reviews_count" K (Int64 counts)
             (map inject_Z counts) n); [|done|right; by exists counts|].
  2:{ unfold counts. by rewrite !length_map. }
  destruct (ranked_keys argsort_desc Hsort K (λ c, inject_Z (positive_count reviews c)))
    as (ranked & Hr & Hp & Hd).
  eexists _, ranked. split; [done|]. split; [|split; [done|]].
  - pose proof (top_positions_valid argsort_desc Hsort (map inject_Z counts) n) as Hv.
    unfold counts in Hv. rewrite !length_map in Hv.
    rewrite iterrows_top; [|done|by unfold counts; cbn; rewrite length_map].
    rewrite Hr. rewrite take_take_at.
    2:{ pose proof (argsort_desc_valid argsort_desc Hsort
                      (map (λ c, inject_Z (positive_count reviews c)) K)) as Hv'.
        by rewrite length_map in Hv'. }
    unfold top_positions in *. unfold counts in *. rewrite !length_map, map_map in *.
    pose proof (take_at_Forall2 _ _ Hv) as H2. clear Hv.
    induction H2 as [|j c p l Hj _ IH]; [done|]. simpl. f_equal; [|done].
    unfold top_reviewers_row. rewrite Hj. simpl.
    change (map ?f ?l) with (f <$> l). by rewrite list_lookup_fmap, Hj.
  - intros i j c c' Hij Hi Hj. rewrite Zle_Qle. by eapply Hd.
Qed.

End reviewers.

(** * Further properties of [perform_rfm_analysis] *)

Lemma perform_rfm_analysis_scored (h : heap) (l : loc) (rows : list Order) (t : DataFrame) :
  h !! l = Some (orders_frame rows) →
  outcome (perform_rfm_analysis l h) = Ok t →
  distinct_edges (recency_edges rows) = true ∧
  distinct_edges (monetary_edges rows) = true ∧
  t = scored_frame rows (map (r_score rows) (customers rows))
                        (map (m_score rows) (customers rows)) ∧
  ∀ row, row ∈ iterrows t ↔
         ∃ c, c ∈ customers rows ∧ row = scored_row rows c (r_score rows c) (m_score rows c).
Proof.
  intros Hl Ht. rewrite (outcome_perform_rfm_analysis h l _ Hl) in Ht.
  pose proof (rfm_table_rows_scores rows t Ht) as Hrows.
  rewrite rfm_table_closed_form in Ht.
  destruct (distinct_edges (recency_edges rows)); [|done].
  destruct (distinct_edges (monetary_edges rows)); [|done].
  by injection Ht as <-.
Qed.



(** X2: in a table the analysis returns, the recency score never rises with
    the recency: of two rows, the one with the smaller or equal [Recency] has
    the greater or equal [R_Score]. *)
Theorem recency_score_antitone
    (h : heap) (l : loc) (rows : list Order) (t : DataFrame) (row_a row_b : Row)
    (rec_a rec_b : Z) :
  h !! l = Some (orders_frame rows) →
  outcome (perform_rfm_analysis l h) = Ok t →
  row_a ∈ iterrows t → row_b ∈ iterrows t →
  row_get row_a "Recency" = Ok (VInt rec_a) →
  row_get row_b "Recency" = Ok (VInt rec_b) →
  rec_a ≤ rec_b →
  ∃ r_a r_b,
    row_get row_a "R_Score" = Ok (VInt r_a) ∧
    row_get row_b "R_Score" = Ok (VInt r_b) ∧
    r_b ≤ r_a.
Proof.
  intros Hl Ht Ha Hb Hra Hrb Hle.
  destruct (perform_rfm_analysis_scored h l rows t Hl Ht) as (_ & _ & _ & Hrows).
  apply Hrows in Ha as (a & Hca & ->). apply Hrows in Hb as (b & Hcb & ->).
  injection Hra as <-. injection Hrb as <-.
  exists (r_score rows a), (r_score rows b). split; [done|]. split; [done|].
  by apply r_score_antitone.
Qed.

Lemma recency_score_antitone_witness :
  let row_a := ex_row_b in
  let row_c := ex_row_c in
  [orders_frame ex_orders] !! 0%nat = Some (orders_frame ex_orders) ∧
  outcome (perform_rfm_analysis 0%nat [orders_frame ex_orders]) = Ok ex_table ∧
  row_a ∈ iterrows ex_table ∧ row_c ∈ iterrows ex_table ∧
  row_get row_a "Recency" = Ok (VInt 0) ∧
  row_get row_c "Recency" = Ok (VInt 3) ∧
  0 ≤ 3 ∧
  ∃ r_a r_c,
    row_get row_a "R_Score" = Ok (VInt r_a) ∧
    row_get row_c "R_Score" = Ok (VInt r_c) ∧
    r_c ≤ r_a.
Proof.
  intros row_a row_c.
  assert (outcome (perform_rfm_analysis 0%nat [orders_frame ex_orders]) = Ok ex_table)
    as Hout by (vm_compute; reflexivity).
  assert (row_a ∈ iterrows ex_table) as Ha
    by (apply list_elem_of_In; vm_compute; right; left; reflexivity).
  assert (row_c ∈ iterrows ex_table) as Hc
    by (apply list_elem_of_In; vm_compute; right; right; left; reflexivity).
  assert (0 ≤ 3) as Hle by lia.
  split; [reflexivity|]. split; [exact Hout|]. split; [exact Ha|]. split; [exact Hc|].
  split; [reflexivity|]. split; [reflexivity|]. split; [exact Hle|].
  exact (recency_score_antitone [orders_frame ex_orders] 0%nat ex_orders ex_table row_a row_c
           0 3 eq_refl Hout Ha Hc eq_refl eq_refl Hle).
Defined.

(** X3: in a table the analysis returns, the monetary score never falls with
    the monetary value: of two rows, the one with the greater or equal
    [Monetary] has the greater or equal [M_Score]. *)
Theorem monetary_score_monotone
    (h : heap) (l : loc) (rows : list Order) (t : DataFrame) (row_a row_b : Row)
    (mon_a mon_b : Q) :
  h !! l = Some (orders_frame rows) →
  outcome (perform_rfm_analysis l h) = Ok t →
  row_a ∈ iterrows t → row_b ∈ iterrows t →
  row_get row_a "Monetary" = Ok (VFloat mon_a) →
  row_get row_b "Monetary" = Ok (VFloat mon_b) →
  (mon_a <= mon_b)%Q →
  ∃ m_a m_b,
    row_get row_a "M_Score" = Ok (VInt m_a) ∧
    row_get row_b "M_Score" = Ok (VInt m_b) ∧
    m_a ≤ m_b.
Proof.
  intros Hl Ht Ha Hb Hma Hmb Hle.
  destruct (perform_rfm_analysis_scored h l rows t Hl Ht) as (_ & _ & _ & Hrows).
  apply Hrows in Ha as (a & Hca & ->). apply Hrows in Hb as (b & Hcb & ->).
  injection Hma as <-. injection Hmb as <-.
  exists (m_score rows a), (m_score rows b). split; [done|]. split; [done|].
  by apply m_score_monotone.
Qed.

Lemma monetary_score_monotone_witness :
  let row_a := ex_row_b in
  let row_c := ex_row_c in
  [orders_frame ex_orders] !! 0%nat = Some (orders_frame ex_orders) ∧
  outcome (perform_rfm_analysis 0%nat [orders_frame ex_orders]) = Ok ex_table ∧
  row_c ∈ iterrows ex_table ∧ row_a ∈ iterrows ex_table ∧
  row_get row_c "Monetary" = Ok (VFloat 2) ∧
  row_get row_a "Monetary" = Ok (VFloat 24) ∧
  (2 <= 24)%Q ∧
  ∃ m_c m_a,
    row_get row_c "M_Score" = Ok (VInt m_c) ∧
    row_get row_a "M_Score" = Ok (VInt m_a) ∧
    m_c ≤ m_a.
Proof.
  intros row_a row_c.
  assert (outcome (perform_rfm_analysis 0%nat [orders_frame ex_orders]) = Ok ex_table)
    as Hout by (vm_compute; reflexivity).
  assert (row_a ∈ iterrows ex_table) as Ha
    by (apply list_elem_of_In; vm_compute; right; left; reflexivity).
  assert (row_c ∈ iterrows ex_table) as Hc
    by (apply list_elem_of_In; vm_compute; right; right; left; reflexivity).
  assert (2 <= 24)%Q as Hle by (vm_compute; discriminate).
  split; [reflexivity|]. split; [exact Hout|]. split; [exact Hc|]. split; [exact Ha|].
  split; [reflexivity|]. split; [reflexivity|]. split; [exact Hle|].
  exact (monetary_score_monotone [orders_frame ex_orders] 0%nat ex_orders ex_table row_c row_a
           2 24 eq_refl Hout Hc Ha eq_refl eq_refl Hle).
Defined.

(** X4: in a table the analysis returns, some customer has [Recency] 0; every
    customer with [Recency] 0 has [R_Score] 5, and every customer whose
    [Recency] is the greatest of the table has [R_Score] 1. *)
Theorem recency_extremes_scores (h : heap) (l : loc) (rows : list Order) (t : DataFrame) :
  h !! l = Some (orders_frame rows) →
  outcome (perform_rfm_analysis l h) = Ok t →
  (∃ row, row ∈ iterrows t ∧ row_get row "Recency" = Ok (VInt 0)) ∧
  (∀ row, row ∈ iterrows t → row_get row "Recency" = Ok (VInt 0) →
          row_get row "R_Score" = Ok (VInt 5)) ∧
  (∀ row z, row ∈ iterrows t → row_get row "Recency" = Ok (VInt z) →
     (∀ row' z', row' ∈ iterrows t → row_get row' "Recency" = Ok (VInt z') → z' ≤ z) →
     row_get row "R_Score" = Ok (VInt 1)).
Proof.
  intros Hl Ht.
  destruct (perform_rfm_analysis_rows h l rows t Hl Ht) as (Hne & _ & _).
  destruct (perform_rfm_analysis_scored h l rows t Hl Ht) as (Hdr & _ & _ & Hrows).
  split_and!.
  - destruct (recency_zero_exists rows Hne) as (c & Hc & H0).
    exists (scored_row rows c (r_score rows c) (m_score rows c)). split.
    + apply Hrows. by exists c.
    + simpl. by rewrite H0.
  - intros row Hrow H0. apply Hrows in Hrow as (c & Hc & ->).
    injection H0 as H0. simpl. by rewrite r_score_latest.
  - intros row z Hrow Hz Hmax. apply Hrows in Hrow as (c & Hc & ->).
    injection Hz as <-. simpl. rewrite r_score_oldest; [done..| |done].
    intros c' Hc'.
    apply (Hmax (scored_row rows c' (r_score rows c') (m_score rows c'))); [|done].
    apply Hrows. by exists c'.
Qed.

Lemma recency_extremes_scores_witness :
  [orders_frame ex_orders] !! 0%nat = Some (orders_frame ex_orders) ∧
  outcome (perform_rfm_analysis 0%nat [orders_frame ex_orders]) = Ok ex_table ∧
  ex_row_b ∈ iterrows ex_table ∧
  row_get ex_row_b "Recency" = Ok (VInt 0) ∧
  row_get ex_row_b "R_Score" = Ok (VInt 5) ∧
  (∃ row, row ∈ iterrows ex_table ∧ row_get row "Recency" = Ok (VInt 0)) ∧
  (∀ row, row ∈ iterrows ex_table → row_get row "Recency" = Ok (VInt 0) →
          row_get row "R_Score" = Ok (VInt 5)) ∧
  (∀ row z, row ∈ iterrows ex_table → row_get row "Recency" = Ok (VInt z) →
     (∀ row' z', row' ∈ iterrows ex_table → row_get row' "Recency" = Ok (VInt z') → z' ≤ z) →
     row_get row "R_Score" = Ok (VInt 1)).
Proof.
  assert (outcome (perform_rfm_analysis 0%nat [orders_frame ex_orders]) = Ok ex_table)
    as Hout by (vm_compute; reflexivity).
  split; [reflexivity|]. split; [exact Hout|].
  split; [apply list_elem_of_In; vm_compute; right; left; reflexivity|].
  split; [reflexivity|]. split; [reflexivity|].
  exact (recency_extremes_scores [orders_frame ex_orders] 0%nat ex_orders ex_table
           eq_refl Hout).
Defined.

(** X5: in a table the analysis returns, every customer whose [Monetary] is
    the smallest of the table has [M_Score] 1, and every customer whose
    [Monetary] is the greatest has [M_Score] 5. *)
Theorem monetary_extremes_scores
    (h : heap) (l : loc) (rows : list Order) (t : DataFrame) (row : Row) (q : Q) :
  h !! l = Some (orders_frame rows) →
  outcome (perform_rfm_analysis l h) = Ok t →
  row ∈ iterrows t →
  row_get row "Monetary" = Ok (VFloat q) →
  ((∀ row' q', row' ∈ iterrows t → row_get row' "Monetary" = Ok (VFloat q') → (q <= q')%Q) →
   row_get row "M_Score" = Ok (VInt 1)) ∧
  ((∀ row' q', row' ∈ iterrows t → row_get row' "Monetary" = Ok (VFloat q') → (q' <= q)%Q) →
   row_get row "M_Score" = Ok (VInt 5)).
Proof.
  intros Hl Ht Hrow Hq.
  destruct (perform_rfm_analysis_scored h l rows t Hl Ht) as (_ & Hdm & _ & Hrows).
  apply Hrows in Hrow as (c & Hc & ->). injection Hq as <-.
  assert (∀ c', c' ∈ customers rows →
            scored_row rows c' (r_score rows c') (m_score rows c') ∈ iterrows t) as Hin
    by (intros c' Hc'; apply Hrows; by exists c').
  split; intros Hext; simpl.
  - rewrite m_score_lowest; [done..|]. intros c' Hc'. by apply (Hext _ _ (Hin c' Hc')).
  - rewrite m_score_highest; [done..| |done]. intros c' Hc'. by apply (Hext _ _ (Hin c' Hc')).
Qed.

Lemma monetary_extremes_scores_witness :
  [orders_frame ex_orders] !! 0%nat = Some (orders_frame ex_orders) ∧
  outcome (perform_rfm_analysis 0%nat [orders_frame ex_orders]) = Ok ex_table ∧
  ex_row_a ∈ iterrows ex_table ∧
  row_get ex_row_a "Monetary" = Ok (VFloat 122) ∧
  row_get ex_row_a "M_Score" = Ok (VInt 5) ∧
  ((∀ row' q', row' ∈ iterrows ex_table → row_get row' "Monetary" = Ok (VFloat q') →
               (122 <= q')%Q) →
   row_get ex_row_a "M_Score" = Ok (VInt 1)) ∧
  ((∀ row' q', row' ∈ iterrows ex_table → row_get row' "Monetary" = Ok (VFloat q') →
               (q' <= 122)%Q) →
   row_get ex_row_a "M_Score" = Ok (VInt 5)).
Proof.
  assert (outcome (perform_rfm_analysis 0%nat [orders_frame ex_orders]) = Ok ex_table)
    as Hout by (vm_compute; reflexivity).
  assert (ex_row_a ∈ iterrows ex_table) as Hin
    by (apply list_elem_of_In; vm_compute; left; reflexivity).
  split; [reflexivity|]. split; [exact Hout|]. split; [exact Hin|].
  split; [reflexivity|]. split; [reflexivity|].
  exact (monetary_extremes_scores [orders_frame ex_orders] 0%nat ex_orders ex_table ex_row_a 122
           eq_refl Hout Hin eq_refl).
Defined.

(** X6: a table the analysis returns has the default index and the nine
    columns [customer_id], [Recency], [Frequency], [Monetary], [R_Score],
    [F_Score], [M_Score], [RFM_Score], [Segment], in this order; its
    [customer_id] column lists the customers of the input, each once, in
    ascending order, one per row. *)
Theorem returned_table_shape (h : heap) (l : loc) (rows : list Order) (t : DataFrame) :
  h !! l = Some (orders_frame rows) →
  outcome (perform_rfm_analysis l h) = Ok t →
  index t = None ∧
  map fst (columns t)
  = ["customer_id"; "Recency"; "Frequency"; "Monetary"; "R_Score"; "F_Score"; "M_Score";
     "RFM_Score"; "Segment"] ∧
  ∃ ks, getcol t "customer_id" = Ok (Object ks) ∧
        nrows t = length ks ∧
        NoDup ks ∧
        StronglySorted (λ a b, String.leb a b) ks ∧
        ∀ c, c ∈ ks ↔ ∃ o, o ∈ rows ∧ customer_id o = c.
Proof.
  intros Hl Ht.
  destruct (perform_rfm_analysis_scored h l rows t Hl Ht) as (_ & _ & -> & _).
  split; [done|]. split; [done|]. exists (customers rows). split_and!.
  - done.
  - done.
  - apply NoDup_group_keys.
  - apply group_keys_sorted.
  - apply elem_of_customers.
Qed.

Lemma returned_table_shape_witness :
  [orders_frame ex_orders] !! 0%nat = Some (orders_frame ex_orders) ∧
  outcome (perform_rfm_analysis 0%nat [orders_frame ex_orders]) = Ok ex_table ∧
  getcol ex_table "customer_id" = Ok (Object ["a"; "b"; "c"]) ∧
  index ex_table = None ∧
  map fst (columns ex_table)
  = ["customer_id"; "Recency"; "Frequency"; "Monetary"; "R_Score"; "F_Score"; "M_Score";
     "RFM_Score"; "Segment"] ∧
  ∃ ks, getcol ex_table "customer_id" = Ok (Object ks) ∧
        nrows ex_table = length ks ∧
        NoDup ks ∧
        StronglySorted (λ a b, String.leb a b) ks ∧
        ∀ c, c ∈ ks ↔ ∃ o, o ∈ ex_orders ∧ customer_id o = c.
Proof.
  assert (outcome (perform_rfm_analysis 0%nat [orders_frame ex_orders]) = Ok ex_table)
    as Hout by (vm_compute; reflexivity).
  split; [reflexivity|]. split; [exact Hout|]. split; [reflexivity|].
  exact (returned_table_shape [orders_frame ex_orders] 0%nat ex_orders ex_table eq_refl Hout).
Defined.

(** X7: the [Segment] column of a table the analysis returns is consistent
    with the table: classifying a row of the finished table again gives the
    segment the row holds. *)
Theorem segment_column_consistent
    (h : heap) (l : loc) (rows : list Order) (t : DataFrame) (row : Row) :
  h !! l = Some (orders_frame rows) →
  outcome (perform_rfm_analysis l h) = Ok t →
  row ∈ iterrows t →
  ∃ label, segment_customer row = Ok (VStr label) ∧ row_get row "Segment" = Ok (VStr label).
Proof.
  intros Hl Ht Hrow.
  destruct (perform_rfm_analysis_scored h l rows t Hl Ht) as (_ & _ & _ & Hrows).
  apply Hrows in Hrow as (c & Hc & ->). eexists. split; [|reflexivity].
  by apply segment_customer_score.
Qed.

Lemma segment_column_consistent_witness :
  [orders_frame ex_orders] !! 0%nat = Some (orders_frame ex_orders) ∧
  outcome (perform_rfm_analysis 0%nat [orders_frame ex_orders]) = Ok ex_table ∧
  ex_row_c ∈ iterrows ex_table ∧
  ∃ label, segment_customer ex_row_c = Ok (VStr label) ∧
           row_get ex_row_c "Segment" = Ok (VStr label).
Proof.
  assert (outcome (perform_rfm_analysis 0%nat [orders_frame ex_orders]) = Ok ex_table)
    as Hout by (vm_compute; reflexivity).
  assert (ex_row_c ∈ iterrows ex_table) as Hin
    by (apply list_elem_of_In; vm_compute; right; right; left; reflexivity).
  split; [reflexivity|]. split; [exact Hout|]. split; [exact Hin|].
  exact (segment_column_consistent [orders_frame ex_orders] 0%nat ex_orders ex_table ex_row_c
           eq_refl Hout Hin).
Defined.

(** X8: nothing of the input is lost or counted twice in the [Monetary]
    column: in a table the analysis returns it holds no missing value, and
    its sum is the sum of [total_spent] over all rows of the input (in exact
    arithmetic). *)
Theorem monetary_column_total (h : heap) (l : loc) (rows : list Order) (t : DataFrame) :
  h !! l = Some (orders_frame rows) →
  outcome (perform_rfm_analysis l h) = Ok t →
  ∃ ms, getcol t "Monetary" = Ok (Float64 (map Some ms)) ∧
        (foldr Qplus 0 ms == foldr Qplus 0 (map total_spent rows))%Q.
Proof.
  intros Hl Ht.
  destruct (perform_rfm_analysis_scored h l rows t Hl Ht) as (_ & _ & -> & _).
  exists (map (monetary rows) (customers rows)). split.
  - unfold scored_frame, getcol. cbn. by rewrite map_map.
  - apply monetary_total.
Qed.

Lemma monetary_column_total_witness :
  [orders_frame ex_orders] !! 0%nat = Some (orders_frame ex_orders) ∧
  outcome (perform_rfm_analysis 0%nat [orders_frame ex_orders]) = Ok ex_table ∧
  (foldr Qplus 0 (map total_spent ex_orders) == 148)%Q ∧
  ∃ ms, getcol ex_table "Monetary" = Ok (Float64 (map Some ms)) ∧
        (foldr Qplus 0 ms == foldr Qplus 0 (map total_spent ex_orders))%Q.
Proof.
  assert (outcome (perform_rfm_analysis 0%nat [orders_frame ex_orders]) = Ok ex_table)
    as Hout by (vm_compute; reflexivity).
  split; [reflexivity|]. split; [exact Hout|]. split; [vm_compute; reflexivity|].
  exact (monetary_column_total [orders_frame ex_orders] 0%nat ex_orders ex_table eq_refl Hout).
Defined.



(** X10: on a frame without the column [order_purchase_timestamp] the
    analysis raises KeyError at its first statement: it has allocated nothing
    and the heap is as it was. *)
Theorem missing_timestamp_raises (h : heap) (l : loc) (d : DataFrame) :
  h !! l = Some d →
  lookup_col "order_purchase_timestamp" (columns d) = None →
  perform_rfm_analysis l h = (Err (KeyError "order_purchase_timestamp"), h).
Proof.
  intros Hl Hcol. unfold perform_rfm_analysis.
  rewrite bind_run. unfold getitem, deref. rewrite bind_run, Hl, lift_run.
  by rewrite (getcol_missing d).
Qed.

Lemma missing_timestamp_raises_witness :
  let d := {| index := None; columns := [("customer_id", Object ["a"])] |} in
  [d] !! 0%nat = Some d ∧
  lookup_col "order_purchase_timestamp" (columns d) = None ∧
  perform_rfm_analysis 0%nat [d] = (Err (KeyError "order_purchase_timestamp"), [d]).
Proof.
  intros d. split; [reflexivity|]. split; [reflexivity|].
  exact (missing_timestamp_raises [d] 0%nat d eq_refl eq_refl).
Defined.



(** X12: the order of the rows of the input does not matter to the
    customers, their recency and frequency, and the scores of these: when the
    analysis returns a table on an order table and on a reordering of it, the
    two tables have the same [customer_id], [Recency], [Frequency], [R_Score]
    and [F_Score] columns. *)
Theorem row_order_irrelevant
    (h h' : heap) (l l' : loc) (rows rows' : list Order) (t t' : DataFrame) :
  h !! l = Some (orders_frame rows) →
  h' !! l' = Some (orders_frame rows') →
  rows ≡ₚ rows' →
  outcome (perform_rfm_analysis l h) = Ok t →
  outcome (perform_rfm_analysis l' h') = Ok t' →
  ∀ name, name ∈ ["customer_id"; "Recency"; "Frequency"; "R_Score"; "F_Score"] →
          getcol t name = getcol t' name.
Proof.
  intros Hl Hl' Hp Ht Ht' name Hn.
  destruct (perform_rfm_analysis_scored h l rows t Hl Ht) as (_ & _ & -> & _).
  destruct (perform_rfm_analysis_scored h' l' rows' t' Hl' Ht') as (_ & _ & -> & _).
  unfold scored_frame. rewrite <- (customers_perm rows rows' Hp).
  assert (map (recency rows) (customers rows) = map (recency rows') (customers rows)) as Hr
    by (apply map_ext; intros c; by apply recency_perm).
  assert (map (frequency rows) (customers rows) = map (frequency rows') (customers rows)) as Hf
    by (apply map_ext; intros c; by apply frequency_perm).
  assert (map (r_score rows) (customers rows) = map (r_score rows') (customers rows)) as Hrs
    by (apply map_ext; intros c; by apply r_score_perm).
  assert (map (λ c, frequency rows c `min` 5) (customers rows)
          = map (λ c, frequency rows' c `min` 5) (customers rows)) as Hfs
    by (apply map_ext; intros c; by rewrite (frequency_perm rows rows' c Hp)).
  repeat (apply elem_of_cons in Hn as [->|Hn]; [cbn; congruence|]).
  by apply elem_of_nil in Hn.
Qed.

Lemma row_order_irrelevant_witness :
  [orders_frame ex_orders] !! 0%nat = Some (orders_frame ex_orders) ∧
  [orders_frame ex_orders_shuffled] !! 0%nat = Some (orders_frame ex_orders_shuffled) ∧
  ex_orders ≡ₚ ex_orders_shuffled ∧
  ex_orders ≠ ex_orders_shuffled ∧
  outcome (perform_rfm_analysis 0%nat [orders_frame ex_orders]) = Ok ex_table ∧
  outcome (perform_rfm_analysis 0%nat [orders_frame ex_orders_shuffled]) = Ok ex_table ∧
  ∀ name, name ∈ ["customer_id"; "Recency"; "Frequency"; "R_Score"; "F_Score"] →
          getcol ex_table name = getcol ex_table name.
Proof.
  assert (outcome (perform_rfm_analysis 0%nat [orders_frame ex_orders]) = Ok ex_table)
    as Hout by (vm_compute; reflexivity).
  assert (outcome (perform_rfm_analysis 0%nat [orders_frame ex_orders_shuffled]) = Ok ex_table)
    as Hout' by (vm_compute; reflexivity).
  assert (ex_orders ≡ₚ ex_orders_shuffled) as Hp
    by (symmetry; apply reverse_Permutation).
  split; [reflexivity|]. split; [reflexivity|]. split; [exact Hp|].
  split; [vm_compute; discriminate|]. split; [exact Hout|]. split; [exact Hout'|].
  exact (row_order_irrelevant [orders_frame ex_orders] [orders_frame ex_orders_shuffled]
           0%nat 0%nat ex_orders ex_orders_shuffled ex_table ex_table
           eq_refl eq_refl Hp Hout Hout').
Defined.

(** * [preprocess_data] *)

Section preprocess_properties.
Variable parse_datetime : string → option Z.
Variable period_month : Z → string.

(** X13: [preprocess_data] works in place: whether it returns or raises, it
    allocates no object and leaves every object but its argument as it was;
    when it returns, it returns the reference it was given. *)
Theorem preprocess_data_in_place (h : heap) (l : loc) (d : DataFrame) :
  h !! l = Some d →
  length (preprocess_data parse_datetime period_month l h).2 = length h ∧
  (∀ l', l' ≠ l → (preprocess_data parse_datetime period_month l h).2 !! l' = h !! l') ∧
  (∀ r, (preprocess_data parse_datetime period_month l h).1 = Ok r → r = l).
Proof.
  intros Hl. rewrite (preprocess_data_run _ _ h l d Hl).
  destruct (parsed_frame _ d) as [d1|]; [|done].
  destruct (month_frame _ d1) as [d2|]; [|simpl].
  - destruct (total_frame d2) as [d3|]; simpl.
    + rewrite length_insert. split; [done|]. split; [|by intros r [= <-]].
      intros l' Hne. by rewrite list_lookup_insert_ne.
    + rewrite length_insert. split; [done|]. split; [|done].
      intros l' Hne. by rewrite list_lookup_insert_ne.
  - rewrite length_insert. split; [done|]. split; [|done].
    intros l' Hne. by rewrite list_lookup_insert_ne.
Qed.

(** X14: [preprocess_data] is idempotent: after a call that returned, a
    second call on the returned reference returns it again and changes
    nothing. *)
Theorem preprocess_data_idempotent (h h1 : heap) (l r : loc) (d : DataFrame) :
  h !! l = Some d →
  preprocess_data parse_datetime period_month l h = (Ok r, h1) →
  preprocess_data parse_datetime period_month r h1 = (Ok r, h1).
Proof.
  intros Hl. rewrite (preprocess_data_run _ _ h l d Hl).
  destruct (parsed_frame _ d) as [d1|] eqn:H1; [|done].
  destruct (month_frame _ d1) as [d2|] eqn:H2; [|done].
  destruct (total_frame d2) as [d3|] eqn:H3; [|done].
  intros [= <- <-].
  destruct (preprocessed_fixed _ _ d d1 d2 d3 H1 H2 H3) as (F1 & F2 & F3).
  rewrite (preprocess_data_run _ _ _ l d3 (lookup_cell h l d Hl d3)).
  by rewrite F1, F2, F3, list_insert_insert_eq.
Qed.


(** X16: what [preprocess_data] makes of an order table as the file has it
    (text timestamps that all parse, no [total_spent]) is what the analysis
    needs: the call returns, and the analysis of the preprocessed object has
    the outcome it has on the order table of the same rows. *)
Theorem preprocess_then_analysis
    (h : heap) (l : loc) (stamps : list string) (rows : list Order) :
  h !! l = Some (raw_frame stamps rows) →
  map parse_datetime stamps = map (λ o, Some (order_purchase_timestamp o)) rows →
  ∃ h1, preprocess_data parse_datetime period_month l h = (Ok l, h1) ∧
        outcome (perform_rfm_analysis l h1)
        = outcome (perform_rfm_analysis 0%nat [orders_frame rows]).
Proof.
  intros Hl Hs.
  destruct (preprocessed_raw_frame parse_datetime period_month stamps rows Hs)
    as (d3 & Hd3 & Ht & Hc & Ho & Hsp).
  rewrite (preprocess_data_run _ _ h l _ Hl). unfold preprocessed in Hd3.
  destruct (parsed_frame _ _) as [d1|]; [|done]. rewrite bind_ok in Hd3.
  destruct (month_frame _ d1) as [d2|]; [|done]. rewrite bind_ok in Hd3.
  rewrite Hd3. eexists. split; [done|].
  rewrite (outcome_perform_rfm_analysis _ l d3 (lookup_cell h l _ Hl d3)).
  rewrite (outcome_perform_rfm_analysis [orders_frame rows] 0%nat _ eq_refl).
  unfold rfm_table. by rewrite (rfm_metrics_ext d3 (orders_frame rows)).
Qed.

End preprocess_properties.

Lemma preprocess_data_in_place_witness :
  let h := [orders_frame []; raw_frame ex_stamps ex_orders] in
  h !! 1%nat = Some (raw_frame ex_stamps ex_orders) ∧
  length (preprocess_data ex_parse ex_month 1%nat h).2 = length h ∧
  (∀ l', l' ≠ 1%nat → (preprocess_data ex_parse ex_month 1%nat h).2 !! l' = h !! l') ∧
  (∀ r, (preprocess_data ex_parse ex_month 1%nat h).1 = Ok r → r = 1%nat).
Proof.
  intros h. split; [reflexivity|].
  exact (preprocess_data_in_place ex_parse ex_month h 1%nat (raw_frame ex_stamps ex_orders)
           eq_refl).
Defined.

Lemma preprocess_data_idempotent_witness :
  let h := [raw_frame ex_stamps ex_orders] in
  let h1 := (preprocess_data ex_parse ex_month 0%nat h).2 in
  h !! 0%nat = Some (raw_frame ex_stamps ex_orders) ∧
  preprocess_data ex_parse ex_month 0%nat h = (Ok 0%nat, h1) ∧
  h1 ≠ h ∧
  preprocess_data ex_parse ex_month 0%nat h1 = (Ok 0%nat, h1).
Proof.
  intros h h1.
  assert (preprocess_data ex_parse ex_month 0%nat h = (Ok 0%nat, h1)) as Hrun
    by (vm_compute; reflexivity).
  split; [reflexivity|]. split; [exact Hrun|]. split; [vm_compute; discriminate|].
  exact (preprocess_data_idempotent ex_parse ex_month h h1 0%nat 0%nat
           (raw_frame ex_stamps ex_orders) eq_refl Hrun).
Defined.


Lemma preprocess_then_analysis_witness :
  [raw_frame ex_stamps ex_orders] !! 0%nat = Some (raw_frame ex_stamps ex_orders) ∧
  map ex_parse ex_stamps = map (λ o, Some (order_purchase_timestamp o)) ex_orders ∧
  outcome (perform_rfm_analysis 0%nat [orders_frame ex_orders]) = Ok ex_table ∧
  ∃ h1, preprocess_data ex_parse ex_month 0%nat [raw_frame ex_stamps ex_orders] = (Ok 0%nat, h1) ∧
        outcome (perform_rfm_analysis 0%nat h1)
        = outcome (perform_rfm_analysis 0%nat [orders_frame ex_orders]).
Proof.
  assert (map ex_parse ex_stamps = map (λ o, Some (order_purchase_timestamp o)) ex_orders)
    as Hs by (vm_compute; reflexivity).
  split; [reflexivity|]. split; [exact Hs|]. split; [vm_compute; reflexivity|].
  exact (preprocess_then_analysis ex_parse ex_month [raw_frame ex_stamps ex_orders] 0%nat
           ex_stamps ex_orders eq_refl Hs).
Defined.

(** * [get_top_customers] and [get_top_positive_reviewers] *)

(** The first [k] of the keys [K] ranked by descending value, one row each. *)
Lemma top_rows_props (row : string → Row) (val : string → Q) (K ranked : list string)
    (k : nat) (table : list Row) :
  (∀ c c', row c = row c' → c = c') → NoDup K → ranked ≡ₚ K →
  (∀ i j c c', (i ≤ j)%nat → ranked !! i = Some c → ranked !! j = Some c' →
               (val c' <= val c)%Q) →
  table = map row (take k ranked) →
  length table = (k `min` length K)%nat ∧
  (∀ r, r ∈ table → ∃ c, c ∈ K ∧ r = row c) ∧
  (∀ i j c, table !! i = Some (row c) → table !! j = Some (row c) → i = j) ∧
  (∀ i j c c', (i ≤ j)%nat → table !! i = Some (row c) → table !! j = Some (row c') →
               (val c' <= val c)%Q) ∧
  (∀ c c', c ∈ K → row c ∉ table → row c' ∈ table → (val c <= val c')%Q) ∧
  ((length K ≤ k)%nat → ∀ c, c ∈ K → row c ∈ table).
Proof.
  intros Hinj HK Hp Hd ->.
  assert (NoDup ranked) as Hnd by (by rewrite Hp).
  assert (∀ i c, map row (take k ranked) !! i = Some (row c) →
                 ranked !! i = Some c ∧ (i < k)%nat) as Hlook.
  { intros i c Hi. change (map row ?l) with (row <$> l) in Hi.
    rewrite list_lookup_fmap in Hi.
    destruct (take k ranked !! i) as [c1|] eqn:E; [|done]. simpl in Hi.
    injection Hi as Hi. apply Hinj in Hi as ->. by apply lookup_take_Some in E. }
  assert (∀ c, row c ∈ map row (take k ranked) → ∃ i, ranked !! i = Some c ∧ (i < k)%nat)
    as Hmem.
  { intros c Hc. apply list_elem_of_lookup_1 in Hc as [i Hi]. exists i. by apply Hlook. }
  split_and!.
  - by rewrite length_map, length_take, Hp.
  - intros r Hr. apply list_elem_of_fmap in Hr as (c & -> & Hc).
    exists c. split; [|done]. rewrite <- Hp.
    apply elem_of_take in Hc as (i & Hi & _). by eapply list_elem_of_lookup_2.
  - intros i j c Hi Hj. apply Hlook in Hi as [Hi _]. apply Hlook in Hj as [Hj _].
    by eapply NoDup_lookup.
  - intros i j c c' Hij Hi Hj. apply Hlook in Hi as [Hi _]. apply Hlook in Hj as [Hj _].
    by eapply Hd.
  - intros c c' Hc Hout Hin. apply Hmem in Hin as (i & Hi & Hik).
    rewrite <- Hp in Hc. apply list_elem_of_lookup_1 in Hc as [j Hj].
    destruct (decide (j < k)%nat) as [Hjk|Hjk].
    + exfalso. apply Hout. apply list_elem_of_fmap. exists c. split; [done|].
      apply (list_elem_of_lookup_2 _ j). by apply lookup_take_Some.
    + apply (Hd i j); [lia|done..].
  - intros Hk c Hc. apply list_elem_of_fmap. exists c. split; [done|].
    rewrite take_ge by (by rewrite Hp). by rewrite Hp.
Qed.

Section top_properties.
Context (argsort_desc : list Q → list nat) (Hsort : sorts_descending argsort_desc).

Lemma get_top_customers_props (rows : list Order) (n : Z) :
  ∃ t, get_top_customers argsort_desc (orders_frame rows) n = Ok t ∧
    nrows t = (head_count (length (customers rows)) n `min` length (customers rows))%nat ∧
    (∀ r, r ∈ iterrows t → ∃ c, c ∈ customers rows ∧ r = top_customers_row rows c) ∧
    (∀ i j c, iterrows t !! i = Some (top_customers_row rows c) →
              iterrows t !! j = Some (top_customers_row rows c) → i = j) ∧
    (∀ i j c c', (i ≤ j)%nat → iterrows t !! i = Some (top_customers_row rows c) →
                 iterrows t !! j = Some (top_customers_row rows c') →
                 (price_total rows c' <= price_total rows c)%Q) ∧
    (∀ c c', c ∈ customers rows → top_customers_row rows c ∉ iterrows t →
             top_customers_row rows c' ∈ iterrows t →
             (price_total rows c <= price_total rows c')%Q) ∧
    ((length (customers rows) ≤ head_count (length (customers rows)) n)%nat →
     ∀ c, c ∈ customers rows → top_customers_row rows c ∈ iterrows t).
Proof using Hsort.
  destruct (get_top_customers_ranked argsort_desc Hsort rows n)
    as (t & ranked & Ht & Hrows & Hp & Hd).
  exists t. split; [done|]. rewrite <- length_iterrows.
  eapply top_rows_props; [apply top_customers_row_inj|apply NoDup_group_keys|done..].
Qed.

Lemma head_count_nonneg (len : nat) (n : Z) :
  0 ≤ n → head_count len n = (Z.to_nat n `min` len)%nat.
Proof. unfold head_count. intros H. by rewrite (proj2 (Z.leb_le 0 n) H). Qed.

Lemma head_count_neg (len : nat) (n : Z) :
  n < 0 → head_count len n = (len - Z.to_nat (- n))%nat.
Proof. unfold head_count. intros H. by rewrite (proj2 (Z.leb_gt 0 n) H). Qed.

(** X17: on every order table and for every [n], [get_top_customers] returns
    a table; it has [n] rows, or one row per customer when there are fewer
    than [n] customers; for a negative [n] it has all but the last [-n] of
    the rows, none when there are no more than [-n]. *)
Theorem get_top_customers_row_count (rows : list Order) (n : Z) :
  ∃ t, get_top_customers argsort_desc (orders_frame rows) n = Ok t ∧
       (0 ≤ n → nrows t = (Z.to_nat n `min` length (customers rows))%nat) ∧
       (n < 0 → nrows t = (length (customers rows) - Z.to_nat (- n))%nat).
Proof using Hsort.
  destruct (get_top_customers_props rows n) as (t & Ht & Hn & _).
  exists t. split; [done|]. split; intros H.
  - rewrite Hn, head_count_nonneg by done. lia.
  - rewrite Hn, head_count_neg by done. lia.
Qed.

(** X18: every row of the table of [get_top_customers] is a customer of the
    input with the sum of the [price] of the customer's rows (freight is not
    part of this total_spent), and no customer has two rows. *)
Theorem get_top_customers_rows (rows : list Order) (n : Z) (t : DataFrame) :
  get_top_customers argsort_desc (orders_frame rows) n = Ok t →
  (∀ row, row ∈ iterrows t →
     ∃ c, (∃ o, o ∈ rows ∧ customer_id o = c) ∧
          row = [ ("customer_id", VStr c);
                  ("total_spent", VFloat (foldr Qplus 0%Q (map price (orders_of c rows)))) ]) ∧
  (∀ i j row_i row_j,
     iterrows t !! i = Some row_i → iterrows t !! j = Some row_j →
     row_get row_i "customer_id" = row_get row_j "customer_id" → i = j).
Proof using Hsort.
  intros Ht. destruct (get_top_customers_props rows n) as (t' & Ht' & _ & Hrows & Hnd & _).
  rewrite Ht in Ht'. injection Ht' as <-. split.
  - intros row Hrow. destruct (Hrows row Hrow) as (c & Hc & ->).
    exists c. split; [by apply elem_of_customers | done].
  - intros i j row_i row_j Hi Hj Heq.
    destruct (Hrows row_i (list_elem_of_lookup_2 _ _ _ Hi)) as (c & _ & ->).
    destruct (Hrows row_j (list_elem_of_lookup_2 _ _ _ Hj)) as (c' & _ & ->).
    injection Heq as <-. by eapply Hnd.
Qed.

(** X19: the table of [get_top_customers] lists the best customers, best
    first, whatever order the sort leaves equal totals in: the totals do not
    increase down the table, and a customer of the input left out of the table
    has a total no greater than any total in it. *)
Theorem get_top_customers_best_first (rows : list Order) (n : Z) (t : DataFrame) :
  get_top_customers argsort_desc (orders_frame rows) n = Ok t →
  (∀ i j row_i row_j x y,
     (i ≤ j)%nat → iterrows t !! i = Some row_i → iterrows t !! j = Some row_j →
     row_get row_i "total_spent" = Ok (VFloat x) →
     row_get row_j "total_spent" = Ok (VFloat y) → (y <= x)%Q) ∧
  (∀ o row x,
     o ∈ rows →
     (∀ row', row' ∈ iterrows t → row_get row' "customer_id" ≠ Ok (VStr (customer_id o))) →
     row ∈ iterrows t → row_get row "total_spent" = Ok (VFloat x) →
     (foldr Qplus 0 (map price (orders_of (customer_id o) rows)) <= x)%Q).
Proof using Hsort.
  intros Ht.
  destruct (get_top_customers_props rows n) as (t' & Ht' & _ & Hrows & _ & Hd & Hdom & _).
  rewrite Ht in Ht'. injection Ht' as <-. split.
  - intros i j row_i row_j x y Hij Hi Hj Hx Hy.
    destruct (Hrows row_i (list_elem_of_lookup_2 _ _ _ Hi)) as (c & _ & ->).
    destruct (Hrows row_j (list_elem_of_lookup_2 _ _ _ Hj)) as (c' & _ & ->).
    injection Hx as <-. injection Hy as <-. by eapply Hd.
  - intros o row x Ho Hout Hrow Hx.
    destruct (Hrows row Hrow) as (c' & _ & ->). injection Hx as <-.
    apply (Hdom (customer_id o) c'); [apply elem_of_customers; by exists o| |done].
    intros Hin. by apply (Hout _ Hin).
Qed.

(** X20: the [total_spent] of [get_top_customers] is not the [Monetary] of
    the analysis: for a customer listed by both on the same order table,
    [Monetary] is that total plus the freight of the customer's rows.  This is
    an equality of exact arithmetic, the sums taken as sums of rationals; the
    sums of the program are rounded, each in its own order. *)
Theorem top_total_excludes_freight
    (h : heap) (l : loc) (rows : list Order) (n : Z) (t_rfm t_top : DataFrame)
    (row_rfm row_top : Row) (c : string) :
  h !! l = Some (orders_frame rows) →
  outcome (perform_rfm_analysis l h) = Ok t_rfm →
  get_top_customers argsort_desc (orders_frame rows) n = Ok t_top →
  row_rfm ∈ iterrows t_rfm → row_top ∈ iterrows t_top →
  row_get row_rfm "customer_id" = Ok (VStr c) →
  row_get row_top "customer_id" = Ok (VStr c) →
  ∃ m q, row_get row_rfm "Monetary" = Ok (VFloat m) ∧
         row_get row_top "total_spent" = Ok (VFloat q) ∧
         (m == q + foldr Qplus 0 (map freight_value (orders_of c rows)))%Q.
Proof using Hsort.
  intros Hl Hrfm Htop Hr Ht Hcr Hct.
  destruct (perform_rfm_analysis_scored h l rows t_rfm Hl Hrfm) as (_ & _ & _ & Hrows).
  apply Hrows in Hr as (c1 & _ & ->). injection Hcr as ->.
  destruct (get_top_customers_props rows n) as (t' & Ht' & _ & Hrows' & _).
  rewrite Htop in Ht'. injection Ht' as <-.
  destruct (Hrows' row_top Ht) as (c2 & _ & ->). injection Hct as ->.
  exists (monetary rows c), (price_total rows c). split; [done|]. split; [done|].
  apply monetary_price_freight.
Qed.

(** X21: every row of the table of [get_top_positive_reviewers] is a customer
    with the number of the customer's reviews of score 4 or more, which is at
    least 1: a customer without such a review is never listed, not even with
    a count of 0.  When [n] is at least the number of customers with such a
    review, all of them are listed. *)
Theorem get_top_positive_reviewers_rows (reviews : list (string * Z)) (n : Z) :
  ∃ t, get_top_positive_reviewers argsort_desc (reviews_frame reviews) n = Ok t ∧
    (∀ row, row ∈ iterrows t →
       ∃ c, row = [ ("customer_id", VStr c);
                    ("positive_reviews_count",
                     VInt (Z.of_nat (length (positive_reviews reviews c)))) ] ∧
            1 ≤ Z.of_nat (length (positive_reviews reviews c)) ∧
            ∃ s, (c, s) ∈ reviews ∧ 4 ≤ s) ∧
    (Z.of_nat (length (positive_customers reviews)) ≤ n →
     ∀ c s, (c, s) ∈ reviews → 4 ≤ s →
            ∃ row, row ∈ iterrows t ∧ row_get row "customer_id" = Ok (VStr c)).
Proof using Hsort.
  destruct (get_top_positive_reviewers_ranked argsort_desc Hsort reviews n)
    as (t & ranked & Ht & Hrows & Hp & Hd).
  exists t. split; [done|].
  destruct (top_rows_props (top_reviewers_row reviews)
              (λ c, inject_Z (positive_count reviews c)) (positive_customers reviews) ranked
              (head_count (length (positive_customers reviews)) n) (iterrows t))
    as (_ & Hin & _ & _ & _ & Hall); [by intros c c' [= ->]|apply NoDup_group_keys|done| |done|].
  { intros i j c c' Hij Hi Hj. rewrite <- Zle_Qle. by eapply Hd. }
  assert (∀ c, c ∈ positive_customers reviews ↔ ∃ s, (c, s) ∈ reviews ∧ 4 ≤ s) as HK.
  { intros c. unfold positive_customers. rewrite elem_of_group_keys, list_elem_of_fmap. split.
    - intros ([c' s] & -> & Hr). apply list_elem_of_filter in Hr as [Hs Hr]. by exists s.
    - intros (s & Hr & Hs). exists (c, s). split; [done|]. by apply list_elem_of_filter. }
  split.
  - intros row Hrow. destruct (Hin row Hrow) as (c & Hc & ->). exists c. split; [done|].
    apply HK in Hc as Hcs. split; [|done]. destruct Hcs as (s & Hr & Hs).
    assert ((c, s) ∈ positive_reviews reviews c) as Hpos.
    { unfold positive_reviews. apply list_elem_of_filter. split; [done|].
      by apply list_elem_of_filter. }
    destruct (positive_reviews reviews c); [by apply elem_of_nil in Hpos | simpl; lia].
  - intros Hn c s Hr Hs. exists (top_reviewers_row reviews c). split; [|done].
    apply Hall; [|apply HK; by exists s].
    rewrite head_count_nonneg by lia. lia.
Qed.

(** X22: the table of [get_top_positive_reviewers] has at most [n] rows for
    a non-negative [n], and its counts do not increase down the table. *)
Theorem get_top_positive_reviewers_best_first
    (reviews : list (string * Z)) (n : Z) (t : DataFrame) :
  get_top_positive_reviewers argsort_desc (reviews_frame reviews) n = Ok t →
  (0 ≤ n → Z.of_nat (nrows t) ≤ n) ∧
  (∀ i j row_i row_j x y,
     (i ≤ j)%nat → iterrows t !! i = Some row_i → iterrows t !! j = Some row_j →
     row_get row_i "positive_reviews_count" = Ok (VInt x) →
     row_get row_j "positive_reviews_count" = Ok (VInt y) → y ≤ x).
Proof using Hsort.
  intros Ht.
  destruct (get_top_positive_reviewers_ranked argsort_desc Hsort reviews n)
    as (t' & ranked & Ht' & Hrows & Hp & Hd).
  rewrite Ht in Ht'. injection Ht' as <-.
  destruct (top_rows_props (top_reviewers_row reviews)
              (λ c, inject_Z (positive_count reviews c)) (positive_customers reviews) ranked
              (head_count (length (positive_customers reviews)) n) (iterrows t))
    as (Hlen & Hin & _ & Hdesc & _); [by intros c c' [= ->]|apply NoDup_group_keys|done| |done|].
  { intros i j c c' Hij Hi Hj. rewrite <- Zle_Qle. by eapply Hd. }
  split.
  - intros Hn. rewrite <- length_iterrows, Hlen, head_count_nonneg by done. lia.
  - intros i j row_i row_j x y Hij Hi Hj Hx Hy.
    destruct (Hin row_i (list_elem_of_lookup_2 _ _ _ Hi)) as (c & _ & ->).
    destruct (Hin row_j (list_elem_of_lookup_2 _ _ _ Hj)) as (c' & _ & ->).
    injection Hx as <-. injection Hy as <-. rewrite Zle_Qle. by eapply Hdesc.
Qed.
End top_properties.

Lemma get_top_customers_row_count_witness :
  sorts_descending stable_argsort_desc ∧
  get_top_customers stable_argsort_desc (orders_frame ex_orders) 2 = Ok ex_top_customers ∧
  length (customers ex_orders) = 3%nat ∧
  ∃ t, get_top_customers stable_argsort_desc (orders_frame ex_orders) 2 = Ok t ∧
       (0 ≤ 2 → nrows t = (Z.to_nat 2 `min` length (customers ex_orders))%nat) ∧
       (2 < 0 → nrows t = (length (customers ex_orders) - Z.to_nat (- 2))%nat).
Proof.
  split; [exact stable_argsort_desc_sorts|]. split; [vm_compute; reflexivity|].
  split; [vm_compute; reflexivity|].
  exact (get_top_customers_row_count stable_argsort_desc stable_argsort_desc_sorts ex_orders 2).
Defined.

Lemma get_top_customers_rows_witness :
  sorts_descending stable_argsort_desc ∧
  get_top_customers stable_argsort_desc (orders_frame ex_orders) 2 = Ok ex_top_customers ∧
  (∀ row, row ∈ iterrows ex_top_customers →
     ∃ c, (∃ o, o ∈ ex_orders ∧ customer_id o = c) ∧
          row = [ ("customer_id", VStr c);
                  ("total_spent",
                   VFloat (foldr Qplus 0%Q (map price (orders_of c ex_orders)))) ]) ∧
  (∀ i j row_i row_j,
     iterrows ex_top_customers !! i = Some row_i →
     iterrows ex_top_customers !! j = Some row_j →
     row_get row_i "customer_id" = row_get row_j "customer_id" → i = j).
Proof.
  assert (get_top_customers stable_argsort_desc (orders_frame ex_orders) 2
          = Ok ex_top_customers) as Hout by (vm_compute; reflexivity).
  split; [exact stable_argsort_desc_sorts|]. split; [exact Hout|].
  exact (get_top_customers_rows stable_argsort_desc stable_argsort_desc_sorts ex_orders 2
           ex_top_customers Hout).
Defined.

Lemma get_top_customers_best_first_witness :
  sorts_descending stable_argsort_desc ∧
  get_top_customers stable_argsort_desc (orders_frame ex_orders) 2 = Ok ex_top_customers ∧
  (∀ i j row_i row_j x y,
     (i ≤ j)%nat →
     iterrows ex_top_customers !! i = Some row_i →
     iterrows ex_top_customers !! j = Some row_j →
     row_get row_i "total_spent" = Ok (VFloat x) →
     row_get row_j "total_spent" = Ok (VFloat y) → (y <= x)%Q) ∧
  (∀ o row x,
     o ∈ ex_orders →
     (∀ row', row' ∈ iterrows ex_top_customers →
              row_get row' "customer_id" ≠ Ok (VStr (customer_id o))) →
     row ∈ iterrows ex_top_customers → row_get row "total_spent" = Ok (VFloat x) →
     (foldr Qplus 0 (map price (orders_of (customer_id o) ex_orders)) <= x)%Q).
Proof.
  assert (get_top_customers stable_argsort_desc (orders_frame ex_orders) 2
          = Ok ex_top_customers) as Hout by (vm_compute; reflexivity).
  split; [exact stable_argsort_desc_sorts|]. split; [exact Hout|].
  exact (get_top_customers_best_first stable_argsort_desc stable_argsort_desc_sorts ex_orders 2
           ex_top_customers Hout).
Defined.

Lemma top_total_excludes_freight_witness :
  let row_top := [ ("customer_id", VStr "a"); ("total_spent", VFloat 120) ] in
  sorts_descending stable_argsort_desc ∧
  [orders_frame ex_orders] !! 0%nat = Some (orders_frame ex_orders) ∧
  outcome (perform_rfm_analysis 0%nat [orders_frame ex_orders]) = Ok ex_table ∧
  get_top_customers stable_argsort_desc (orders_frame ex_orders) 2 = Ok ex_top_customers ∧
  ex_row_a ∈ iterrows ex_table ∧ row_top ∈ iterrows ex_top_customers ∧
  row_get ex_row_a "customer_id" = Ok (VStr "a") ∧
  row_get row_top "customer_id" = Ok (VStr "a") ∧
  ∃ m q, row_get ex_row_a "Monetary" = Ok (VFloat m) ∧
         row_get row_top "total_spent" = Ok (VFloat q) ∧
         (m == q + foldr Qplus 0 (map freight_value (orders_of "a" ex_orders)))%Q.
Proof.
  intros row_top.
  assert (outcome (perform_rfm_analysis 0%nat [orders_frame ex_orders]) = Ok ex_table)
    as Hrfm by (vm_compute; reflexivity).
  assert (get_top_customers stable_argsort_desc (orders_frame ex_orders) 2
          = Ok ex_top_customers) as Htop by (vm_compute; reflexivity).
  assert (ex_row_a ∈ iterrows ex_table) as Hr
    by (apply list_elem_of_In; vm_compute; left; reflexivity).
  assert (row_top ∈ iterrows ex_top_customers) as Ht
    by (apply list_elem_of_In; vm_compute; left; reflexivity).
  split; [exact stable_argsort_desc_sorts|]. split; [reflexivity|]. split; [exact Hrfm|].
  split; [exact Htop|]. split; [exact Hr|]. split; [exact Ht|].
  split; [reflexivity|]. split; [reflexivity|].
  exact (top_total_excludes_freight stable_argsort_desc stable_argsort_desc_sorts
           [orders_frame ex_orders] 0%nat ex_orders 2 ex_table ex_top_customers
           ex_row_a row_top "a" eq_refl Hrfm Htop Hr Ht eq_refl eq_refl).
Defined.

Lemma get_top_positive_reviewers_rows_witness :
  sorts_descending stable_argsort_desc ∧
  get_top_positive_reviewers stable_argsort_desc (reviews_frame ex_reviews) 2
  = Ok ex_top_reviewers ∧
  ∃ t, get_top_positive_reviewers stable_argsort_desc (reviews_frame ex_reviews) 2 = Ok t ∧
    (∀ row, row ∈ iterrows t →
       ∃ c, row = [ ("customer_id", VStr c);
                    ("positive_reviews_count",
                     VInt (Z.of_nat (length (positive_reviews ex_reviews c)))) ] ∧
            1 ≤ Z.of_nat (length (positive_reviews ex_reviews c)) ∧
            ∃ s, (c, s) ∈ ex_reviews ∧ 4 ≤ s) ∧
    (Z.of_nat (length (positive_customers ex_reviews)) ≤ 2 →
     ∀ c s, (c, s) ∈ ex_reviews → 4 ≤ s →
            ∃ row, row ∈ iterrows t ∧ row_get row "customer_id" = Ok (VStr c)).
Proof.
  split; [exact stable_argsort_desc_sorts|]. split; [vm_compute; reflexivity|].
  exact (get_top_positive_reviewers_rows stable_argsort_desc stable_argsort_desc_sorts
           ex_reviews 2).
Defined.

Lemma get_top_positive_reviewers_best_first_witness :
  sorts_descending stable_argsort_desc ∧
  get_top_positive_reviewers stable_argsort_desc (reviews_frame ex_reviews) 2
  = Ok ex_top_reviewers ∧
  (0 ≤ 2 → Z.of_nat (nrows ex_top_reviewers) ≤ 2) ∧
  (∀ i j row_i row_j x y,
     (i ≤ j)%nat →
     iterrows ex_top_reviewers !! i = Some row_i →
     iterrows ex_top_reviewers !! j = Some row_j →
     row_get row_i "positive_reviews_count" = Ok (VInt x) →
     row_get row_j "positive_reviews_count" = Ok (VInt y) → y ≤ x).
Proof.
  assert (get_top_positive_reviewers stable_argsort_desc (reviews_frame ex_reviews) 2
          = Ok ex_top_reviewers) as Hout by (vm_compute; reflexivity).
  split; [exact stable_argsort_desc_sorts|]. split; [exact Hout|].
  exact (get_top_positive_reviewers_best_first stable_argsort_desc stable_argsort_desc_sorts
           ex_reviews 2 ex_top_reviewers Hout).
Defined.
